(** * release.js: the release script of the monorepo, embedded and verified

    The script resolves a target version, rewrites the version and the
    internal dependency entries of every package manifest, builds, commits,
    publishes every package and pushes a tag.  This file embeds
    [src/release.js] function by function: JavaScript values are an inductive
    type, object literals are association lists in property order, the file
    system is a finite map from paths to parsed documents, and the
    asynchronous body of [main] is a computation in a state-and-exception
    monad whose state records every observable effect in a trace. *)

From Stdlib Require Import Ascii.
From stdpp Require Import base strings list gmap.

Local Open Scope string_scope.
Local Open Scope list_scope.
Local Set Warnings "-register-all".

(** ** JavaScript values *)

(** The values that reach the script: what [minimist] puts in [args], what
    [JSON.parse] returns for a manifest, what [semver.prerelease] returns.
    A number is kept as its canonical decimal text (the text
    [JSON.stringify] prints), so zero is always ["0"]. *)
Inductive value : Type :=
  | VUndef
  | VNull
  | VBool (b : bool)
  | VNum (text : string)
  | VStr (s : string)
  | VArr (items : list value)
  | VObj (fields : list (string * value)).

(** Truthiness, as tested by [if (x)], [!x], [x || y] and [x && y]. *)
Definition truthy (v : value) : bool :=
  match v with
  | VUndef | VNull => false
  | VBool b => b
  | VNum text => negb (String.eqb text "0")
  | VStr s => negb (String.eqb s "")
  | VArr _ | VObj _ => true
  end.

Definition strs (l : list string) : list value := VStr <$> l.

(** ** Strings *)

Definition startsWith (s p : string) : bool := String.prefix p s.

Fixpoint endsWith (s suffix : string) : bool :=
  String.eqb s suffix ||
  match s with
  | EmptyString => false
  | String _ rest => endsWith rest suffix
  end.

(** [s.includes(sub)], also the test [s.match(/sub/)] for a pattern without
    metacharacters. *)
Fixpoint includes (s sub : string) : bool :=
  String.prefix sub s ||
  match s with
  | EmptyString => false
  | String _ rest => includes rest sub
  end.

Fixpoint drop_chars (n : nat) (s : string) : string :=
  match n, s with
  | O, _ => s
  | S n', String _ rest => drop_chars n' rest
  | S _, EmptyString => EmptyString
  end.

(** [dep.replace(/^@vue\//, '')] *)
Definition strip_scope (dep : string) : string :=
  if startsWith dep "@vue/" then drop_chars 5 dep else dep.

Definition nl : string := String (Ascii.ascii_of_nat 10) EmptyString.

(** ** Objects: association lists in property order *)

Fixpoint obj_get (fields : list (string * value)) (k : string) : option value :=
  match fields with
  | [] => None
  | (k', v) :: rest => if String.eqb k' k then Some v else obj_get rest k
  end.

(** [o[k] = v]: an existing property keeps its place, a new one goes last. *)
Fixpoint obj_set (fields : list (string * value)) (k : string) (v : value)
  : list (string * value) :=
  match fields with
  | [] => [(k, v)]
  | (k', v') :: rest =>
      if String.eqb k' k then (k', v) :: rest else (k', v') :: obj_set rest k v
  end.

Definition obj_keys (fields : list (string * value)) : list string := fst <$> fields.

(** [v.k] for the property names the script reads ([version], [private],
    [name], [dependencies], [peerDependencies]): only an object parsed from
    JSON can have them; primitives and arrays give [undefined].  Reading a
    property of [null] throws and is handled where it happens. *)
Definition js_get (v : value) (k : string) : value :=
  match v with
  | VObj fields => default VUndef (obj_get fields k)
  | _ => VUndef
  end.

(** ** The script's constants (lines 2-34) *)

(** [args], as parsed by [minimist]: the first positional argument and the
    options the script reads. *)
Record cli : Type := {
  positional : value;   (* args._[0] *)
  preid : value;        (* args.preid *)
  dry : value;          (* args.dry *)
  skipTests_flag : value;  (* args.skipTests *)
  skipBuild_flag : value;  (* args.skipBuild *)
  tag : value           (* args.tag *)
}.

(** Options of a subprocess call: [{ cwd, stdio }], either may be absent. *)
Record options : Type := { cwd : option string; stdio : option string }.

Definition no_opts : options := {| cwd := None; stdio := None |}.

(** How a subprocess ends: exit code zero with the captured output, or a
    rejection carrying the captured error text. *)
Inductive exec_result : Type :=
  | Exited (stdout : string)
  | Failed (stderr : string).

(** What the script prints with [console.log], one constructor per call
    site, with the values interpolated into its text. *)
Inductive message : Type :=
  | MStep (text : string)            (* step(msg), line 63 *)
  | MNoTests                         (* line 119 *)
  | MSkipped                         (* lines 121 and 137: "(skipped)" *)
  | MNoDts                           (* line 135 *)
  | MNoChanges                       (* line 149: "No changes to commit." *)
  | MDryFinished                     (* line 165 *)
  | MSkippedSummary (pkgs : list string)  (* lines 169-175 *)
  | MBlank                           (* line 177 *)
  | MDepUpdate (name : value) (depType dep version : string)  (* line 204 *)
  | MDryRun (bin : string) (cargs : list value) (opts : options)  (* line 55 *)
  | MPublished (pkg version : string)     (* line 259 *)
  | MAlreadyPublished (pkg : string).     (* line 262 *)

Inductive prompt_request : Type :=
  | PSelect (choices : list string)  (* line 72 *)
  | PInput (initial : string)        (* line 82 *)
  | PConfirm (version : string).     (* line 101: "Releasing v<version>. Confirm?" *)

Inductive error : Type :=
  | ErrInvalidVersion (v : value)   (* line 97 *)
  | ErrType (what : string)         (* a TypeError raised by the runtime *)
  | ErrExec (bin : string) (cargs : list value) (opts : options) (stderr : string)
  | ErrFile (path : string)         (* readFileSync or JSON.parse failed *)
  | ErrPrompt.                      (* the prompt was cancelled *)

(** Everything the script does to the outside, in the order it happens. *)
Inductive event : Type :=
  | EPrompt (p : prompt_request)
  | ELog (m : message)
  | EError (e : error)               (* console.error, line 270 *)
  | EExec (bin : string) (cargs : list value) (opts : options)  (* execa, line 52 *)
  | ERead (path : string)
  | EWrite (path : string) (doc : value).

(** The constants computed when the module loads, and the outside world: the
    [semver] functions, the operator and the subprocesses.  A subprocess and
    the operator may answer according to everything that happened before, and
    a subprocess may change files. *)
Record Env : Type := {
  args : cli;
  dirname : string;                               (* __dirname *)
  currentVersion : string;                        (* line 11 *)
  dirEntries : list string;                       (* fs.readdirSync, line 30 *)
  semver_prerelease : option (list value);        (* semver.prerelease(currentVersion) *)
  semver_inc : string -> value -> option string;  (* semver.inc(currentVersion, i, preId) *)
  semver_valid : string -> bool;                  (* semver.valid on a string *)
  execa : list event -> gmap string value -> string -> list value -> options ->
          exec_result * gmap string value;
  answer_select : list event -> list string -> option string;
  answer_input : list event -> string -> option string;
  answer_confirm : list event -> string -> option bool
}.

(** ** State and the monad of the script *)

Record state : Type := {
  fs : gmap string value;           (* manifests, as JSON.parse reads them *)
  skippedPackages : list string;    (* line 34 *)
  trace : list event
}.

Inductive result (A : Type) : Type :=
  | Ok (a : A)
  | Throw (e : error).
Arguments Ok {A} a.
Arguments Throw {A} e.

Definition M (A : Type) : Type := state -> result A * state.

Definition ret {A} (a : A) : M A := fun st => (Ok a, st).

Definition throw {A} (e : error) : M A := fun st => (Throw e, st).

Definition bind {A B} (m : M A) (k : A -> M B) : M B :=
  fun st =>
    match m st with
    | (Ok a, st') => k a st'
    | (Throw e, st') => (Throw e, st')
    end.

(** [try { m } catch (e) { h(e) }] *)
Definition try_catch {A} (m : M A) (h : error -> M A) : M A :=
  fun st =>
    match m st with
    | (Ok a, st') => (Ok a, st')
    | (Throw e, st') => h e st'
    end.

Declare Scope release_scope.
Delimit Scope release_scope with release.
Notation "x <- c1 ;; c2" := (bind c1 (fun x => c2))
  (at level 100, c1 at next level, right associativity) : release_scope.
Notation "c1 ;; c2" := (bind c1 (fun _ => c2))
  (at level 100, c2 at level 200, right associativity) : release_scope.
Local Open Scope release_scope.

Definition emit (e : event) : M unit :=
  fun st => (Ok tt, {| fs := fs st; skippedPackages := skippedPackages st;
                       trace := trace st ++ [e] |}).

Definition log (m : message) : M unit := emit (ELog m).

(** A loop over a list that threads a value: [forEach] and [for ... of];
    an exception leaves the loop. *)
Fixpoint forEach {A S} (l : list A) (f : A -> S -> M S) (s : S) : M S :=
  match l with
  | [] => ret s
  | x :: rest => s' <- f x s ;; forEach rest f s'
  end.

(** ** The capture of line 91

    [release.match(re)[1]], where [re] is: an opening parenthesis, a group
    of any characters, a closing parenthesis. *)

(** [.] matches any character except a line terminator: LF, CR, and U+2028
    and U+2029, which are three bytes each in the UTF-8 text of a string. *)
Definition line_separator : string :=
  String (Ascii.ascii_of_nat 226) (String (Ascii.ascii_of_nat 128)
    (String (Ascii.ascii_of_nat 168) EmptyString)).

Definition paragraph_separator : string :=
  String (Ascii.ascii_of_nat 226) (String (Ascii.ascii_of_nat 128)
    (String (Ascii.ascii_of_nat 169) EmptyString)).

Fixpoint dot_prefix (s : string) : string :=
  match s with
  | EmptyString => EmptyString
  | String c rest =>
      if Ascii.eqb c (Ascii.ascii_of_nat 10) || Ascii.eqb c (Ascii.ascii_of_nat 13)
         || startsWith s line_separator || startsWith s paragraph_separator
      then EmptyString
      else String c (dot_prefix rest)
  end.

(** The text before the last [")"], when there is one: [.*] is greedy. *)
Fixpoint before_last_close (s : string) : option string :=
  match s with
  | EmptyString => None
  | String c rest =>
      match before_last_close rest with
      | Some t => Some (String c t)
      | None => if Ascii.eqb c ")"%char then Some EmptyString else None
      end
  end.

(** The leftmost ["("] that is closed on its line starts the match. *)
Fixpoint match_parens (s : string) : option string :=
  match s with
  | EmptyString => None
  | String c rest =>
      if Ascii.eqb c "("%char then
        match before_last_close (dot_prefix rest) with
        | Some captured => Some captured
        | None => match_parens rest
        end
      else match_parens rest
  end.

(** ** The script *)

Section Release.

Context (env : Env).

(** Lines 18-20: [args.preid || (prerelease && prerelease[0])]. *)
Definition preId : value :=
  if truthy (preid (args env)) then preid (args env)
  else match semver_prerelease env with
       | None => VNull
       | Some ids => default VUndef (head ids)
       end.

Definition isDryRun : value := dry (args env).
Definition skipTests : value := skipTests_flag (args env).
Definition skipBuild : value := skipBuild_flag (args env).

(** Lines 29-31. *)
Definition packages : list string :=
  List.filter (fun p => negb (endsWith p ".ts") && negb (startsWith p "."))
              (dirEntries env).

(** Lines 37-42. *)
Definition versionIncrements : list string :=
  ["patch"; "minor"; "major"] ++
  (if truthy preId then ["prepatch"; "preminor"; "premajor"; "prerelease"] else []).

(** Line 45. *)
Definition inc (i : string) : option string := semver_inc env i preId.

(** Lines 51-52: the subprocess really runs. *)
Definition run (bin : string) (cargs : list value) (opts : options) : M string :=
  fun st =>
    let merged := {| cwd := cwd opts; stdio := Some (default "inherit" (stdio opts)) |} in
    let '(r, fs') := execa env (trace st) (fs st) bin cargs merged in
    let st' := {| fs := fs'; skippedPackages := skippedPackages st;
                  trace := trace st ++ [EExec bin cargs merged] |} in
    match r with
    | Exited stdout => (Ok stdout, st')
    | Failed stderr => (Throw (ErrExec bin cargs merged stderr), st')
    end.

(** Lines 54-55: only a line on the console. *)
Definition dryRun (bin : string) (cargs : list value) (opts : options) : M unit :=
  log (MDryRun bin cargs opts).

(** Line 58. *)
Definition runIfNotDry (bin : string) (cargs : list value) (opts : options) : M unit :=
  if truthy isDryRun then dryRun bin cargs opts
  else (run bin cargs opts ;; ret tt).

(** Line 61, and [path.resolve(dir, 'package.json')]: package directories are
    names listed by [readdirSync], so resolving only joins the segments. *)
Definition getPkgRoot (pkg : string) : string := dirname env +:+ "/packages/" +:+ pkg.
Definition manifest_of (pkgRoot : string) : string := pkgRoot +:+ "/package.json".

(** Line 63. *)
Definition step (msg : string) : M unit := log (MStep msg).

(** [JSON.parse(fs.readFileSync(path, 'utf-8'))] *)
Definition readJSON (path : string) : M value :=
  fun st =>
    let st' := {| fs := fs st; skippedPackages := skippedPackages st;
                  trace := trace st ++ [ERead path] |} in
    match fs st !! path with
    | Some doc => (Ok doc, st')
    | None => (Throw (ErrFile path), st')
    end.

(** [fs.writeFileSync(path, JSON.stringify(doc, null, 2) + '\n')] *)
Definition writeJSON (path : string) (doc : value) : M unit :=
  fun st => (Ok tt, {| fs := <[path := doc]> (fs st);
                       skippedPackages := skippedPackages st;
                       trace := trace st ++ [EWrite path doc] |}).

Definition get_skipped : M (list string) := fun st => (Ok (skippedPackages st), st).

(** Lines 200-203: the entries [updateDeps] rewrites. *)
Definition is_release_dep (dep : string) : bool :=
  String.eqb dep "vue" ||
  (startsWith dep "@vue" && existsb (String.eqb (strip_scope dep)) packages).

(** Lines 196-210.  [deps] is the object inside [pkg], so the writes of the
    loop are writes into [pkg]; the keys are listed before the loop starts.
    The keys of an array or a string are decimal indices and numbers and
    booleans have none, so for them the loop changes nothing. *)
Definition updateDeps (pkg : value) (depType version : string) : M value :=
  let deps := js_get pkg depType in
  if negb (truthy deps) then ret pkg
  else match pkg, deps with
       | VObj pkg_fields, VObj dep_fields =>
           dep_fields' <-
             forEach (obj_keys dep_fields)
               (fun dep current =>
                  if is_release_dep dep then
                    log (MDepUpdate (js_get pkg "name") depType dep version) ;;
                    ret (obj_set current dep (VStr version))
                  else ret current)
               dep_fields ;;
           ret (VObj (obj_set pkg_fields depType (VObj dep_fields')))
       | _, _ => ret pkg
       end.

(** Line 190, [pkg.version = version]: a new property of an object, a
    TypeError on [null], and without effect on what [JSON.stringify] prints
    for a primitive or an array (the script is not in strict mode). *)
Definition set_version (pkg : value) (version : string) : M value :=
  match pkg with
  | VObj fields => ret (VObj (obj_set fields "version" (VStr version)))
  | VNull | VUndef => throw (ErrType "Cannot set properties of null")
  | _ => ret pkg
  end.

(** Lines 187-194. *)
Definition updatePackage (pkgRoot version : string) : M unit :=
  let pkgPath := manifest_of pkgRoot in
  pkg <- readJSON pkgPath ;;
  pkg <- set_version pkg version ;;
  pkg <- updateDeps pkg "dependencies" version ;;
  pkg <- updateDeps pkg "peerDependencies" version ;;
  writeJSON pkgPath pkg.

(** Lines 180-185. *)
Definition updateVersions (version : string) : M unit :=
  updatePackage (dirname env) version ;;
  forEach packages (fun p _ => updatePackage (getPkgRoot p) version) tt.

(** Lines 225-237: the registry channel of one package. *)
Definition releaseTag_of (pkgName version : string) : value :=
  if truthy (tag (args env)) then tag (args env)
  else if includes version "alpha" then VStr "alpha"
  else if includes version "beta" then VStr "beta"
  else if includes version "rc" then VStr "rc"
  else if String.eqb pkgName "vue" then VStr "next"
  else VNull.

(** Lines 245-257: the registry command of one package. *)
Definition publish_args (version : string) (releaseTag : value) : list value :=
  strs ["publish"; "--new-version"; version] ++
  (if truthy releaseTag then [VStr "--tag"; releaseTag] else []) ++
  strs ["--access"; "public"].

Definition publish_opts (pkgRoot : string) : options :=
  {| cwd := Some pkgRoot; stdio := Some "pipe" |}.

(** Lines 219-266: what [publishPackage] does with the manifest it has read.
    The executor is a parameter, as in the source. *)
Definition publish_manifest (pkgName version : string)
    (runIfNotDry : string -> list value -> options -> M unit) (pkg : value) : M unit :=
  match pkg with
  | VNull | VUndef => throw (ErrType "Cannot read properties of null")
  | _ =>
      if truthy (js_get pkg "private") then ret tt
      else
        let releaseTag := releaseTag_of pkgName version in
        step ("Publishing " +:+ pkgName +:+ "...") ;;
        try_catch
          (runIfNotDry "yarn" (publish_args version releaseTag)
                       (publish_opts (getPkgRoot pkgName)) ;;
           log (MPublished pkgName version))
          (fun e =>
             match e with
             | ErrExec _ _ _ stderr =>
                 if includes stderr "previously published"
                 then log (MAlreadyPublished pkgName)
                 else throw e
             | _ => throw e
             end)
  end.

(** Lines 212-267. *)
Definition publishPackage (pkgName version : string)
    (runIfNotDry : string -> list value -> options -> M unit) : M unit :=
  skipped <- get_skipped ;;
  if existsb (String.eqb pkgName) skipped then ret tt
  else
    let pkgRoot := getPkgRoot pkgName in
    let pkgPath := manifest_of pkgRoot in
    pkg <- readJSON pkgPath ;;
    publish_manifest pkgName version runIfNotDry pkg.

(** Lines 68-93: the target version, given or asked for. *)
Definition select_choices : list string :=
  ((fun i => i +:+ " (" +:+ default "null" (inc i) +:+ ")") <$> versionIncrements)
  ++ ["custom"].

Definition prompt_select (choices : list string) : M string :=
  fun st =>
    let st' := {| fs := fs st; skippedPackages := skippedPackages st;
                  trace := trace st ++ [EPrompt (PSelect choices)] |} in
    match answer_select env (trace st) choices with
    | Some release => (Ok release, st')
    | None => (Throw ErrPrompt, st')
    end.

Definition prompt_input (initial : string) : M string :=
  fun st =>
    let st' := {| fs := fs st; skippedPackages := skippedPackages st;
                  trace := trace st ++ [EPrompt (PInput initial)] |} in
    match answer_input env (trace st) initial with
    | Some version => (Ok version, st')
    | None => (Throw ErrPrompt, st')
    end.

Definition prompt_confirm (version : string) : M bool :=
  fun st =>
    let st' := {| fs := fs st; skippedPackages := skippedPackages st;
                  trace := trace st ++ [EPrompt (PConfirm version)] |} in
    match answer_confirm env (trace st) version with
    | Some yes => (Ok yes, st')
    | None => (Throw ErrPrompt, st')
    end.

Definition resolve_target : M value :=
  let targetVersion := positional (args env) in
  if truthy targetVersion then ret targetVersion
  else
    release <- prompt_select select_choices ;;
    if String.eqb release "custom" then
      version <- prompt_input (currentVersion env) ;; ret (VStr version)
    else
      match match_parens release with
      | Some version => ret (VStr version)
      | None => throw (ErrType "Cannot read properties of null")
      end.

(** Lines 115-122: the tests.  Both commands of the source are commented
    out; what is left prints a line. *)
Definition main_tests : M unit :=
  step (nl +:+ "Running tests...") ;;
  if negb (truthy skipTests) && negb (truthy isDryRun)
  then log MNoTests
  else log MSkipped.

(** Lines 129-138: the build. *)
Definition main_build : M unit :=
  step (nl +:+ "Building all packages...") ;;
  if negb (truthy skipBuild) && negb (truthy isDryRun)
  then
    run "yarn" (strs ["build"; "--release"]) no_opts ;;
    step (nl +:+ "Verifying type declarations...") ;;
    log MNoDts
  else log MSkipped.

Definition git_diff_opts : options := {| cwd := None; stdio := Some "pipe" |}.

(** Lines 143-150: the commit. *)
Definition main_commit (targetVersion : string) : M unit :=
  stdout <- run "git" (strs ["diff"]) git_diff_opts ;;
  if negb (String.eqb stdout "")
  then
    step (nl +:+ "Committing changes...") ;;
    runIfNotDry "git" (strs ["add"; "-A"]) no_opts ;;
    runIfNotDry "git" (strs ["commit"; "-m"; "release: v" +:+ targetVersion]) no_opts
  else log MNoChanges.

(** Lines 153-156: the packages, one after the other. *)
Definition main_publish (targetVersion : string) (pkgs : list string) : M unit :=
  forEach pkgs (fun pkg _ => publishPackage pkg targetVersion runIfNotDry) tt.

(** Lines 159-162: tag and push. *)
Definition main_push (targetVersion : string) : M unit :=
  step (nl +:+ "Pushing to GitHub...") ;;
  runIfNotDry "git" (strs ["tag"; "v" +:+ targetVersion]) no_opts ;;
  runIfNotDry "git" (strs ["push"; "origin"; "refs/tags/v" +:+ targetVersion]) no_opts ;;
  runIfNotDry "git" (strs ["push"]) no_opts.

(** Lines 164-177: the closing notices. *)
Definition main_summary : M unit :=
  (if truthy isDryRun then log MDryFinished else ret tt) ;;
  skipped <- get_skipped ;;
  (match skipped with
   | [] => ret tt
   | _ :: _ => log (MSkippedSummary skipped)
   end) ;;
  log MBlank.

(** Lines 114-177: everything after the operator said yes. *)
Definition main_release (targetVersion : string) : M unit :=
  main_tests ;;
  step (nl +:+ "Updating cross dependencies...") ;;
  updateVersions targetVersion ;;
  main_build ;;
  main_commit targetVersion ;;
  step (nl +:+ "Publishing packages...") ;;
  main_publish targetVersion packages ;;
  main_push targetVersion ;;
  main_summary.

(** Lines 66-178.  [semver.valid] gives [null] for anything but a string. *)
Definition main : M unit :=
  targetVersion <- resolve_target ;;
  match targetVersion with
  | VStr version =>
      if semver_valid env version then
        yes <- prompt_confirm version ;;
        if negb yes then ret tt
        else main_release version
      else throw (ErrInvalidVersion targetVersion)
  | _ => throw (ErrInvalidVersion targetVersion)
  end.

(** Lines 269-271: [main().catch(err => console.error(err))]. *)
Definition program : M unit :=
  try_catch main (fun err => emit (EError err)).

End Release.

(** The state in which the module has just been loaded (line 34). *)
Definition initial_state (files : gmap string value) : state :=
  {| fs := files; skippedPackages := []; trace := [] |}.

(** The exit code of the process: zero unless an exception escapes. *)
Definition exit_code (r : result unit) : nat :=
  match r with
  | Ok _ => 0
  | Throw _ => 1
  end.

(** ** Propagation as a function on documents

    What [updateDeps] and [updatePackage] compute, without the console: the
    lemmas below show that the script computes exactly this. *)

Definition add_events (st : state) (evs : list event) : state :=
  {| fs := fs st; skippedPackages := skippedPackages st; trace := trace st ++ evs |}.

Definition rewrite_entry (env : Env) (version : string)
    (current : list (string * value)) (dep : string) : list (string * value) :=
  if is_release_dep env dep then obj_set current dep (VStr version) else current.

Definition rewrite_deps (env : Env) (version : string)
    (dep_fields : list (string * value)) : list (string * value) :=
  fold_left (rewrite_entry env version) (obj_keys dep_fields) dep_fields.

Definition updateDeps_doc (env : Env) (pkg : value) (depType version : string) : value :=
  match pkg, js_get pkg depType with
  | VObj pkg_fields, VObj dep_fields =>
      VObj (obj_set pkg_fields depType (VObj (rewrite_deps env version dep_fields)))
  | _, _ => pkg
  end.

Definition updateDeps_logs (env : Env) (pkg : value) (depType version : string)
  : list event :=
  match pkg, js_get pkg depType with
  | VObj _, VObj dep_fields =>
      (fun dep => ELog (MDepUpdate (js_get pkg "name") depType dep version))
        <$> List.filter (is_release_dep env) (obj_keys dep_fields)
  | _, _ => []
  end.

Definition set_version_doc (pkg : value) (version : string) : option value :=
  match pkg with
  | VObj fields => Some (VObj (obj_set fields "version" (VStr version)))
  | VNull | VUndef => None
  | _ => Some pkg
  end.

Definition propagate_doc (env : Env) (version : string) (pkg : value) : option value :=
  pkg1 ← set_version_doc pkg version;
  Some (updateDeps_doc env (updateDeps_doc env pkg1 "dependencies" version)
                       "peerDependencies" version).

Definition propagate_logs (env : Env) (version : string) (pkg : value) : list event :=
  match set_version_doc pkg version with
  | Some pkg1 =>
      updateDeps_logs env pkg1 "dependencies" version ++
      updateDeps_logs env (updateDeps_doc env pkg1 "dependencies" version)
                      "peerDependencies" version
  | None => []
  end.

(** The files after [updatePackage] on one manifest, when it does not throw. *)
Definition propagate_file (env : Env) (version path : string)
    (files : gmap string value) : option (gmap string value) :=
  pkg ← files !! path;
  doc ← propagate_doc env version pkg;
  Some (<[path := doc]> files).

(** The files after a run of manifests that stops at the first exception. *)
Fixpoint propagate_files (env : Env) (version : string) (paths : list string)
    (files : gmap string value) : gmap string value :=
  match paths with
  | [] => files
  | path :: rest =>
      match propagate_file env version path files with
      | Some files' => propagate_files env version rest files'
      | None => files
      end
  end.

Definition manifests (env : Env) : list string :=
  manifest_of (dirname env) ::
  ((fun p => manifest_of (getPkgRoot env p)) <$> packages env).

(** The entry of [dep] in the [depType] map of a manifest. *)
Definition dep_entry (pkg : value) (depType dep : string) : option value :=
  match js_get pkg depType with
  | VObj dep_fields => obj_get dep_fields dep
  | _ => None
  end.

(** A dependency map on which the rewriting has nothing left to do. *)
Definition settled (env : Env) (version : string) (v : value) : Prop :=
  match v with
  | VObj dep_fields => rewrite_deps env version dep_fields = dep_fields
  | _ => True
  end.

Definition rewritten (env : Env) (version : string) (v : value) : value :=
  match v with
  | VObj dep_fields => VObj (rewrite_deps env version dep_fields)
  | _ => v
  end.

(** A manifest on which propagation has nothing left to do. *)
Definition settled_file (env : Env) (version path : string)
    (files : gmap string value) : Prop :=
  ∃ doc, files !! path = Some doc ∧ propagate_doc env version doc = Some doc.

(** No manifest of the run makes [updatePackage] throw. *)
Fixpoint propagates_ok (env : Env) (version : string) (paths : list string)
    (files : gmap string value) : Prop :=
  match paths with
  | [] => True
  | path :: rest =>
      match propagate_file env version path files with
      | Some files' => propagates_ok env version rest files'
      | None => False
      end
  end.

(** ** The release set as the specification words it

    A dependency key names a package of the release set when it is the
    directory name of one, or the scope [@vue/] followed by one. *)
Definition spec_names_release_package (env : Env) (dep : string) : bool :=
  existsb (String.eqb dep) (packages env) ||
  (startsWith dep "@vue/" && existsb (String.eqb (drop_chars 5 dep)) (packages env)).

(** ** A small repository to run the script on *)

Definition demo_cli (version dry_flag preid_flag : value) : cli :=
  {| positional := version; preid := preid_flag; dry := dry_flag;
     skipTests_flag := VUndef; skipBuild_flag := VUndef; tag := VUndef |}.

(** [git diff] reports changes, and the registry already has [reactivity]. *)
Definition demo_execa (h : list event) (files : gmap string value)
    (bin : string) (cargs : list value) (opts : options)
  : exec_result * gmap string value :=
  if String.eqb bin "git" then
    (match cargs with
     | [VStr "diff"] => Exited "diff --git a/package.json b/package.json"
     | _ => Exited ""
     end, files)
  else
    match cwd opts with
    | Some "./packages/reactivity" =>
        (Failed "error You cannot publish over the previously published versions: 1.0.1.",
         files)
    | _ => (Exited "", files)
    end.

Definition demo_env (a : cli) : Env :=
  {| args := a;
     dirname := ".";
     currentVersion := "1.0.0";
     dirEntries := [".DS_Store"; "global.d.ts"; "reactivity"; "shared"];
     semver_prerelease := None;
     semver_inc := fun i _ =>
       if String.eqb i "patch" then Some "1.0.1"
       else if String.eqb i "minor" then Some "1.1.0"
       else if String.eqb i "major" then Some "2.0.0"
       else None;
     semver_valid := fun s => String.eqb s "1.0.1";
     execa := demo_execa;
     answer_select := fun _ _ => Some "patch (1.0.1)";
     answer_input := fun _ _ => Some "1.0.1";
     answer_confirm := fun _ _ => Some true |}.

Definition live_env : Env := demo_env (demo_cli (VStr "1.0.1") VUndef VUndef).
Definition dry_env : Env := demo_env (demo_cli (VStr "1.0.1") (VBool true) VUndef).
Definition beta_env : Env := demo_env (demo_cli VUndef VUndef (VStr "beta")).

(** A version [1.0.0-0]: its leading prerelease identifier is the number 0. *)
Definition zero_env : Env :=
  {| args := demo_cli VUndef VUndef VUndef;
     dirname := ".";
     currentVersion := "1.0.0-0";
     dirEntries := [];
     semver_prerelease := Some [VNum "0"];
     semver_inc := fun _ _ => None;
     semver_valid := fun _ => false;
     execa := demo_execa;
     answer_select := fun _ _ => None;
     answer_input := fun _ _ => None;
     answer_confirm := fun _ _ => None |}.

Definition demo_manifest (name : string) (deps : list (string * value)) : value :=
  VObj [("name", VStr name); ("version", VStr "1.0.0"); ("dependencies", VObj deps)].

Definition reactivity_deps : list (string * value) :=
  [("@vue/shared", VStr "1.0.0"); ("shared", VStr "1.0.0");
   ("vue", VStr "^2.6.0"); ("lodash", VStr "^4.17.0")].

Definition demo_files : gmap string value :=
  <["./package.json" := demo_manifest "demo" []]>
  (<["./packages/reactivity/package.json" := demo_manifest "reactivity" reactivity_deps]>
  (<["./packages/shared/package.json" := demo_manifest "shared" []]> ∅)).

(** A version [2.0.0-beta.0], released without options. *)
Definition prerelease_env : Env :=
  {| args := demo_cli VUndef VUndef VUndef;
     dirname := ".";
     currentVersion := "2.0.0-beta.0";
     dirEntries := [];
     semver_prerelease := Some [VStr "beta"; VNum "0"];
     semver_inc := fun _ _ => None;
     semver_valid := fun _ => false;
     execa := demo_execa;
     answer_select := fun _ _ => None;
     answer_input := fun _ _ => None;
     answer_confirm := fun _ _ => None |}.

Definition base_increments : list string := ["patch"; "minor"; "major"].
Definition pre_increments : list string :=
  ["prepatch"; "preminor"; "premajor"; "prerelease"].

(** ** What a computation adds to the trace *)

(** [m], started with the skip list [sk], leaves the skip list as it is and
    appends to the trace events that satisfy [T], also when it throws. *)
Definition emits {A} (sk : list string) (T : list event -> Prop) (m : M A) : Prop :=
  ∀ st, skippedPackages st = sk →
    ∃ evs, skippedPackages (snd (m st)) = sk ∧
           trace (snd (m st)) = trace st ++ evs ∧
           T evs.

Definition git_diff_merged : options := {| cwd := None; stdio := Some "pipe" |}.

(** The events a run may produce: a subprocess really starts only outside
    dry-run, except for [git diff] where [d] allows it; a file is written
    only where [w] allows it, and then it is a manifest; the summary of
    skipped packages needs a skipped package. *)
Definition footprint (env : Env) (sk : list string) (w d : bool) (e : event) : Prop :=
  match e with
  | EExec bin cargs opts =>
      truthy (isDryRun env) = false ∨
      (d = true ∧ bin = "git" ∧ cargs = strs ["diff"] ∧ opts = git_diff_merged)
  | EWrite path _ => w = true ∧ path ∈ manifests env
  | ELog (MSkippedSummary _) => sk ≠ []
  | _ => True
  end.

Definition writes_to (path : string) (e : event) : bool :=
  match e with
  | EWrite p _ => String.eqb p path
  | _ => false
  end.

Definition reads_of (path : string) (e : event) : bool :=
  match e with
  | ERead p => String.eqb p path
  | _ => false
  end.

Definition count_writes (path : string) (evs : list event) : nat :=
  length (List.filter (writes_to path) evs).

Definition count_reads (path : string) (evs : list event) : nat :=
  length (List.filter (reads_of path) evs).

Definition is_exec (e : event) : bool :=
  match e with
  | EExec _ _ _ => true
  | _ => false
  end.

(** The subprocesses that really ran, in order. *)
Definition executed (evs : list event) : list event := List.filter is_exec evs.

Definition inherit_opts : options := {| cwd := None; stdio := Some "inherit" |}.

(** The state in which a publish command has just failed: the manifest was
    read, the step announced, the command run. *)
Definition publish_failed_state (env : Env) (pkg version : string)
    (files' : gmap string value) (st : state) : state :=
  {| fs := files';
     skippedPackages := skippedPackages st;
     trace := trace st ++
       [ERead (manifest_of (getPkgRoot env pkg));
        ELog (MStep ("Publishing " +:+ pkg +:+ "..."));
        EExec "yarn" (publish_args version (releaseTag_of env pkg version))
              (publish_opts (getPkgRoot env pkg))] |}.

(** The same repository with a registry that refuses the credentials. *)
Definition auth_execa (h : list event) (files : gmap string value)
    (bin : string) (cargs : list value) (opts : options)
  : exec_result * gmap string value :=
  if String.eqb bin "yarn" then
    match cwd opts with
    | Some _ => (Failed "error Couldn't publish package: ENEEDAUTH", files)
    | None => (Exited "", files)
    end
  else demo_execa h files bin cargs opts.

Definition auth_env : Env :=
  {| args := demo_cli (VStr "1.0.1") VUndef VUndef;
     dirname := ".";
     currentVersion := "1.0.0";
     dirEntries := ["reactivity"; "shared"];
     semver_prerelease := None;
     semver_inc := fun _ _ => None;
     semver_valid := fun s => String.eqb s "1.0.1";
     execa := auth_execa;
     answer_select := fun _ _ => None;
     answer_input := fun _ _ => None;
     answer_confirm := fun _ _ => Some true |}.

(** ** Vocabulary for whole runs *)

(** An event of the conversation with the operator: a prompt, or the error
    printed at the very end. *)
Definition dialogue (e : event) : Prop :=
  match e with
  | EPrompt _ | EError _ => True
  | _ => False
  end.

(** The command an event hands to the executor, run or only printed. *)
Definition command_of (e : event) : option (string * list value) :=
  match e with
  | EExec bin cargs _ => Some (bin, cargs)
  | ELog (MDryRun bin cargs _) => Some (bin, cargs)
  | _ => None
  end.

(** The commands of a stretch of the trace, in order. *)
Definition issued (evs : list event) : list (string * list value) :=
  omap command_of evs.

(** [m] ends normally, changes nothing but the trace, and hands [cmds] to
    the executor, from every state that satisfies [Inv]. *)
Definition steady (Inv : state -> Prop) (m : M unit)
    (cmds : list (string * list value)) : Prop :=
  ∀ st, Inv st → ∃ evs, m st = (Ok tt, add_events st evs) ∧ issued evs = cmds.

(** A package whose manifest does not mark it private. *)
Definition publishable (env : Env) (files : gmap string value) (pkg : string) : bool :=
  match files !! manifest_of (getPkgRoot env pkg) with
  | Some doc => negb (truthy (js_get doc "private"))
  | None => false
  end.

Definition publish_command (env : Env) (version pkg : string) : string * list value :=
  ("yarn", publish_args version (releaseTag_of env pkg version)).

Definition push_commands (version : string) : list (string * list value) :=
  [("git", strs ["tag"; "v" +:+ version]);
   ("git", strs ["push"; "origin"; "refs/tags/v" +:+ version]);
   ("git", strs ["push"])].

(** The commands of a release in which every subprocess succeeds and prints
    [out]: what lines 129-162 hand to the executor, in order. *)
Definition release_commands (env : Env) (version : string)
    (files : gmap string value) (out : string) : list (string * list value) :=
  (if negb (truthy (skipBuild env)) && negb (truthy (isDryRun env))
   then [("yarn", strs ["build"; "--release"])] else []) ++
  [("git", strs ["diff"])] ++
  (if String.eqb out "" then []
   else [("git", strs ["add"; "-A"]);
         ("git", strs ["commit"; "-m"; "release: v" +:+ version])]) ++
  (publish_command env version <$> List.filter (publishable env files) (packages env)) ++
  push_commands version.

(** A publish attempt the pipeline lives with: success, or the registry
    saying the version is there already. *)
Definition tolerated (r : exec_result) : Prop :=
  match r with
  | Exited _ => True
  | Failed stderr => includes stderr "previously published" = true
  end.

(** A repository whose operator declines. *)
Definition declining_env : Env :=
  {| args := demo_cli VUndef VUndef VUndef;
     dirname := ".";
     currentVersion := "1.0.0";
     dirEntries := ["reactivity"; "shared"];
     semver_prerelease := None;
     semver_inc := fun i _ => if String.eqb i "patch" then Some "1.0.1" else None;
     semver_valid := fun s => String.eqb s "1.0.1";
     execa := demo_execa;
     answer_select := fun _ _ => Some "patch (1.0.1)";
     answer_input := fun _ _ => Some "1.0.1";
     answer_confirm := fun _ _ => Some false |}.

(** A repository in which every command succeeds and prints [out]. *)
Definition calm_env (a : cli) (out : string) : Env :=
  {| args := a;
     dirname := ".";
     currentVersion := "1.0.0";
     dirEntries := ["reactivity"; "shared"];
     semver_prerelease := None;
     semver_inc := fun _ _ => None;
     semver_valid := fun s => String.eqb s "1.0.1";
     execa := fun _ files _ _ _ => (Exited out, files);
     answer_select := fun _ _ => None;
     answer_input := fun _ _ => None;
     answer_confirm := fun _ _ => Some true |}.

(** The demo files without the manifest of [shared]. *)
Definition broken_files : gmap string value :=
  delete "./packages/shared/package.json" demo_files.

(** A registry that already has every package at the target version. *)
Definition republish_env : Env :=
  {| args := demo_cli (VStr "1.0.1") VUndef VUndef;
     dirname := ".";
     currentVersion := "1.0.0";
     dirEntries := ["reactivity"; "shared"];
     semver_prerelease := None;
     semver_inc := fun _ _ => None;
     semver_valid := fun s => String.eqb s "1.0.1";
     execa := fun _ files bin _ _ =>
       if String.eqb bin "yarn"
       then (Failed "error You cannot publish over the previously published versions.",
             files)
       else (Exited "", files);
     answer_select := fun _ _ => None;
     answer_input := fun _ _ => None;
     answer_confirm := fun _ _ => Some true |}.

(** The demo files with [shared] marked private. *)
Definition private_files : gmap string value :=
  <["./packages/shared/package.json" :=
      VObj [("name", VStr "shared"); ("private", VBool true)]]> demo_files.

(** A repository whose build fails. *)
Definition build_fail_env : Env :=
  {| args := demo_cli (VStr "1.0.1") VUndef VUndef;
     dirname := ".";
     currentVersion := "1.0.0";
     dirEntries := ["reactivity"; "shared"];
     semver_prerelease := None;
     semver_inc := fun _ _ => None;
     semver_valid := fun s => String.eqb s "1.0.1";
     execa := fun _ files bin _ _ =>
       if String.eqb bin "yarn"
       then (Failed "error Command failed with exit code 1.", files)
       else (Exited "", files);
     answer_select := fun _ _ => None;
     answer_input := fun _ _ => None;
     answer_confirm := fun _ _ => Some true |}.

(** The trace when [main_release] reaches [updateVersions] (lines 115-125). *)
Definition before_propagation (env : Env) (st : state) : state :=
  add_events st
    [ELog (MStep (nl +:+ "Running tests..."));
     ELog (if negb (truthy (skipTests env)) && negb (truthy (isDryRun env))
           then MNoTests else MSkipped);
     ELog (MStep (nl +:+ "Updating cross dependencies..."))].

(** [m] leaves every file as it is, whatever it returns. *)
Definition keeps_files {A} (m : M A) : Prop := ∀ st, fs (snd (m st)) = fs st.

(** A dry run in which the operator picks the version at the prompt. *)
Definition dry_prompt_env : Env := demo_env (demo_cli VUndef (VBool true) VUndef).

Arguments bind : simpl never.
Arguments ret : simpl never.
Arguments throw : simpl never.
Arguments try_catch : simpl never.
Arguments emit : simpl never.
Arguments log : simpl never.

(** * Theorems *)

(** ** Strings and objects *)

Lemma obj_get_set_eq fields k v : obj_get (obj_set fields k v) k = Some v.
Proof.
  induction fields as [|[k' v'] rest IH]; simpl.
  - by rewrite String.eqb_refl.
  - destruct (String.eqb k' k) eqn:E; simpl; rewrite E; done.
Qed.

Lemma obj_get_set_ne fields k k' v :
  k ≠ k' → obj_get (obj_set fields k v) k' = obj_get fields k'.
Proof.
  intros Hne. induction fields as [|[k0 v0] rest IH]; simpl.
  - apply String.eqb_neq in Hne. by rewrite Hne.
  - destruct (String.eqb k0 k) eqn:E; simpl.
    + apply String.eqb_eq in E. subst k0.
      apply String.eqb_neq in Hne. by rewrite Hne.
    + by rewrite IH.
Qed.

Lemma obj_set_same fields k v : obj_get fields k = Some v → obj_set fields k v = fields.
Proof.
  induction fields as [|[k' v'] rest IH]; simpl; [done|].
  destruct (String.eqb k' k) eqn:E.
  - by intros [= ->].
  - intros H. by rewrite IH.
Qed.

Lemma obj_set_set fields k v w : obj_set (obj_set fields k v) k w = obj_set fields k w.
Proof.
  induction fields as [|[k' v'] rest IH]; simpl.
  - by rewrite String.eqb_refl.
  - destruct (String.eqb k' k) eqn:E; simpl; rewrite E; [done|]. by rewrite IH.
Qed.

Lemma obj_get_Some_keys fields k : is_Some (obj_get fields k) ↔ k ∈ obj_keys fields.
Proof.
  unfold obj_keys. induction fields as [|[k' v'] rest IH]; simpl.
  - split; [by intros [? [=]] | by intros ?%elem_of_nil].
  - destruct (String.eqb k' k) eqn:E.
    + apply String.eqb_eq in E. subst. split; [intros _; left | by eauto].
    + apply String.eqb_neq in E. rewrite IH. split.
      * by right.
      * intros [?|?]%elem_of_cons; [congruence | done].
Qed.

Lemma obj_keys_set fields k v : k ∈ obj_keys fields → obj_keys (obj_set fields k v) = obj_keys fields.
Proof.
  unfold obj_keys. induction fields as [|[k' v'] rest IH]; simpl.
  - by intros ?%elem_of_nil.
  - destruct (String.eqb k' k) eqn:E; simpl; [done|].
    apply String.eqb_neq in E.
    intros [?|?]%elem_of_cons; [congruence|]. f_equal. by apply IH.
Qed.

Lemma obj_set_comm fields k k' v :
  k ∈ obj_keys fields →
  obj_set (obj_set fields k v) k' v = obj_set (obj_set fields k' v) k v.
Proof.
  unfold obj_keys. induction fields as [|[k0 v0] rest IH]; simpl.
  - by intros ?%elem_of_nil.
  - intros Hin. destruct (String.eqb k0 k) eqn:E; destruct (String.eqb k0 k') eqn:E'; simpl;
      rewrite ?E, ?E'; try done.
    apply String.eqb_neq in E.
    apply elem_of_cons in Hin as [?|?]; [congruence|]. by rewrite IH.
Qed.

(** ** Rewriting one dependency map *)

Section Rewrite.

Context (env : Env) (version : string).

Lemma rewrite_entry_keys current dep :
  dep ∈ obj_keys current → obj_keys (rewrite_entry env version current dep) = obj_keys current.
Proof.
  intros Hin. unfold rewrite_entry.
  destruct (is_release_dep env dep); [by apply obj_keys_set | done].
Qed.

Lemma rewrite_entry_idem current dep :
  rewrite_entry env version (rewrite_entry env version current dep) dep
  = rewrite_entry env version current dep.
Proof.
  unfold rewrite_entry. destruct (is_release_dep env dep); [apply obj_set_set | done].
Qed.

Lemma rewrite_entry_comm current dep dep' :
  dep ∈ obj_keys current →
  rewrite_entry env version (rewrite_entry env version current dep) dep'
  = rewrite_entry env version (rewrite_entry env version current dep') dep.
Proof.
  intros Hin. unfold rewrite_entry.
  destruct (is_release_dep env dep), (is_release_dep env dep'); try done.
  by apply obj_set_comm.
Qed.

Lemma fold_rewrite_keys deps current :
  deps ⊆ obj_keys current →
  obj_keys (fold_left (rewrite_entry env version) deps current) = obj_keys current.
Proof.
  revert current. induction deps as [|dep deps IH]; intros current Hsub; simpl; [done|].
  assert (dep ∈ obj_keys current) as Hin by (apply Hsub; left).
  rewrite IH; rewrite rewrite_entry_keys; try done.
  intros x Hx. apply Hsub. by right.
Qed.

Lemma fold_rewrite_comm deps current dep :
  dep ∈ obj_keys current → deps ⊆ obj_keys current →
  rewrite_entry env version (fold_left (rewrite_entry env version) deps current) dep
  = fold_left (rewrite_entry env version) deps (rewrite_entry env version current dep).
Proof.
  revert current. induction deps as [|d deps IH]; intros current Hin Hsub; simpl; [done|].
  assert (d ∈ obj_keys current) as Hd by (apply Hsub; left).
  assert (deps ⊆ obj_keys current) as Hsub' by (intros x Hx; apply Hsub; by right).
  rewrite IH; rewrite ?rewrite_entry_keys; try done.
  by rewrite (rewrite_entry_comm current d dep).
Qed.

Lemma fold_rewrite_idem deps current :
  deps ⊆ obj_keys current →
  fold_left (rewrite_entry env version) deps
            (fold_left (rewrite_entry env version) deps current)
  = fold_left (rewrite_entry env version) deps current.
Proof.
  revert current. induction deps as [|d deps IH]; intros current Hsub; simpl; [done|].
  assert (d ∈ obj_keys current) as Hd by (apply Hsub; left).
  assert (deps ⊆ obj_keys current) as Hsub' by (intros x Hx; apply Hsub; by right).
  rewrite fold_rewrite_comm; rewrite ?rewrite_entry_keys; try done.
  rewrite rewrite_entry_idem. apply IH. by rewrite rewrite_entry_keys.
Qed.

Lemma rewrite_deps_keys dep_fields :
  obj_keys (rewrite_deps env version dep_fields) = obj_keys dep_fields.
Proof. unfold rewrite_deps. by apply fold_rewrite_keys. Qed.

Lemma rewrite_deps_idem dep_fields :
  rewrite_deps env version (rewrite_deps env version dep_fields)
  = rewrite_deps env version dep_fields.
Proof.
  unfold rewrite_deps at 1. rewrite rewrite_deps_keys.
  unfold rewrite_deps. by apply fold_rewrite_idem.
Qed.

Lemma fold_rewrite_get deps current dep :
  deps ⊆ obj_keys current →
  obj_get (fold_left (rewrite_entry env version) deps current) dep
  = if is_release_dep env dep && bool_decide (dep ∈ deps)
    then Some (VStr version) else obj_get current dep.
Proof.
  revert current. induction deps as [|d deps IH]; intros current Hsub; simpl.
  - by rewrite andb_false_r.
  - assert (d ∈ obj_keys current) as Hd by (apply Hsub; left).
    assert (deps ⊆ obj_keys current) as Hsub' by (intros x Hx; apply Hsub; by right).
    rewrite IH by (by rewrite rewrite_entry_keys).
    destruct (is_release_dep env dep) eqn:Hrel; simpl.
    + destruct (decide (dep ∈ deps)) as [Hin|Hnin].
      * rewrite !bool_decide_eq_true_2; [done | by right | done].
      * rewrite (bool_decide_eq_false_2 _ Hnin).
        destruct (decide (dep = d)) as [->|Hne].
        -- rewrite bool_decide_eq_true_2 by left.
           unfold rewrite_entry. rewrite Hrel. apply obj_get_set_eq.
        -- rewrite bool_decide_eq_false_2
             by (intros [?|?]%elem_of_cons; done).
           unfold rewrite_entry. destruct (is_release_dep env d); [|done].
           by apply obj_get_set_ne.
    + unfold rewrite_entry. destruct (is_release_dep env d) eqn:Hd'; [|done].
      apply obj_get_set_ne. intros ->. congruence.
Qed.

(** Every entry of a rewritten map: the target version when the key passes
    the test of lines 201-202, the old value otherwise. *)
Lemma rewrite_deps_get dep_fields dep :
  obj_get (rewrite_deps env version dep_fields) dep
  = if is_release_dep env dep
    then (fun _ => VStr version) <$> obj_get dep_fields dep
    else obj_get dep_fields dep.
Proof.
  unfold rewrite_deps. rewrite fold_rewrite_get by done.
  destruct (is_release_dep env dep); simpl; [|done].
  destruct (obj_get dep_fields dep) eqn:Hget; simpl.
  - rewrite bool_decide_eq_true_2; [done|].
    apply obj_get_Some_keys. by rewrite Hget.
  - rewrite bool_decide_eq_false_2; [done|].
    intros Hin%obj_get_Some_keys. rewrite Hget in Hin. by destruct Hin.
Qed.

End Rewrite.

(** ** Propagation on one document *)

Section Document.

Context (env : Env) (version : string).

Lemma js_get_obj fields k g :
  js_get (VObj fields) k = VObj g → obj_get fields k = Some (VObj g).
Proof. simpl. destruct (obj_get fields k) as [v|]; simpl; [by intros -> | done]. Qed.

Lemma js_get_set_eq fields k v : js_get (VObj (obj_set fields k v)) k = v.
Proof. simpl. by rewrite obj_get_set_eq. Qed.

Lemma js_get_set_ne fields k k' v :
  k ≠ k' → js_get (VObj (obj_set fields k v)) k' = js_get (VObj fields) k'.
Proof. intros. simpl. by rewrite obj_get_set_ne. Qed.

Lemma updateDeps_doc_get_eq pkg depType :
  js_get (updateDeps_doc env pkg depType version) depType = rewritten env version (js_get pkg depType).
Proof.
  unfold updateDeps_doc.
  destruct pkg as [| | | | | |fields]; try done.
  destruct (js_get (VObj fields) depType) as [| | | | | |g] eqn:Hget; rewrite ?Hget; try done.
  by rewrite js_get_set_eq.
Qed.

Lemma updateDeps_doc_get_ne pkg depType k :
  depType ≠ k → js_get (updateDeps_doc env pkg depType version) k = js_get pkg k.
Proof.
  intros Hne. unfold updateDeps_doc.
  destruct pkg as [| | | | | |fields]; try done.
  destruct (js_get (VObj fields) depType) as [| | | | | |g]; try done.
  by rewrite js_get_set_ne.
Qed.

Lemma rewritten_settled v : settled env version (rewritten env version v).
Proof. destruct v; simpl; try done. apply rewrite_deps_idem. Qed.

Lemma updateDeps_doc_settled pkg depType :
  settled env version (js_get pkg depType) → updateDeps_doc env pkg depType version = pkg.
Proof.
  unfold updateDeps_doc.
  destruct pkg as [| | | | | |fields]; try done.
  destruct (js_get (VObj fields) depType) as [| | | | | |g] eqn:Hget; try done.
  simpl. intros ->. f_equal. apply obj_set_same. by apply js_get_obj.
Qed.

Lemma set_version_doc_fixed pkg :
  js_get pkg "version" = VStr version → set_version_doc pkg version = Some pkg.
Proof.
  destruct pkg as [| | | | | |fields]; try done.
  simpl. destruct (obj_get fields "version") as [v|] eqn:Hget; simpl; [|done].
  intros ->. by rewrite obj_set_same.
Qed.

Lemma set_version_doc_version pkg pkg1 :
  set_version_doc pkg version = Some pkg1 →
  pkg1 = pkg ∧ (∀ fields, pkg ≠ VObj fields) ∨ js_get pkg1 "version" = VStr version.
Proof.
  destruct pkg as [| | | | | |fields]; simpl; intros [= <-];
    try (left; split; [done | by intros]).
  right. apply js_get_set_eq.
Qed.

Lemma updateDeps_doc_not_null pkg depType :
  pkg ≠ VNull ∧ pkg ≠ VUndef →
  updateDeps_doc env pkg depType version ≠ VNull ∧
  updateDeps_doc env pkg depType version ≠ VUndef.
Proof.
  intros Hpkg. unfold updateDeps_doc.
  destruct pkg as [| | | | | |fields]; try done.
  by destruct (js_get (VObj fields) depType).
Qed.

Lemma propagate_doc_not_null pkg doc :
  propagate_doc env version pkg = Some doc → doc ≠ VNull ∧ doc ≠ VUndef.
Proof.
  unfold propagate_doc.
  destruct (set_version_doc pkg version) as [pkg1|] eqn:Hset; simpl; [|done].
  intros [= <-]. do 2 apply updateDeps_doc_not_null.
  destruct pkg; simpl in Hset; try done; by injection Hset as <-.
Qed.

(** Propagating into an already propagated document changes nothing. *)
Lemma propagate_doc_idem pkg doc :
  propagate_doc env version pkg = Some doc →
  propagate_doc env version doc = Some doc.
Proof.
  unfold propagate_doc. intros Hdoc.
  destruct (set_version_doc pkg version) as [pkg1|] eqn:Hset; simpl in Hdoc; [|done].
  injection Hdoc as <-.
  set (pkg2 := updateDeps_doc env pkg1 "dependencies" version).
  set (pkg3 := updateDeps_doc env pkg2 "peerDependencies" version).
  assert (settled env version (js_get pkg3 "peerDependencies")) as Hpeer.
  { unfold pkg3. rewrite updateDeps_doc_get_eq. apply rewritten_settled. }
  assert (settled env version (js_get pkg3 "dependencies")) as Hdep.
  { unfold pkg3. rewrite updateDeps_doc_get_ne by done.
    unfold pkg2. rewrite updateDeps_doc_get_eq. apply rewritten_settled. }
  assert (set_version_doc pkg3 version = Some pkg3) as ->.
  { destruct (set_version_doc_version _ _ Hset) as [[-> Hprim]|Hv].
    - assert (pkg3 = pkg) as ->.
      { unfold pkg3, pkg2. destruct pkg as [| | | | | |fields]; try done.
        by destruct (Hprim fields). }
      exact Hset.
    - apply set_version_doc_fixed.
      unfold pkg3, pkg2. by rewrite !updateDeps_doc_get_ne by done. }
  simpl.
  rewrite (updateDeps_doc_settled pkg3 "dependencies") by exact Hdep.
  by rewrite (updateDeps_doc_settled pkg3 "peerDependencies") by exact Hpeer.
Qed.

(** The entries of the two dependency maps after propagation. *)
Lemma propagate_doc_entry pkg doc depType dep :
  depType = "dependencies" ∨ depType = "peerDependencies" →
  propagate_doc env version pkg = Some doc →
  dep_entry doc depType dep
  = if is_release_dep env dep
    then (fun _ => VStr version) <$> dep_entry pkg depType dep
    else dep_entry pkg depType dep.
Proof.
  intros HdepType. unfold propagate_doc. intros Hdoc.
  destruct (set_version_doc pkg version) as [pkg1|] eqn:Hset; simpl in Hdoc; [|done].
  injection Hdoc as <-.
  assert (js_get pkg1 depType = js_get pkg depType) as Hsame.
  { destruct pkg as [| | | | | |fields]; simpl in Hset; simplify_eq; try done.
    apply js_get_set_ne. by destruct HdepType as [-> | ->]. }
  assert (js_get (updateDeps_doc env (updateDeps_doc env pkg1 "dependencies" version)
                    "peerDependencies" version) depType
          = rewritten env version (js_get pkg depType)) as Hget.
  { destruct HdepType as [-> | ->].
    - rewrite updateDeps_doc_get_ne by done. by rewrite updateDeps_doc_get_eq, Hsame.
    - rewrite updateDeps_doc_get_eq, updateDeps_doc_get_ne by done. by rewrite Hsame. }
  unfold dep_entry. rewrite Hget.
  destruct (js_get pkg depType) as [| | | | | |g]; simpl;
    try by destruct (is_release_dep env dep).
  apply rewrite_deps_get.
Qed.

End Document.

(** ** The script computes the propagation *)

Lemma add_events_nil st : add_events st [] = st.
Proof. destruct st. unfold add_events. simpl. by rewrite app_nil_r. Qed.

Lemma add_events_app st evs evs' :
  add_events (add_events st evs) evs' = add_events st (evs ++ evs').
Proof. unfold add_events. simpl. by rewrite app_assoc. Qed.

Lemma emit_run e st : emit e st = (Ok tt, add_events st [e]).
Proof. done. Qed.

Lemma log_run m st : log m st = (Ok tt, add_events st [ELog m]).
Proof. done. Qed.

Lemma step_run msg st : step msg st = (Ok tt, add_events st [ELog (MStep msg)]).
Proof. done. Qed.

Lemma ret_run {A} (a : A) st : ret a st = (Ok a, st).
Proof. done. Qed.

Lemma throw_run {A} e st : @throw A e st = (Throw e, st).
Proof. done. Qed.

Lemma bind_run {A B} (m : M A) (k : A -> M B) st :
  bind m k st = match m st with
                | (Ok a, st') => k a st'
                | (Throw e, st') => (Throw e, st')
                end.
Proof. done. Qed.

Lemma bind_ok {A B} (m : M A) (k : A -> M B) st a st' :
  m st = (Ok a, st') → bind m k st = k a st'.
Proof. intros H. by rewrite bind_run, H. Qed.

Lemma bind_throw {A B} (m : M A) (k : A -> M B) st e st' :
  m st = (Throw e, st') → bind m k st = (Throw e, st').
Proof. intros H. by rewrite bind_run, H. Qed.

Lemma try_catch_run {A} (m : M A) (h : error -> M A) st :
  try_catch m h st = match m st with
                     | (Ok a, st') => (Ok a, st')
                     | (Throw e, st') => h e st'
                     end.
Proof. done. Qed.

Section Propagation.

Context (env : Env) (version : string).

Lemma forEach_rewrite name depType deps current st :
  forEach deps
    (fun dep current =>
       if is_release_dep env dep then
         log (MDepUpdate name depType dep version) ;;
         ret (obj_set current dep (VStr version))
       else ret current)
    current st
  = (Ok (fold_left (rewrite_entry env version) deps current),
     add_events st ((fun dep => ELog (MDepUpdate name depType dep version))
                      <$> List.filter (is_release_dep env) deps)).
Proof.
  revert current st. induction deps as [|dep deps IH]; intros current st; simpl.
  - by rewrite ret_run, add_events_nil.
  - rewrite bind_run. unfold rewrite_entry at 2.
    destruct (is_release_dep env dep) eqn:Hrel; simpl.
    + fold (add_events st [ELog (MDepUpdate name depType dep version)]).
      by rewrite IH, add_events_app.
    + by rewrite IH.
Qed.

Lemma updateDeps_run pkg depType st :
  updateDeps env pkg depType version st
  = (Ok (updateDeps_doc env pkg depType version),
     add_events st (updateDeps_logs env pkg depType version)).
Proof.
  unfold updateDeps, updateDeps_doc, updateDeps_logs.
  destruct pkg as [| | | | | |pkg_fields];
    try (simpl; by rewrite ?ret_run, ?add_events_nil).
  destruct (js_get (VObj pkg_fields) depType) as [| |b|text|s|items|dep_fields];
    try (simpl; by rewrite ?ret_run, ?add_events_nil).
  - destruct b; simpl; by rewrite ?ret_run, ?add_events_nil.
  - simpl. destruct (String.eqb text "0"); simpl; by rewrite ?ret_run, ?add_events_nil.
  - simpl. destruct (String.eqb s ""); simpl; by rewrite ?ret_run, ?add_events_nil.
  - cbn [truthy negb]. rewrite bind_run, forEach_rewrite. by rewrite ret_run.
Qed.

Lemma updatePackage_run pkgRoot st :
  updatePackage env pkgRoot version st
  = match fs st !! manifest_of pkgRoot with
    | None => (Throw (ErrFile (manifest_of pkgRoot)),
               add_events st [ERead (manifest_of pkgRoot)])
    | Some pkg =>
        match propagate_doc env version pkg with
        | None => (Throw (ErrType "Cannot set properties of null"),
                   add_events st [ERead (manifest_of pkgRoot)])
        | Some doc =>
            (Ok tt,
             {| fs := <[manifest_of pkgRoot := doc]> (fs st);
                skippedPackages := skippedPackages st;
                trace := trace st ++ ERead (manifest_of pkgRoot)
                           :: propagate_logs env version pkg
                           ++ [EWrite (manifest_of pkgRoot) doc] |})
        end
    end.
Proof.
  unfold updatePackage, bind, readJSON. fold (add_events st [ERead (manifest_of pkgRoot)]).
  destruct (fs st !! manifest_of pkgRoot) as [pkg|]; [|done].
  unfold propagate_doc, propagate_logs.
  assert (set_version pkg version (add_events st [ERead (manifest_of pkgRoot)])
          = match set_version_doc pkg version with
            | Some pkg1 => (Ok pkg1, add_events st [ERead (manifest_of pkgRoot)])
            | None => (Throw (ErrType "Cannot set properties of null"),
                       add_events st [ERead (manifest_of pkgRoot)])
            end) as -> by (by destruct pkg).
  destruct (set_version_doc pkg version) as [pkg1|]; simpl; [|done].
  rewrite !updateDeps_run, !add_events_app. unfold writeJSON, add_events. simpl.
  do 2 f_equal. by rewrite <- app_assoc.
Qed.

End Propagation.

(** ** Propagation over the files *)

Section Files.

Context (env : Env) (version : string).

Lemma propagate_file_settles path files files' :
  propagate_file env version path files = Some files' →
  settled_file env version path files'.
Proof.
  unfold propagate_file, settled_file.
  destruct (files !! path) as [pkg|]; simpl; [|done].
  destruct (propagate_doc env version pkg) as [doc|] eqn:Hdoc; simpl; [|done].
  intros [= <-]. exists doc. rewrite lookup_insert_eq.
  split; [done|]. by eapply propagate_doc_idem.
Qed.

Lemma settled_file_fixed path files :
  settled_file env version path files →
  propagate_file env version path files = Some files.
Proof.
  intros (doc & Hlook & Hdoc). unfold propagate_file.
  rewrite Hlook. simpl. rewrite Hdoc. simpl. by rewrite insert_id.
Qed.

Lemma propagate_file_keeps_settled path path' files files' :
  settled_file env version path files →
  propagate_file env version path' files = Some files' →
  settled_file env version path files'.
Proof.
  intros Hsettled Hfile. destruct (decide (path' = path)) as [->|Hne].
  - by eapply propagate_file_settles.
  - destruct Hsettled as (doc & Hlook & Hdoc). exists doc. split; [|done].
    revert Hfile. unfold propagate_file.
    destruct (files !! path') as [pkg|]; simpl; [|done].
    destruct (propagate_doc env version pkg) as [doc'|]; simpl; [|done].
    intros [= <-]. by rewrite lookup_insert_ne.
Qed.

Lemma propagate_files_keeps_settled path paths files :
  settled_file env version path files →
  settled_file env version path (propagate_files env version paths files).
Proof.
  revert files. induction paths as [|q paths IH]; intros files Hsettled; simpl; [done|].
  destruct (propagate_file env version q files) as [files'|] eqn:Hfile; [|done].
  apply IH. by eapply propagate_file_keeps_settled.
Qed.

Lemma propagate_files_idem paths files :
  propagate_files env version paths (propagate_files env version paths files)
  = propagate_files env version paths files.
Proof.
  revert files. induction paths as [|q paths IH]; intros files; simpl; [done|].
  destruct (propagate_file env version q files) as [files'|] eqn:Hfile.
  - rewrite settled_file_fixed; [apply IH|].
    apply propagate_files_keeps_settled. by eapply propagate_file_settles.
  - by rewrite Hfile.
Qed.

Lemma propagate_file_lookup path path' files files' :
  propagate_file env version path' files = Some files' →
  files' !! path = if decide (path = path')
                   then files !! path ≫= propagate_doc env version
                   else files !! path.
Proof.
  unfold propagate_file.
  destruct (files !! path') as [pkg|] eqn:Hlook; simpl; [|done].
  destruct (propagate_doc env version pkg) as [doc|] eqn:Hdoc; simpl; [|done].
  intros [= <-]. destruct (decide (path = path')) as [->|Hne].
  - rewrite lookup_insert_eq, Hlook. simpl. by rewrite Hdoc.
  - by rewrite lookup_insert_ne.
Qed.

Lemma propagate_doc_bind_idem (o : option value) :
  (o ≫= propagate_doc env version) ≫= propagate_doc env version
  = o ≫= propagate_doc env version.
Proof.
  destruct o as [pkg|]; simpl; [|done].
  destruct (propagate_doc env version pkg) as [doc|] eqn:Hdoc; simpl; [|done].
  by eapply propagate_doc_idem.
Qed.

(** After a run without exception, every manifest of the run holds the
    propagation of what it held before, and every other file is as before. *)
Lemma propagate_files_lookup path paths files :
  propagates_ok env version paths files →
  propagate_files env version paths files !! path
  = if decide (path ∈ paths)
    then files !! path ≫= propagate_doc env version
    else files !! path.
Proof.
  revert files. induction paths as [|q paths IH]; intros files Hok;
    cbn [propagates_ok propagate_files] in *.
  - case_decide as Hin; [by apply elem_of_nil in Hin | done].
  - destruct (propagate_file env version q files) as [files'|] eqn:Hfile; [|done].
    rewrite IH by done. rewrite !(propagate_file_lookup _ _ _ _ Hfile).
    destruct (decide (path = q)) as [->|Hne].
    + destruct (decide (q ∈ q :: paths)) as [_|Hnin]; [|destruct Hnin; left].
      destruct (decide (q ∈ paths)); [apply propagate_doc_bind_idem | done].
    + destruct (decide (path ∈ paths)) as [Hin|Hnin];
        destruct (decide (path ∈ q :: paths)) as [Hin'|Hnin']; try done.
      * destruct Hnin'. by right.
      * apply elem_of_cons in Hin' as [?|?]; done.
Qed.

Lemma propagates_ok_lookup path paths files :
  propagates_ok env version paths files → path ∈ paths →
  is_Some (files !! path ≫= propagate_doc env version).
Proof.
  revert files. induction paths as [|q paths IH]; intros files Hok Hin; simpl in *.
  - by apply elem_of_nil in Hin.
  - destruct (propagate_file env version q files) as [files'|] eqn:Hfile; [|done].
    destruct (decide (path = q)) as [->|Hne].
    + revert Hfile. unfold propagate_file.
      destruct (files !! q) as [pkg|]; simpl; [|done].
      destruct (propagate_doc env version pkg) as [doc|]; simpl; [eauto|done].
    + apply elem_of_cons in Hin as [?|Hin]; [done|].
      specialize (IH files' Hok Hin).
      rewrite (propagate_file_lookup _ _ _ _ Hfile), decide_False in IH; done.
Qed.

End Files.

(** ** [updateVersions] and the files *)

Section UpdateVersions.

Context (env : Env) (version : string).

Lemma updatePackage_fs pkgRoot st :
  fs (snd (updatePackage env pkgRoot version st))
  = default (fs st) (propagate_file env version (manifest_of pkgRoot) (fs st)).
Proof.
  rewrite updatePackage_run. unfold propagate_file.
  destruct (fs st !! manifest_of pkgRoot) as [pkg|]; simpl; [|done].
  by destruct (propagate_doc env version pkg).
Qed.

Lemma updatePackage_ok pkgRoot st :
  fst (updatePackage env pkgRoot version st) = Ok tt
  ↔ is_Some (propagate_file env version (manifest_of pkgRoot) (fs st)).
Proof.
  rewrite updatePackage_run. unfold propagate_file.
  destruct (fs st !! manifest_of pkgRoot) as [pkg|]; simpl.
  - destruct (propagate_doc env version pkg); simpl; split; try done; by intros [? [=]].
  - split; [done | by intros [? [=]]].
Qed.

Lemma forEach_updatePackage pkgs st :
  let loop := forEach pkgs (fun p _ => updatePackage env (getPkgRoot env p) version) tt in
  let paths := (fun p => manifest_of (getPkgRoot env p)) <$> pkgs in
  fs (snd (loop st)) = propagate_files env version paths (fs st) ∧
  (fst (loop st) = Ok tt ↔ propagates_ok env version paths (fs st)).
Proof.
  revert st. induction pkgs as [|p pkgs IH]; intros st; cbn zeta.
  - done.
  - cbn [forEach fmap list_fmap propagate_files propagates_ok]. rewrite bind_run.
    pose proof (updatePackage_fs (getPkgRoot env p) st) as Hfs.
    pose proof (updatePackage_ok (getPkgRoot env p) st) as Hok.
    destruct (updatePackage env (getPkgRoot env p) version st) as [[[]|e] st'];
      simpl in Hfs, Hok.
    + destruct Hok as [Hok _]. destruct (Hok eq_refl) as [files' Hfile].
      rewrite Hfile in *. simpl in Hfs. subst files'. apply IH.
    + destruct (propagate_file env version _ (fs st)) as [files'|] eqn:Hfile.
      * destruct Hok as [_ Hok]. by discriminate Hok.
      * simpl in *. split; [done|]. split; [done | by intros []].
Qed.

Lemma updateVersions_fs st :
  fs (snd (updateVersions env version st))
  = propagate_files env version (manifests env) (fs st).
Proof.
  unfold updateVersions, manifests. rewrite bind_run. cbn [propagate_files].
  pose proof (updatePackage_fs (dirname env) st) as Hfs.
  pose proof (updatePackage_ok (dirname env) st) as Hok.
  destruct (updatePackage env (dirname env) version st) as [[[]|e] st'];
    simpl in Hfs, Hok.
  - destruct Hok as [Hok _]. destruct (Hok eq_refl) as [files' Hfile].
    rewrite Hfile in *. simpl in Hfs. subst files'.
    apply (forEach_updatePackage (packages env) st').
  - destruct (propagate_file env version _ (fs st)) as [files'|] eqn:Hfile; [|done].
    destruct Hok as [_ Hok]. by discriminate Hok.
Qed.

Lemma updateVersions_ok st :
  fst (updateVersions env version st) = Ok tt
  ↔ propagates_ok env version (manifests env) (fs st).
Proof.
  unfold updateVersions, manifests. rewrite bind_run. cbn [propagates_ok].
  pose proof (updatePackage_fs (dirname env) st) as Hfs.
  pose proof (updatePackage_ok (dirname env) st) as Hok.
  destruct (updatePackage env (dirname env) version st) as [[[]|e] st'];
    simpl in Hfs, Hok.
  - destruct Hok as [Hok _]. destruct (Hok eq_refl) as [files' Hfile].
    rewrite Hfile in *. simpl in Hfs. subst files'.
    apply (forEach_updatePackage (packages env) st').
  - destruct (propagate_file env version _ (fs st)) as [files'|] eqn:Hfile.
    + destruct Hok as [_ Hok]. by discriminate Hok.
    + simpl. split; [done | by intros []].
Qed.

End UpdateVersions.

(** ** Claims about propagation *)

(** C4.  Propagation is idempotent: after [updateVersions(version)] has run,
    running it again with the same version leaves every manifest file as the
    first run left it, whatever the files were and also when a run stops at
    a manifest it cannot read. *)
Theorem updateVersions_idempotent (env : Env) (version : string) (st : state) :
  fs (snd (updateVersions env version (snd (updateVersions env version st))))
  = fs (snd (updateVersions env version st)).
Proof.
  rewrite !updateVersions_fs. apply propagate_files_idem.
Qed.

(** C1, as the code has it.  After a propagation that completes, in the
    manifest of every package of the release set, an entry of [dependencies]
    or [peerDependencies] records the new version exactly when its key passes
    the test of lines 201-202 (the key is [vue], or it starts with [@vue] and
    names a package directory once a leading [@vue/] is removed); every other
    entry is what it was before, and no entry is added or removed. *)
Theorem updateVersions_rewrites_deps (env : Env) (version : string) (st : state)
    (p depType dep : string) :
  p ∈ packages env →
  depType = "dependencies" ∨ depType = "peerDependencies" →
  fst (updateVersions env version st) = Ok tt →
  ∃ pkg doc,
    fs st !! manifest_of (getPkgRoot env p) = Some pkg ∧
    fs (snd (updateVersions env version st)) !! manifest_of (getPkgRoot env p) = Some doc ∧
    dep_entry doc depType dep
    = if is_release_dep env dep
      then (fun _ => VStr version) <$> dep_entry pkg depType dep
      else dep_entry pkg depType dep.
Proof.
  intros Hp HdepType Hok. apply updateVersions_ok in Hok.
  assert (manifest_of (getPkgRoot env p) ∈ manifests env) as Hin.
  { unfold manifests. right.
    apply (list_elem_of_fmap_2 (fun p => manifest_of (getPkgRoot env p))), Hp. }
  destruct (propagates_ok_lookup _ _ _ _ _ Hok Hin) as [doc Hdoc].
  rewrite updateVersions_fs, propagate_files_lookup by done.
  rewrite decide_True by done. rewrite Hdoc.
  destruct (fs st !! manifest_of (getPkgRoot env p)) as [pkg|]; simpl in Hdoc; [|done].
  exists pkg, doc. split; [done|]. split; [done|].
  by apply propagate_doc_entry.
Qed.

Lemma updateVersions_rewrites_deps_witness :
  ∃ pkg doc,
    fs (initial_state demo_files) !! manifest_of (getPkgRoot live_env "reactivity")
    = Some pkg ∧
    fs (snd (updateVersions live_env "1.0.1" (initial_state demo_files)))
      !! manifest_of (getPkgRoot live_env "reactivity") = Some doc ∧
    dep_entry doc "dependencies" "@vue/shared"
    = if is_release_dep live_env "@vue/shared"
      then (fun _ => VStr "1.0.1") <$> dep_entry pkg "dependencies" "@vue/shared"
      else dep_entry pkg "dependencies" "@vue/shared".
Proof.
  apply (updateVersions_rewrites_deps live_env "1.0.1" (initial_state demo_files)
           "reactivity" "dependencies" "@vue/shared").
  - apply list_elem_of_In. vm_compute. auto.
  - left. reflexivity.
  - vm_compute. reflexivity.
Defined.

(** C1 as stated fails on the code.  In a tree whose packages are
    [reactivity] and [shared], the entry [vue] of [reactivity] names no
    package of the release set and is overwritten all the same, and the entry
    [shared] names a package of the release set by its exact name and keeps
    its old version. *)
Lemma updateVersions_deps_counterexample :
  let path := "./packages/reactivity/package.json" in
  let st' := snd (updateVersions live_env "1.0.1" (initial_state demo_files)) in
  packages live_env = ["reactivity"; "shared"] ∧
  ∃ pkg doc,
    demo_files !! path = Some pkg ∧ fs st' !! path = Some doc ∧
    (spec_names_release_package live_env "vue" = false ∧
     dep_entry pkg "dependencies" "vue" = Some (VStr "^2.6.0") ∧
     dep_entry doc "dependencies" "vue" = Some (VStr "1.0.1")) ∧
    (spec_names_release_package live_env "shared" = true ∧
     dep_entry pkg "dependencies" "shared" = Some (VStr "1.0.0") ∧
     dep_entry doc "dependencies" "shared" = Some (VStr "1.0.0")).
Proof.
  split; [reflexivity|].
  eexists _, _. split; [vm_compute; reflexivity|]. split; [vm_compute; reflexivity|].
  vm_compute. repeat split.
Qed.

(** ** The increments offered to the operator *)

(** C6, as the code has it.  The operator is offered [patch], [minor] and
    [major], and also [prepatch], [preminor], [premajor] and [prerelease]
    exactly when a [--preid] option was given (with a truthy value) or the
    current version carries a prerelease identifier; this for a current
    version whose leading prerelease identifier is not the number 0. *)
Theorem versionIncrements_offered (env : Env) :
  (∀ ids, semver_prerelease env = Some ids → truthy (default VUndef (head ids)) = true) →
  versionIncrements env
  = base_increments ++
    (if truthy (preid (args env)) || bool_decide (is_Some (semver_prerelease env))
     then pre_increments else []).
Proof.
  intros Hlead. unfold versionIncrements, preId.
  destruct (truthy (preid (args env))) eqn:Hpreid; simpl.
  - by rewrite Hpreid.
  - destruct (semver_prerelease env) as [ids|] eqn:Hpre.
    + by rewrite (Hlead ids eq_refl).
    + done.
Qed.

Lemma versionIncrements_offered_witness :
  versionIncrements prerelease_env
  = base_increments ++
    (if truthy (preid (args prerelease_env))
        || bool_decide (is_Some (semver_prerelease prerelease_env))
     then pre_increments else []).
Proof.
  apply (versionIncrements_offered prerelease_env).
  intros ids [= <-]. reflexivity.
Defined.

(** C6 as stated fails on the code: with [--preid=beta] the four prerelease
    increments are offered for a current version [1.0.0], which carries no
    prerelease identifier. *)
Lemma versionIncrements_counterexample :
  semver_prerelease beta_env = None ∧
  versionIncrements beta_env = base_increments ++ pre_increments.
Proof. split; reflexivity. Qed.

(** The other direction: the leading identifier of [1.0.0-0] is the number
    0, which is falsy, so nothing more than the three plain increments is
    offered. *)
Example versionIncrements_zero_identifier :
  semver_prerelease zero_env = Some [VNum "0"] ∧
  versionIncrements zero_env = base_increments.
Proof. split; reflexivity. Qed.

(** ** Rules for [emits] *)

Section Emits.

Context {A B : Type} (sk : list string).

Lemma emits_weaken (T T' : list event -> Prop) (m : M A) :
  emits sk T m → (∀ evs, T evs → T' evs) → emits sk T' m.
Proof.
  intros Hm HT st Hsk. destruct (Hm st Hsk) as (evs & ? & ? & ?). eauto.
Qed.

Lemma emits_ret (T : list event -> Prop) (a : A) : T [] → emits sk T (ret a).
Proof.
  intros HT st Hsk. exists []. rewrite ret_run. simpl. by rewrite app_nil_r.
Qed.

Lemma emits_throw (T : list event -> Prop) e : T [] → emits sk T (@throw A e).
Proof.
  intros HT st Hsk. exists []. rewrite throw_run. simpl. by rewrite app_nil_r.
Qed.

Lemma emits_bind (T1 T2 T : list event -> Prop) (m : M A) (k : A -> M B) :
  emits sk T1 m → (∀ a, emits sk T2 (k a)) →
  (∀ evs, T1 evs → T evs) →
  (∀ evs1 evs2, T1 evs1 → T2 evs2 → T (evs1 ++ evs2)) →
  emits sk T (bind m k).
Proof.
  intros Hm Hk Hthrow Hseq st Hsk. rewrite bind_run.
  destruct (Hm st Hsk) as (evs1 & Hsk1 & Htr1 & HT1).
  destruct (m st) as [[a|e] st1]; simpl in *.
  - destruct (Hk a st1 Hsk1) as (evs2 & Hsk2 & Htr2 & HT2).
    exists (evs1 ++ evs2). rewrite Htr2, Htr1, app_assoc. eauto.
  - exists evs1. eauto.
Qed.

Lemma emits_try_catch (T1 T2 T : list event -> Prop) (m : M A) (h : error -> M A) :
  emits sk T1 m → (∀ e, emits sk T2 (h e)) →
  (∀ evs, T1 evs → T evs) →
  (∀ evs1 evs2, T1 evs1 → T2 evs2 → T (evs1 ++ evs2)) →
  emits sk T (try_catch m h).
Proof.
  intros Hm Hh Hok Hseq st Hsk. rewrite try_catch_run.
  destruct (Hm st Hsk) as (evs1 & Hsk1 & Htr1 & HT1).
  destruct (m st) as [[a|e] st1]; simpl in *.
  - exists evs1. eauto.
  - destruct (Hh e st1 Hsk1) as (evs2 & Hsk2 & Htr2 & HT2).
    exists (evs1 ++ evs2). rewrite Htr2, Htr1, app_assoc. eauto.
Qed.

End Emits.

Section EmitsAll.

Context (sk : list string) (P : event -> Prop).

Lemma all_bind {A B} (m : M A) (k : A -> M B) :
  emits sk (Forall P) m → (∀ a, emits sk (Forall P) (k a)) →
  emits sk (Forall P) (bind m k).
Proof.
  intros Hm Hk. eapply emits_bind; [exact Hm | exact Hk | done |].
  intros. by apply Forall_app.
Qed.

Lemma all_try_catch {A} (m : M A) (h : error -> M A) :
  emits sk (Forall P) m → (∀ e, emits sk (Forall P) (h e)) →
  emits sk (Forall P) (try_catch m h).
Proof.
  intros Hm Hh. eapply emits_try_catch; [exact Hm | exact Hh | done |].
  intros. by apply Forall_app.
Qed.

Lemma all_ret {A} (a : A) : emits sk (Forall P) (ret a).
Proof. by apply emits_ret. Qed.

Lemma all_throw {A} e : emits sk (Forall P) (@throw A e).
Proof. by apply emits_throw. Qed.

Lemma all_emit e : P e → emits sk (Forall P) (emit e).
Proof.
  intros He st Hsk. exists [e]. rewrite emit_run. simpl. repeat split; [done|].
  by apply Forall_singleton.
Qed.

Lemma all_log m : P (ELog m) → emits sk (Forall P) (log m).
Proof. apply all_emit. Qed.

Lemma all_forEach {A S} (l : list A) (f : A -> S -> M S) (s : S) :
  (∀ x s, x ∈ l → emits sk (Forall P) (f x s)) →
  emits sk (Forall P) (forEach l f s).
Proof.
  revert s. induction l as [|x l IH]; intros s Hf; simpl.
  - apply all_ret.
  - apply all_bind; [apply Hf; left |].
    intros s'. apply IH. intros y s'' Hy. apply Hf. by right.
Qed.

Lemma all_get_skipped : emits sk (Forall P) get_skipped.
Proof. intros st Hsk. exists []. simpl. by rewrite app_nil_r. Qed.

End EmitsAll.

(** ** The footprint of every stage *)

Section Footprint.

Context (env : Env) (sk : list string).

Lemma footprint_mono w d e : footprint env sk w d e → footprint env sk true true e.
Proof.
  destruct e; simpl; try done.
  - intros [?|(_ & ?)]; [by left | by right].
  - by intros [_ ?].
Qed.

Lemma emits_footprint_mono {A} w d (m : M A) :
  emits sk (Forall (footprint env sk w d)) m →
  emits sk (Forall (footprint env sk true true)) m.
Proof.
  intros Hm. eapply emits_weaken; [exact Hm|].
  intros evs Hevs. eapply Forall_impl; [exact Hevs | apply footprint_mono].
Qed.

Lemma run_trace bin cargs opts st :
  skippedPackages (snd (run env bin cargs opts st)) = skippedPackages st ∧
  trace (snd (run env bin cargs opts st))
  = trace st ++ [EExec bin cargs {| cwd := cwd opts;
                                     stdio := Some (default "inherit" (stdio opts)) |}].
Proof.
  unfold run. destruct (execa env _ _ _ _ _) as [[out|err] fs']; done.
Qed.

Lemma footprint_run w d bin cargs opts :
  footprint env sk w d
    (EExec bin cargs {| cwd := cwd opts; stdio := Some (default "inherit" (stdio opts)) |}) →
  emits sk (Forall (footprint env sk w d)) (run env bin cargs opts).
Proof.
  intros Hfp st Hsk. destruct (run_trace bin cargs opts st) as [Hsk' Htr].
  eexists. split; [by rewrite Hsk'|]. split; [exact Htr|]. by apply Forall_singleton.
Qed.

Lemma footprint_runIfNotDry w d bin cargs opts :
  emits sk (Forall (footprint env sk w d)) (runIfNotDry env bin cargs opts).
Proof.
  unfold runIfNotDry. destruct (truthy (isDryRun env)) eqn:Hdry.
  - unfold dryRun. by apply all_log.
  - apply all_bind; [|intros; apply all_ret].
    apply footprint_run. by left.
Qed.

Lemma footprint_readJSON w d path :
  emits sk (Forall (footprint env sk w d)) (readJSON path).
Proof.
  intros st Hsk. exists [ERead path]. unfold readJSON.
  destruct (fs st !! path); simpl; repeat split; try done; by apply Forall_singleton.
Qed.

Lemma footprint_updatePackage d pkgRoot version :
  manifest_of pkgRoot ∈ manifests env →
  emits sk (Forall (footprint env sk true d)) (updatePackage env pkgRoot version).
Proof.
  intros Hin st Hsk. rewrite updatePackage_run.
  assert (Forall (footprint env sk true d) [ERead (manifest_of pkgRoot)]) as Hread
    by (by apply Forall_singleton).
  destruct (fs st !! manifest_of pkgRoot) as [pkg|]; [|by eexists].
  destruct (propagate_doc env version pkg) as [doc|]; [|by eexists].
  eexists. simpl. split; [done|]. split; [done|].
  apply Forall_cons. split; [done|]. apply Forall_app. split.
  - unfold propagate_logs. destruct (set_version_doc pkg version) as [pkg1|]; [|done].
    apply Forall_app. split; unfold updateDeps_logs;
      repeat match goal with |- context [match ?v with _ => _ end] => destruct v end;
      try done; by apply Forall_fmap, Forall_forall.
  - by apply Forall_singleton.
Qed.

Lemma footprint_updateVersions d version :
  emits sk (Forall (footprint env sk true d)) (updateVersions env version).
Proof.
  unfold updateVersions. apply all_bind.
  - apply footprint_updatePackage. left.
  - intros _. apply all_forEach. intros p [] Hp.
    apply footprint_updatePackage. right.
    by apply (list_elem_of_fmap_2 (fun p => manifest_of (getPkgRoot env p))).
Qed.

Lemma footprint_publish_manifest w d pkgName version pkg :
  emits sk (Forall (footprint env sk w d))
        (publish_manifest env pkgName version (runIfNotDry env) pkg).
Proof.
  assert (emits sk (Forall (footprint env sk w d))
            (if truthy (js_get pkg "private") then ret tt
             else
               step ("Publishing " +:+ pkgName +:+ "...") ;;
               try_catch
                 (runIfNotDry env "yarn"
                    (publish_args version (releaseTag_of env pkgName version))
                    (publish_opts (getPkgRoot env pkgName)) ;;
                  log (MPublished pkgName version))
                 (fun e =>
                    match e with
                    | ErrExec _ _ _ stderr =>
                        if includes stderr "previously published"
                        then log (MAlreadyPublished pkgName)
                        else throw e
                    | _ => throw e
                    end))) as Hbody.
  { destruct (truthy _); [apply all_ret|].
    apply all_bind; [by apply all_log|]. intros _.
    apply all_try_catch.
    - apply all_bind; [apply footprint_runIfNotDry|]. intros _. by apply all_log.
    - intros [| | bin cargs opts stderr | |]; try apply all_throw.
      destruct (includes _ _); [by apply all_log | apply all_throw]. }
  unfold publish_manifest. destruct pkg; first [apply all_throw | exact Hbody].
Qed.

Lemma footprint_publishPackage w d pkgName version :
  emits sk (Forall (footprint env sk w d))
        (publishPackage env pkgName version (runIfNotDry env)).
Proof.
  unfold publishPackage. apply all_bind; [apply all_get_skipped|]. intros skipped.
  destruct (existsb _ skipped); [apply all_ret|].
  apply all_bind; [apply footprint_readJSON|]. intros pkg.
  apply footprint_publish_manifest.
Qed.

Lemma footprint_main_tests w d :
  emits sk (Forall (footprint env sk w d)) (main_tests env).
Proof.
  unfold main_tests. apply all_bind; [by apply all_log|]. intros _.
  destruct (_ && _); by apply all_log.
Qed.

Lemma footprint_main_build w d :
  emits sk (Forall (footprint env sk w d)) (main_build env).
Proof.
  unfold main_build. apply all_bind; [by apply all_log|]. intros _.
  destruct (negb (truthy (skipBuild env))); simpl; [|by apply all_log].
  destruct (truthy (isDryRun env)) eqn:Hdry; simpl; [by apply all_log|].
  apply all_bind; [apply footprint_run; by left|]. intros _.
  apply all_bind; [by apply all_log|]. intros _. by apply all_log.
Qed.

Lemma footprint_main_commit w version :
  emits sk (Forall (footprint env sk w true)) (main_commit env version).
Proof.
  unfold main_commit. apply all_bind.
  - apply footprint_run. by right.
  - intros stdout. destruct (negb _); [|by apply all_log].
    apply all_bind; [by apply all_log|]. intros _.
    apply all_bind; [apply footprint_runIfNotDry|]. intros _.
    apply footprint_runIfNotDry.
Qed.

Lemma footprint_main_publish w d version pkgs :
  emits sk (Forall (footprint env sk w d)) (main_publish env version pkgs).
Proof.
  unfold main_publish. apply all_forEach. intros pkg [] _.
  apply footprint_publishPackage.
Qed.

Lemma footprint_main_push w d version :
  emits sk (Forall (footprint env sk w d)) (main_push env version).
Proof.
  unfold main_push. apply all_bind; [by apply all_log|]. intros _.
  apply all_bind; [apply footprint_runIfNotDry|]. intros _.
  apply all_bind; [apply footprint_runIfNotDry|]. intros _.
  apply footprint_runIfNotDry.
Qed.

Lemma footprint_main_summary w d :
  emits sk (Forall (footprint env sk w d)) (main_summary env).
Proof.
  unfold main_summary. apply all_bind.
  { destruct (truthy _); [by apply all_log | apply all_ret]. }
  intros _. intros st Hsk. rewrite bind_run. simpl. rewrite Hsk.
  destruct sk as [|pkg sk'] eqn:Hsk'.
  - rewrite bind_run, ret_run, log_run. exists [ELog MBlank]. simpl.
    repeat split; [done|]. by apply Forall_singleton.
  - rewrite bind_run, log_run, log_run. simpl.
    exists [ELog (MSkippedSummary (pkg :: sk')); ELog MBlank]. simpl.
    rewrite <- app_assoc. repeat split; [done|].
    apply Forall_cons. split; [done|]. by apply Forall_singleton.
Qed.

Lemma footprint_main_release version :
  emits sk (Forall (footprint env sk true true)) (main_release env version).
Proof.
  unfold main_release.
  apply all_bind; [apply footprint_main_tests|]. intros _.
  apply all_bind; [by apply all_log|]. intros _.
  apply all_bind; [apply footprint_updateVersions|]. intros _.
  apply all_bind; [apply footprint_main_build|]. intros _.
  apply all_bind; [apply footprint_main_commit|]. intros _.
  apply all_bind; [by apply all_log|]. intros _.
  apply all_bind; [apply footprint_main_publish|]. intros _.
  apply all_bind; [apply footprint_main_push|]. intros _.
  apply footprint_main_summary.
Qed.

Lemma footprint_prompt_select w d choices :
  emits sk (Forall (footprint env sk w d)) (prompt_select env choices).
Proof.
  intros st Hsk. exists [EPrompt (PSelect choices)]. unfold prompt_select.
  destruct (answer_select env _ _); simpl; repeat split; try done; by apply Forall_singleton.
Qed.

Lemma footprint_prompt_input w d initial :
  emits sk (Forall (footprint env sk w d)) (prompt_input env initial).
Proof.
  intros st Hsk. exists [EPrompt (PInput initial)]. unfold prompt_input.
  destruct (answer_input env _ _); simpl; repeat split; try done; by apply Forall_singleton.
Qed.

Lemma footprint_prompt_confirm w d version :
  emits sk (Forall (footprint env sk w d)) (prompt_confirm env version).
Proof.
  intros st Hsk. exists [EPrompt (PConfirm version)]. unfold prompt_confirm.
  destruct (answer_confirm env _ _); simpl; repeat split; try done; by apply Forall_singleton.
Qed.

Lemma footprint_resolve_target w d :
  emits sk (Forall (footprint env sk w d)) (resolve_target env).
Proof.
  unfold resolve_target. destruct (truthy _); [apply all_ret|].
  apply all_bind; [apply footprint_prompt_select|]. intros release.
  destruct (String.eqb release "custom").
  - apply all_bind; [apply footprint_prompt_input|]. intros ?. apply all_ret.
  - destruct (match_parens release); [apply all_ret | apply all_throw].
Qed.

Lemma footprint_main :
  emits sk (Forall (footprint env sk true true)) (main env).
Proof.
  unfold main. apply all_bind; [apply footprint_resolve_target|]. intros targetVersion.
  destruct targetVersion as [| | | |version| |]; try apply all_throw.
  destruct (semver_valid env version); [|apply all_throw].
  apply all_bind; [apply footprint_prompt_confirm|]. intros yes.
  destruct (negb yes); [apply all_ret | apply footprint_main_release].
Qed.

Lemma footprint_program :
  emits sk (Forall (footprint env sk true true)) (program env).
Proof.
  unfold program. apply all_try_catch; [apply footprint_main|].
  intros e. by apply all_emit.
Qed.

End Footprint.

(** ** The entry point *)

(** C9.  Whatever the input and whatever a stage throws (an invalid version,
    a failed build, a failed publish, a failed tag or push, a cancelled
    prompt, an unreadable manifest), the entry point ends normally: the
    exception is caught, printed with [console.error] as the last thing the
    program does, and the process exits with code zero. *)
Theorem program_never_throws (env : Env) (st : state) :
  fst (program env st) = Ok tt ∧
  exit_code (fst (program env st)) = 0 ∧
  (∀ e, fst (main env st) = Throw e →
        snd (program env st) = add_events (snd (main env st)) [EError e]) ∧
  (fst (main env st) = Ok tt → snd (program env st) = snd (main env st)).
Proof.
  unfold program. rewrite try_catch_run.
  destruct (main env st) as [[[]|e] st']; simpl.
  - split; [done|]. split; [done|]. split; [by intros | done].
  - split; [done|]. split; [done|].
    split; [by intros ? [= ->] | done].
Qed.

(** An invalid version on the command line is reported and nothing else
    happens. *)
Example program_invalid_version :
  program (demo_env (demo_cli (VStr "1.2") VUndef VUndef)) (initial_state demo_files)
  = (Ok tt, add_events (initial_state demo_files)
                       [EError (ErrInvalidVersion (VStr "1.2"))]).
Proof. reflexivity. Qed.

(** ** The skip list *)

Lemma publishPackage_reads (env : Env) (pkg version : string) (st : state) :
  existsb (String.eqb pkg) (skippedPackages st) = false →
  ∃ evs, trace (snd (publishPackage env pkg version (runIfNotDry env) st))
         = trace st ++ ERead (manifest_of (getPkgRoot env pkg)) :: evs.
Proof.
  intros Hskip. unfold publishPackage. rewrite bind_run.
  unfold get_skipped at 1. rewrite Hskip, bind_run. unfold readJSON at 1.
  fold (add_events st [ERead (manifest_of (getPkgRoot env pkg))]).
  destruct (fs st !! manifest_of (getPkgRoot env pkg)) as [doc|]; [|by exists []].
  destruct (footprint_publish_manifest env (skippedPackages st) true true pkg version doc
              (add_events st [ERead (manifest_of (getPkgRoot env pkg))]) eq_refl)
    as (evs & _ & Htr & _).
  exists evs. rewrite Htr. simpl. by rewrite <- app_assoc.
Qed.

(** C10.  The list of skipped packages is empty when the module is loaded
    and no operation changes it: it is empty at the end of every run, the
    test at the head of [publishPackage] never returns early (the function
    goes on to read the manifest), and the closing summary of skipped
    packages is never printed. *)
Theorem skippedPackages_stays_empty (env : Env) (files : gmap string value) :
  skippedPackages (initial_state files) = [] ∧
  (∀ st, skippedPackages (snd (program env st)) = skippedPackages st) ∧
  (∀ version pkgs st,
     skippedPackages (snd (main_publish env version pkgs st)) = skippedPackages st) ∧
  (∀ pkg version st, skippedPackages st = [] →
     ∃ evs, trace (snd (publishPackage env pkg version (runIfNotDry env) st))
            = trace st ++ ERead (manifest_of (getPkgRoot env pkg)) :: evs) ∧
  (∀ pkgs, ELog (MSkippedSummary pkgs) ∉ trace (snd (program env (initial_state files)))).
Proof.
  split; [done|]. split; [|split; [|split]].
  - intros st. by destruct (footprint_program env _ st eq_refl) as (evs & -> & _).
  - intros version pkgs st.
    by destruct (footprint_main_publish env _ true true version pkgs st eq_refl)
      as (evs & -> & _).
  - intros pkg version st Hsk. apply publishPackage_reads. by rewrite Hsk.
  - intros pkgs Hin.
    destruct (footprint_program env [] (initial_state files) eq_refl)
      as (evs & _ & Htr & Hfp).
    rewrite Htr in Hin. simpl in Hin.
    rewrite Forall_forall in Hfp. by apply (Hfp _ Hin).
Qed.

(** ** The test stage *)

Lemma main_tests_run (env : Env) (st : state) :
  main_tests env st
  = (Ok tt,
     add_events st
       [ELog (MStep (nl +:+ "Running tests..."));
        ELog (if negb (truthy (skipTests env)) && negb (truthy (isDryRun env))
              then MNoTests else MSkipped)]).
Proof.
  unfold main_tests, step. rewrite bind_run, log_run.
  destruct (_ && _); by rewrite log_run, add_events_app.
Qed.

(** C5, as the code has it.  The test stage runs no command in any mode:
    its two commands are commented out in the source.  When tests are not
    skipped and the run is live it prints that there are no unit tests,
    otherwise that the stage is skipped; it never fails, so the pipeline
    always goes on to propagation. *)
Theorem main_tests_runs_nothing (env : Env) (st : state) :
  main_tests env st
  = (Ok tt,
     add_events st
       [ELog (MStep (nl +:+ "Running tests..."));
        ELog (if negb (truthy (skipTests env)) && negb (truthy (isDryRun env))
              then MNoTests else MSkipped)]) ∧
  executed (drop (length (trace st)) (trace (snd (main_tests env st)))) = [].
Proof.
  rewrite main_tests_run.
  split; [done|]. simpl. rewrite drop_app_length. by destruct (_ && _).
Qed.

(** C5 as stated fails on the code: in a live run with tests not skipped,
    the test stage starts no subprocess, and no command of the whole run is a
    test command. *)
Lemma test_gate_counterexample :
  truthy (skipTests live_env) = false ∧
  truthy (isDryRun live_env) = false ∧
  executed (trace (snd (main_tests live_env (initial_state demo_files)))) = [] ∧
  executed (trace (snd (program live_env (initial_state demo_files))))
  = [EExec "yarn" (strs ["build"; "--release"]) inherit_opts;
     EExec "git" (strs ["diff"]) git_diff_merged;
     EExec "git" (strs ["add"; "-A"]) inherit_opts;
     EExec "git" (strs ["commit"; "-m"; "release: v1.0.1"]) inherit_opts;
     EExec "yarn" (strs ["publish"; "--new-version"; "1.0.1"; "--access"; "public"])
           {| cwd := Some "./packages/reactivity"; stdio := Some "pipe" |};
     EExec "yarn" (strs ["publish"; "--new-version"; "1.0.1"; "--access"; "public"])
           {| cwd := Some "./packages/shared"; stdio := Some "pipe" |};
     EExec "git" (strs ["tag"; "v1.0.1"]) inherit_opts;
     EExec "git" (strs ["push"; "origin"; "refs/tags/v1.0.1"]) inherit_opts;
     EExec "git" (strs ["push"]) inherit_opts].
Proof. repeat split; vm_compute; reflexivity. Qed.

(** ** The commit stage *)

Lemma runIfNotDry_dry (env : Env) (bin : string) (cargs : list value)
    (opts : options) (st : state) :
  truthy (isDryRun env) = true →
  runIfNotDry env bin cargs opts st
  = (Ok tt, add_events st [ELog (MDryRun bin cargs opts)]).
Proof. intros Hdry. unfold runIfNotDry. rewrite Hdry. unfold dryRun. by rewrite log_run. Qed.

Lemma runIfNotDry_live (env : Env) (bin : string) (cargs : list value)
    (opts : options) (st : state) :
  truthy (isDryRun env) = false →
  runIfNotDry env bin cargs opts st
  = let merged := {| cwd := cwd opts; stdio := Some (default "inherit" (stdio opts)) |} in
    let st' := {| fs := snd (execa env (trace st) (fs st) bin cargs merged);
                  skippedPackages := skippedPackages st;
                  trace := trace st ++ [EExec bin cargs merged] |} in
    match fst (execa env (trace st) (fs st) bin cargs merged) with
    | Exited _ => (Ok tt, st')
    | Failed stderr => (Throw (ErrExec bin cargs merged stderr), st')
    end.
Proof.
  intros Hlive. unfold runIfNotDry. rewrite Hlive, bind_run. unfold run.
  by destruct (execa env (trace st) (fs st) bin cargs _) as [[out|err] files'].
Qed.

(** C7.  The commit stage always runs [git diff] for real and decides on its
    output alone, in dry-run as in a live run.  When [git diff] fails nothing
    follows and the stage fails.  When its output is empty the stage prints
    that there is nothing to commit, neither starts nor prints a staging or
    commit command, and succeeds.  When its output is not empty the stage
    announces the commit and then: in dry-run, prints [git add -A] and
    [git commit -m "release: v<version>"] without starting either, and
    succeeds; in a live run, really starts [git add -A] and, once that has
    exited normally, really starts [git commit -m "release: v<version>"],
    succeeding exactly when the commit exits normally (a failing [git add]
    fails the stage before any commit). *)
Theorem main_commit_decides (env : Env) (version : string) (st : state) :
  let diff := EExec "git" (strs ["diff"]) git_diff_merged in
  let announce := ELog (MStep (nl +:+ "Committing changes...")) in
  let add_args := strs ["add"; "-A"] in
  let commit_args := strs ["commit"; "-m"; "release: v" +:+ version] in
  ∃ evs,
    trace (snd (main_commit env version st)) = trace st ++ diff :: evs ∧
    match execa env (trace st) (fs st) "git" (strs ["diff"]) git_diff_merged with
    | (Failed stderr, _) =>
        evs = [] ∧
        fst (main_commit env version st)
        = Throw (ErrExec "git" (strs ["diff"]) git_diff_merged stderr)
    | (Exited stdout, files1) =>
        if String.eqb stdout ""
        then evs = [ELog MNoChanges] ∧ fst (main_commit env version st) = Ok tt
        else if truthy (isDryRun env)
        then evs = [announce; ELog (MDryRun "git" add_args no_opts);
                    ELog (MDryRun "git" commit_args no_opts)] ∧
             fst (main_commit env version st) = Ok tt
        else
          match execa env (trace st ++ [diff; announce]) files1
                  "git" add_args inherit_opts with
          | (Failed stderr, _) =>
              evs = [announce; EExec "git" add_args inherit_opts] ∧
              fst (main_commit env version st)
              = Throw (ErrExec "git" add_args inherit_opts stderr)
          | (Exited _, files2) =>
              evs = [announce; EExec "git" add_args inherit_opts;
                     EExec "git" commit_args inherit_opts] ∧
              fst (main_commit env version st)
              = match fst (execa env
                             (trace st ++ [diff; announce;
                                           EExec "git" add_args inherit_opts])
                             files2 "git" commit_args inherit_opts) with
                | Exited _ => Ok tt
                | Failed stderr =>
                    Throw (ErrExec "git" commit_args inherit_opts stderr)
                end
          end
    end.
Proof.
  intros diff announce add_args commit_args.
  assert (run env "git" (strs ["diff"]) git_diff_opts st
          = let '(r, files') :=
              execa env (trace st) (fs st) "git" (strs ["diff"]) git_diff_merged in
            let st1 := {| fs := files'; skippedPackages := skippedPackages st;
                          trace := trace st ++ [diff] |} in
            match r with
            | Exited stdout => (Ok stdout, st1)
            | Failed stderr =>
                (Throw (ErrExec "git" (strs ["diff"]) git_diff_merged stderr), st1)
            end) as Hrun by done.
  unfold main_commit. rewrite bind_run, Hrun. clear Hrun.
  destruct (execa env (trace st) (fs st) "git" (strs ["diff"]) git_diff_merged)
    as [[stdout|stderr] files1] eqn:Hdiff; cbn [fst snd]; [|by exists []].
  set (st1 := {| fs := files1; skippedPackages := skippedPackages st;
                 trace := trace st ++ [diff] |}).
  destruct (String.eqb stdout ""); cbn [negb].
  { exists [ELog MNoChanges]. rewrite log_run. simpl. by rewrite <- app_assoc. }
  unfold step. rewrite bind_run, log_run, bind_run. fold announce add_args commit_args.
  set (st2 := add_events st1 [announce]).
  assert (trace st2 = trace st ++ [diff; announce]) as Htr2
    by (simpl; by rewrite <- app_assoc).
  destruct (truthy (isDryRun env)) eqn:Hmode.
  - rewrite !runIfNotDry_dry by done.
    eexists. split; [|done]. simpl. by rewrite <- !app_assoc.
  - rewrite (runIfNotDry_live env "git" add_args no_opts st2 Hmode).
    change {| cwd := cwd no_opts; stdio := Some (default "inherit" (stdio no_opts)) |}
      with inherit_opts.
    cbn zeta. rewrite Htr2. change (fs st2) with files1.
    destruct (execa env (trace st ++ [diff; announce]) files1 "git" add_args inherit_opts)
      as [[out|err] files2] eqn:Hadd; cbn [fst snd].
    + rewrite (runIfNotDry_live env "git" commit_args no_opts _ Hmode).
      change {| cwd := cwd no_opts; stdio := Some (default "inherit" (stdio no_opts)) |}
        with inherit_opts.
      cbn zeta. cbn [trace fs].
      replace ((trace st ++ [diff; announce]) ++ [EExec "git" add_args inherit_opts])
        with (trace st ++ [diff; announce; EExec "git" add_args inherit_opts])
        by (by rewrite <- app_assoc).
      eexists. split.
      2: { split; [reflexivity|].
           by destruct (fst (execa env _ files2 "git" commit_args inherit_opts)). }
      destruct (fst (execa env _ files2 "git" commit_args inherit_opts));
        simpl; by rewrite <- !app_assoc.
    + eexists. split; [|done]. simpl. by rewrite <- !app_assoc.
Qed.

(** ** Publishing *)

Lemma forEach_app {A S} (l1 l2 : list A) (f : A -> S -> M S) (s : S) (st : state) :
  forEach (l1 ++ l2) f s st = (s' <- forEach l1 f s ;; forEach l2 f s') st.
Proof.
  revert s st. induction l1 as [|x l1 IH]; intros s st; simpl.
  - by rewrite bind_run, ret_run.
  - rewrite !bind_run. destruct (f x s st) as [[s'|e] st']; [|done].
    by rewrite IH, bind_run.
Qed.

Section PublishFailure.

Context (env : Env) (version pkg : string) (st : state).
Context (doc : value) (stderr : string) (files' : gmap string value).

Hypothesis live : truthy (isDryRun env) = false.
Hypothesis not_skipped : existsb (String.eqb pkg) (skippedPackages st) = false.
Hypothesis manifest : fs st !! manifest_of (getPkgRoot env pkg) = Some doc.
Hypothesis not_null : doc ≠ VNull ∧ doc ≠ VUndef.
Hypothesis public : truthy (js_get doc "private") = false.
Hypothesis fails :
  execa env
    (trace st ++ [ERead (manifest_of (getPkgRoot env pkg));
                  ELog (MStep ("Publishing " +:+ pkg +:+ "..."))])
    (fs st) "yarn" (publish_args version (releaseTag_of env pkg version))
    (publish_opts (getPkgRoot env pkg))
  = (Failed stderr, files').

Lemma publishPackage_failed :
  publishPackage env pkg version (runIfNotDry env) st
  = if includes stderr "previously published"
    then (Ok tt, add_events (publish_failed_state env pkg version files' st)
                            [ELog (MAlreadyPublished pkg)])
    else (Throw (ErrExec "yarn" (publish_args version (releaseTag_of env pkg version))
                         (publish_opts (getPkgRoot env pkg)) stderr),
          publish_failed_state env pkg version files' st).
Proof.
  unfold publishPackage. rewrite bind_run. unfold get_skipped at 1.
  rewrite not_skipped, bind_run. unfold readJSON at 1. rewrite manifest.
  fold (add_events st [ERead (manifest_of (getPkgRoot env pkg))]).
  assert (publish_manifest env pkg version (runIfNotDry env) doc
          = (step ("Publishing " +:+ pkg +:+ "...") ;;
             try_catch
               (runIfNotDry env "yarn"
                  (publish_args version (releaseTag_of env pkg version))
                  (publish_opts (getPkgRoot env pkg)) ;;
                log (MPublished pkg version))
               (fun e =>
                  match e with
                  | ErrExec _ _ _ stderr =>
                      if includes stderr "previously published"
                      then log (MAlreadyPublished pkg)
                      else throw e
                  | _ => throw e
                  end))) as ->.
  { unfold publish_manifest. rewrite public. destruct not_null. by destruct doc. }
  unfold step. rewrite bind_run, log_run, add_events_app, try_catch_run, bind_run.
  unfold runIfNotDry. rewrite live, bind_run. unfold run.
  cbn [add_events trace fs app]. change (publish_opts (getPkgRoot env pkg))
    with {| cwd := cwd (publish_opts (getPkgRoot env pkg));
            stdio := Some (default "inherit" (stdio (publish_opts (getPkgRoot env pkg)))) |}
    in fails.
  rewrite fails. unfold publish_failed_state.
  destruct (includes stderr "previously published").
  - rewrite log_run. unfold add_events. simpl. by rewrite <- !app_assoc.
  - rewrite throw_run. simpl. by rewrite <- !app_assoc.
Qed.

End PublishFailure.

(** C3.  In a live run, when the publish command of the Nth package fails,
    the pipeline goes on according to the error text.  If the text says the
    version was previously published, a warning is printed and the run
    continues exactly as the rest of the pipeline runs from there (packages
    N+1 to the end, then tag, push and summary).  Any other failure ends the
    pipeline with that error, in the state the failed command left: no
    further package is published and no later stage runs. *)
Theorem publish_failure_policy (env : Env) (version : string)
    (done_pkgs : list string) (pkg : string) (rest : list string)
    (st st1 : state) (doc : value) (stderr : string) (files' : gmap string value) :
  truthy (isDryRun env) = false →
  main_publish env version done_pkgs st = (Ok tt, st1) →
  existsb (String.eqb pkg) (skippedPackages st1) = false →
  fs st1 !! manifest_of (getPkgRoot env pkg) = Some doc →
  doc ≠ VNull ∧ doc ≠ VUndef →
  truthy (js_get doc "private") = false →
  execa env
    (trace st1 ++ [ERead (manifest_of (getPkgRoot env pkg));
                   ELog (MStep ("Publishing " +:+ pkg +:+ "..."))])
    (fs st1) "yarn" (publish_args version (releaseTag_of env pkg version))
    (publish_opts (getPkgRoot env pkg))
  = (Failed stderr, files') →
  (main_publish env version (done_pkgs ++ pkg :: rest) ;;
   main_push env version ;; main_summary env) st
  = if includes stderr "previously published"
    then (main_publish env version rest ;; main_push env version ;; main_summary env)
           (add_events (publish_failed_state env pkg version files' st1)
                       [ELog (MAlreadyPublished pkg)])
    else (Throw (ErrExec "yarn" (publish_args version (releaseTag_of env pkg version))
                         (publish_opts (getPkgRoot env pkg)) stderr),
          publish_failed_state env pkg version files' st1).
Proof.
  intros Hlive Hdone Hskip Hdoc Hnull Hpublic Hfails.
  rewrite bind_run. unfold main_publish at 1. rewrite forEach_app, bind_run.
  fold (main_publish env version done_pkgs). rewrite Hdone.
  cbn [forEach]. rewrite bind_run.
  rewrite (publishPackage_failed env version pkg st1 doc stderr files') by done.
  destruct (includes stderr "previously published"); [|done].
  by rewrite bind_run.
Qed.

Lemma publish_failure_policy_witness :
  (main_publish live_env "1.0.1" ([] ++ "reactivity" :: ["shared"]) ;;
   main_push live_env "1.0.1" ;; main_summary live_env) (initial_state demo_files)
  = if includes "error You cannot publish over the previously published versions: 1.0.1."
                "previously published"
    then (main_publish live_env "1.0.1" ["shared"] ;;
          main_push live_env "1.0.1" ;; main_summary live_env)
           (add_events
              (publish_failed_state live_env "reactivity" "1.0.1" demo_files
                                    (initial_state demo_files))
              [ELog (MAlreadyPublished "reactivity")])
    else (Throw (ErrExec "yarn"
                   (publish_args "1.0.1" (releaseTag_of live_env "reactivity" "1.0.1"))
                   (publish_opts (getPkgRoot live_env "reactivity"))
                   "error You cannot publish over the previously published versions: 1.0.1."),
          publish_failed_state live_env "reactivity" "1.0.1" demo_files
                               (initial_state demo_files)).
Proof.
  apply (publish_failure_policy live_env "1.0.1" [] "reactivity" ["shared"]
           (initial_state demo_files) (initial_state demo_files)
           (demo_manifest "reactivity" reactivity_deps)
           "error You cannot publish over the previously published versions: 1.0.1."
           demo_files).
  - reflexivity.
  - reflexivity.
  - reflexivity.
  - vm_compute. reflexivity.
  - split; discriminate.
  - reflexivity.
  - reflexivity.
Defined.

(** A refused publish ends the run: the first package is tried, the second
    is not, and nothing is tagged or pushed; the error is printed. *)
Example publish_refused :
  let st' := snd (program auth_env (initial_state demo_files)) in
  executed (trace st')
  = [EExec "yarn" (strs ["build"; "--release"]) inherit_opts;
     EExec "git" (strs ["diff"]) git_diff_merged;
     EExec "git" (strs ["add"; "-A"]) inherit_opts;
     EExec "git" (strs ["commit"; "-m"; "release: v1.0.1"]) inherit_opts;
     EExec "yarn" (strs ["publish"; "--new-version"; "1.0.1"; "--access"; "public"])
           {| cwd := Some "./packages/reactivity"; stdio := Some "pipe" |}] ∧
  last (trace st')
  = Some (EError (ErrExec "yarn"
                    (strs ["publish"; "--new-version"; "1.0.1"; "--access"; "public"])
                    {| cwd := Some "./packages/reactivity"; stdio := Some "pipe" |}
                    "error Couldn't publish package: ENEEDAUTH")).
Proof. split; vm_compute; reflexivity. Qed.

(** ** Manifest paths *)

Lemma append_length (a b : string) :
  String.length (a +:+ b) = String.length a + String.length b.
Proof. induction a as [|c a IH]; simpl; [done | by rewrite IH]. Qed.

Lemma append_suffix_inj (s a b : string) : a +:+ s = b +:+ s → a = b.
Proof.
  revert b. induction a as [|c a IH]; intros [|c' b] Heq; simpl in Heq.
  - done.
  - apply (f_equal String.length) in Heq. rewrite !append_length in Heq.
    simpl in Heq. lia.
  - apply (f_equal String.length) in Heq. rewrite !append_length in Heq.
    simpl in Heq. lia.
  - injection Heq as -> Heq. f_equal. by apply IH.
Qed.

Lemma manifest_of_inj (a b : string) : manifest_of a = manifest_of b → a = b.
Proof. apply append_suffix_inj. Qed.

Lemma getPkgRoot_inj (env : Env) (p q : string) :
  getPkgRoot env p = getPkgRoot env q → p = q.
Proof.
  unfold getPkgRoot. intros Heq.
  apply String.app_inj in Heq. by apply String.app_inj in Heq.
Qed.

Lemma root_is_no_package (env : Env) (p : string) :
  manifest_of (dirname env) ≠ manifest_of (getPkgRoot env p).
Proof.
  intros Heq%manifest_of_inj. unfold getPkgRoot in Heq.
  apply (f_equal String.length) in Heq. rewrite append_length in Heq.
  simpl in Heq. lia.
Qed.

Lemma NoDup_packages (env : Env) : NoDup (dirEntries env) → NoDup (packages env).
Proof. rewrite !NoDup_ListNoDup. apply List.NoDup_filter. Qed.

Lemma NoDup_manifests (env : Env) : NoDup (dirEntries env) → NoDup (manifests env).
Proof.
  intros Hnd%NoDup_packages. unfold manifests. apply NoDup_cons. split.
  - intros (p & Heq & _)%list_elem_of_fmap. by apply root_is_no_package in Heq.
  - apply NoDup_fmap_2; [|done].
    intros p q Heq%manifest_of_inj. by apply getPkgRoot_inj in Heq.
Qed.

(** ** Counting writes and subprocesses *)

Lemma count_writes_app path evs evs' :
  count_writes path (evs ++ evs') = count_writes path evs + count_writes path evs'.
Proof. unfold count_writes. by rewrite List.filter_app, length_app. Qed.

Lemma executed_app evs evs' : executed (evs ++ evs') = executed evs ++ executed evs'.
Proof. apply List.filter_app. Qed.

Lemma footprint_no_write env sk d path evs :
  Forall (footprint env sk false d) evs → count_writes path evs = 0.
Proof.
  induction 1 as [|e evs He _ IH]; [done|].
  change (e :: evs) with ([e] ++ evs). rewrite count_writes_app, IH.
  destruct e; try done. by destruct He.
Qed.

Lemma footprint_no_exec env sk w evs :
  truthy (isDryRun env) = true →
  Forall (footprint env sk w false) evs → executed evs = [].
Proof.
  intros Hdry. induction 1 as [|e evs He _ IH]; [done|].
  change (e :: evs) with ([e] ++ evs). rewrite executed_app, IH.
  destruct e; try done. simpl in He. rewrite Hdry in He.
  by destruct He as [?|[? _]].
Qed.

Lemma propagate_logs_footprint env sk w d version pkg :
  Forall (footprint env sk w d) (propagate_logs env version pkg).
Proof.
  unfold propagate_logs. destruct (set_version_doc pkg version) as [pkg1|]; [|done].
  apply Forall_app. split; unfold updateDeps_logs;
    repeat match goal with |- context [match ?v with _ => _ end] => destruct v end;
    try done; by apply Forall_fmap, Forall_forall.
Qed.

Section Writes.

Context (env : Env) (version path : string).

Lemma updatePackage_writes pkgRoot st :
  ∃ evs,
    trace (snd (updatePackage env pkgRoot version st)) = trace st ++ evs ∧
    count_writes path evs
    = match fst (updatePackage env pkgRoot version st) with
      | Ok _ => if String.eqb (manifest_of pkgRoot) path then 1 else 0
      | Throw _ => 0
      end.
Proof.
  rewrite updatePackage_run.
  destruct (fs st !! manifest_of pkgRoot) as [pkg|]; [|by eexists].
  destruct (propagate_doc env version pkg) as [doc|]; [|by eexists].
  eexists. split; [done|]. cbn [fst].
  change (ERead (manifest_of pkgRoot) :: ?l) with ([ERead (manifest_of pkgRoot)] ++ l).
  rewrite !count_writes_app.
  rewrite (footprint_no_write env [] false path (propagate_logs env version pkg))
    by apply propagate_logs_footprint.
  unfold count_writes. simpl. by destruct (String.eqb (manifest_of pkgRoot) path).
Qed.

Lemma forEach_updatePackage_writes pkgs st :
  let loop := forEach pkgs (fun p _ => updatePackage env (getPkgRoot env p) version) tt in
  let paths := (fun p => manifest_of (getPkgRoot env p)) <$> pkgs in
  NoDup paths →
  ∃ evs,
    trace (snd (loop st)) = trace st ++ evs ∧
    (count_writes path evs ≤ 1)%nat ∧
    (path ∉ paths → count_writes path evs = 0) ∧
    (fst (loop st) = Ok tt → path ∈ paths → count_writes path evs = 1).
Proof.
  revert st. induction pkgs as [|p pkgs IH]; intros st; cbn zeta.
  - intros _. exists []. simpl. rewrite app_nil_r.
    split; [done|]. split; [unfold count_writes; simpl; lia|].
    split; [done|]. by intros _ ?%elem_of_nil.
  - cbn [forEach fmap list_fmap]. intros [Hfresh Hnd]%NoDup_cons. rewrite bind_run.
    destruct (updatePackage_writes (getPkgRoot env p) st) as (evs1 & Htr1 & Hcount1).
    destruct (updatePackage env (getPkgRoot env p) version st) as [[[]|e] st1];
      cbn [fst snd] in *.
    + destruct (IH st1 Hnd) as (evs2 & Htr2 & Hle2 & Hout2 & Hin2).
      exists (evs1 ++ evs2). rewrite Htr2, Htr1, app_assoc, count_writes_app, Hcount1.
      split; [done|].
      destruct (String.eqb_spec (manifest_of (getPkgRoot env p)) path) as [Heq|Hne].
      * subst path. rewrite (Hout2 Hfresh). repeat split; try lia.
        intros Hnin. destruct Hnin. left.
      * repeat split; [lia | |].
        -- intros Hnin. apply Hout2. intros ?. apply Hnin. by right.
        -- intros Hok [?|?]%elem_of_cons; [done|]. by rewrite Hin2.
    + exists evs1. rewrite Hcount1. repeat split; try done; lia.
Qed.

Lemma updateVersions_writes st :
  NoDup (manifests env) →
  ∃ evs,
    trace (snd (updateVersions env version st)) = trace st ++ evs ∧
    (count_writes path evs ≤ 1)%nat ∧
    (fst (updateVersions env version st) = Ok tt → path ∈ manifests env →
     count_writes path evs = 1).
Proof.
  unfold manifests, updateVersions. intros [Hfresh Hnd]%NoDup_cons. rewrite bind_run.
  destruct (updatePackage_writes (dirname env) st) as (evs1 & Htr1 & Hcount1).
  destruct (updatePackage env (dirname env) version st) as [[[]|e] st1];
    cbn [fst snd] in *.
  - destruct (forEach_updatePackage_writes (packages env) st1 Hnd)
      as (evs2 & Htr2 & Hle2 & Hout2 & Hin2).
    exists (evs1 ++ evs2). rewrite Htr2, Htr1, app_assoc, count_writes_app, Hcount1.
    split; [done|].
    destruct (String.eqb_spec (manifest_of (dirname env)) path) as [Heq|Hne].
    + subst path. rewrite (Hout2 Hfresh). split; [lia | done].
    + split; [lia|]. intros Hok [?|?]%elem_of_cons; [done|]. by rewrite Hin2.
  - exists evs1. rewrite Hcount1. split; [done|]. split; [lia | done].
Qed.

End Writes.

(** ** From the stages to the program *)

Section Lifting.

Context (env : Env) (sk : list string).

Lemma emits_both {A} (T1 T2 : list event -> Prop) (m : M A) :
  emits sk T1 m →
  (∀ st, ∃ evs, trace (snd (m st)) = trace st ++ evs ∧ T2 evs) →
  emits sk (fun evs => T1 evs ∧ T2 evs) m.
Proof.
  intros H1 H2 st Hsk.
  destruct (H1 st Hsk) as (evs & Hsk' & Htr & HT1).
  destruct (H2 st) as (evs' & Htr' & HT2).
  rewrite Htr in Htr'. apply app_inv_head in Htr'. subst evs'. eauto.
Qed.

(** Outside [main_release] the program only prompts and prints. *)
Lemma emits_program (T : list event -> Prop) :
  (∀ evs, Forall (footprint env sk false false) evs → T evs) →
  (∀ evs evs', Forall (footprint env sk false false) evs → T evs' → T (evs ++ evs')) →
  (∀ evs evs', T evs → Forall (footprint env sk false false) evs' → T (evs ++ evs')) →
  (∀ version, emits sk T (main_release env version)) →
  emits sk T (program env).
Proof.
  intros Hquiet Hpre Hpost Hrelease.
  assert (T []) as Hnil by (by apply Hquiet).
  unfold program. eapply (emits_try_catch sk T (Forall (footprint env sk false false)) T).
  - unfold main.
    eapply (emits_bind sk (Forall (footprint env sk false false)) T T);
      [apply footprint_resolve_target | | exact Hquiet | exact Hpre].
    intros targetVersion.
    destruct targetVersion as [| | | |version| |]; try by apply emits_throw.
    destruct (semver_valid env version); [|by apply emits_throw].
    eapply (emits_bind sk (Forall (footprint env sk false false)) T T);
      [apply footprint_prompt_confirm | | exact Hquiet | exact Hpre].
    intros yes. destruct (negb yes); [by apply emits_ret | apply Hrelease].
  - intros e. by apply all_emit.
  - done.
  - exact Hpost.
Qed.

Lemma footprint_after_commit w d version :
  emits sk (Forall (footprint env sk w d))
    (step (nl +:+ "Publishing packages...") ;;
     main_publish env version (packages env) ;;
     main_push env version ;;
     main_summary env).
Proof.
  apply all_bind; [by apply all_log|]. intros _.
  apply all_bind; [apply footprint_main_publish|]. intros _.
  apply all_bind; [apply footprint_main_push|]. intros _.
  apply footprint_main_summary.
Qed.

Lemma main_commit_diff_first w version :
  emits sk (fun evs => ∃ rest, evs = EExec "git" (strs ["diff"]) git_diff_merged :: rest ∧
                               Forall (footprint env sk w false) rest)
        (main_commit env version).
Proof.
  unfold main_commit.
  eapply (emits_bind sk (fun evs => evs = [EExec "git" (strs ["diff"]) git_diff_merged])
                     (Forall (footprint env sk w false))).
  - intros st Hsk. destruct (run_trace env "git" (strs ["diff"]) git_diff_opts st) as [? ?].
    eexists. split; [congruence|]. split; [eassumption | done].
  - intros stdout. destruct (negb _); [|by apply all_log].
    apply all_bind; [by apply all_log|]. intros _.
    apply all_bind; [apply footprint_runIfNotDry|]. intros _.
    apply footprint_runIfNotDry.
  - intros evs ->. by exists [].
  - intros evs1 evs2 -> H2. by exists evs2.
Qed.

(** A manifest is written at most once in a run. *)
Lemma program_writes_once path :
  NoDup (manifests env) →
  emits sk (fun evs => (count_writes path evs ≤ 1)%nat) (program env).
Proof.
  intros Hnd. apply emits_program.
  - intros evs Hevs. rewrite (footprint_no_write _ _ _ _ _ Hevs). lia.
  - intros evs evs' Hevs Hle. rewrite count_writes_app, (footprint_no_write _ _ _ _ _ Hevs). lia.
  - intros evs evs' Hle Hevs. rewrite count_writes_app, (footprint_no_write _ _ _ _ _ Hevs). lia.
  - intros version. unfold main_release.
    eapply (emits_bind sk (Forall (footprint env sk false false)));
      [apply footprint_main_tests | |
       intros evs Hevs; rewrite (footprint_no_write _ _ _ _ _ Hevs); lia |
       intros evs evs' Hevs Hle;
       rewrite count_writes_app, (footprint_no_write _ _ _ _ _ Hevs); exact Hle].
    intros _.
    eapply (emits_bind sk (Forall (footprint env sk false false)));
      [by apply all_log | |
       intros evs Hevs; rewrite (footprint_no_write _ _ _ _ _ Hevs); lia |
       intros evs evs' Hevs Hle;
       rewrite count_writes_app, (footprint_no_write _ _ _ _ _ Hevs); exact Hle].
    intros _.
    eapply (emits_bind sk (fun evs => Forall (footprint env sk true true) evs ∧
                                      (count_writes path evs ≤ 1)%nat)
                       (Forall (footprint env sk false true))).
    + apply emits_both; [apply footprint_updateVersions|].
      intros st. destruct (updateVersions_writes env version path st Hnd)
        as (evs & ? & ? & _). eauto.
    + intros _.
      apply all_bind; [apply footprint_main_build|]. intros _.
      apply all_bind; [apply footprint_main_commit|]. intros _.
      apply footprint_after_commit.
    + by intros evs [_ ?].
    + intros evs evs' [_ Hle] Hevs'.
      rewrite count_writes_app, (footprint_no_write _ _ _ _ _ Hevs'). lia.
Qed.

(** In dry-run the only subprocess is [git diff], and it runs at most once. *)
Lemma program_dry_executed :
  truthy (isDryRun env) = true →
  emits sk (fun evs => executed evs = [] ∨
                       executed evs = [EExec "git" (strs ["diff"]) git_diff_merged])
        (program env).
Proof.
  intros Hdry.
  set (T := fun evs => executed evs = [] ∨
                       executed evs = [EExec "git" (strs ["diff"]) git_diff_merged]).
  assert (∀ w evs, Forall (footprint env sk w false) evs → executed evs = []) as Hnone
    by (intros; by eapply footprint_no_exec).
  assert (∀ w evs, Forall (footprint env sk w false) evs → T evs) as Hquiet
    by (intros w evs Hevs; left; by eapply Hnone).
  assert (∀ w evs evs', Forall (footprint env sk w false) evs → T evs' → T (evs ++ evs'))
    as Hpre.
  { intros w evs evs' Hevs HT. unfold T. by rewrite executed_app, (Hnone _ _ Hevs). }
  apply emits_program.
  - apply Hquiet.
  - apply Hpre.
  - intros evs evs' HT Hevs'. unfold T.
    by rewrite executed_app, (Hnone _ _ Hevs'), app_nil_r.
  - intros version. unfold main_release.
    eapply (emits_bind sk (Forall (footprint env sk true false)) T T);
      [apply footprint_main_tests | | apply Hquiet | apply Hpre].
    intros _.
    eapply (emits_bind sk (Forall (footprint env sk true false)) T T);
      [by apply all_log | | apply Hquiet | apply Hpre].
    intros _.
    eapply (emits_bind sk (Forall (footprint env sk true false)) T T);
      [apply footprint_updateVersions | | apply Hquiet | apply Hpre].
    intros _.
    eapply (emits_bind sk (Forall (footprint env sk true false)) T T);
      [apply footprint_main_build | | apply Hquiet | apply Hpre].
    intros _.
    eapply (emits_bind sk _ (Forall (footprint env sk false false)) T);
      [apply (main_commit_diff_first false) | intros _; apply footprint_after_commit | |].
    + intros evs (rest & -> & Hrest). right.
      change (?e :: rest) with ([e] ++ rest). by rewrite executed_app, (Hnone _ _ Hrest).
    + intros evs evs' (rest & -> & Hrest) Hevs'. right.
      change ((?e :: rest) ++ evs') with ([e] ++ rest ++ evs').
      by rewrite !executed_app, (Hnone _ _ Hrest), (Hnone _ _ Hevs').
Qed.

End Lifting.

(** ** Manifest files in one run *)

(** C8, as the code has it.  For package directories listed without
    repetition, the manifest of each package is written at most once in a
    run, and exactly once by a propagation that completes; the publish stage
    then reads the manifest of every package it handles again, to look at
    its [private] field. *)
Theorem manifest_written_once (env : Env) (files : gmap string value) (p : string) :
  NoDup (dirEntries env) → p ∈ packages env →
  let path := manifest_of (getPkgRoot env p) in
  (count_writes path (trace (snd (program env (initial_state files)))) ≤ 1)%nat ∧
  (∀ version st,
     fst (updateVersions env version st) = Ok tt →
     ∃ evs, trace (snd (updateVersions env version st)) = trace st ++ evs ∧
            count_writes path evs = 1) ∧
  (∀ version st,
     existsb (String.eqb p) (skippedPackages st) = false →
     ∃ evs, trace (snd (publishPackage env p version (runIfNotDry env) st))
            = trace st ++ ERead path :: evs).
Proof.
  intros Hnd%NoDup_manifests Hp path.
  assert (path ∈ manifests env) as Hpath.
  { unfold manifests. right.
    by apply (list_elem_of_fmap_2 (fun p => manifest_of (getPkgRoot env p))). }
  split; [|split].
  - destruct (program_writes_once env [] path Hnd (initial_state files) eq_refl)
      as (evs & _ & Htr & Hle). by rewrite Htr.
  - intros version st Hok.
    destruct (updateVersions_writes env version path st Hnd) as (evs & Htr & _ & Hone).
    exists evs. split; [done|]. by apply Hone.
  - intros version st Hskip. by apply publishPackage_reads.
Qed.

Lemma manifest_written_once_witness :
  let path := manifest_of (getPkgRoot live_env "reactivity") in
  (count_writes path (trace (snd (program live_env (initial_state demo_files)))) ≤ 1)%nat ∧
  (∀ version st,
     fst (updateVersions live_env version st) = Ok tt →
     ∃ evs, trace (snd (updateVersions live_env version st)) = trace st ++ evs ∧
            count_writes path evs = 1) ∧
  (∀ version st,
     existsb (String.eqb "reactivity") (skippedPackages st) = false →
     ∃ evs, trace (snd (publishPackage live_env "reactivity" version
                                       (runIfNotDry live_env) st))
            = trace st ++ ERead path :: evs).
Proof.
  apply (manifest_written_once live_env demo_files "reactivity").
  - apply NoDup_ListNoDup. vm_compute.
    repeat (constructor; [simpl; intuition discriminate|]). constructor.
  - apply list_elem_of_In. vm_compute. auto.
Defined.

(** C8 as stated fails on the code: in a live run the manifest of
    [reactivity] is written by propagation (the tenth event of the run) and
    read again by [publishPackage] (the twenty-second). *)
Lemma manifest_read_again_counterexample :
  let path := "./packages/reactivity/package.json" in
  let tr := trace (snd (program live_env (initial_state demo_files))) in
  (∃ doc, tr !! 9 = Some (EWrite path doc)) ∧
  tr !! 21 = Some (ERead path) ∧
  count_reads path tr = 2.
Proof.
  split; [eexists; vm_compute; reflexivity|].
  split; vm_compute; reflexivity.
Qed.

(** * Further properties of the script *)

(** ** Before the operator has said yes *)

Lemma resolve_target_dialogue (env : Env) (st : state) :
  ∃ evs, snd (resolve_target env st) = add_events st evs ∧ Forall dialogue evs.
Proof.
  unfold resolve_target. destruct (truthy (positional (args env))).
  { exists []. by rewrite ret_run, add_events_nil. }
  rewrite bind_run. unfold prompt_select.
  fold (add_events st [EPrompt (PSelect (select_choices env))]).
  destruct (answer_select env (trace st) (select_choices env)) as [release|];
    [|by exists [EPrompt (PSelect (select_choices env))]; split; [|repeat constructor]].
  destruct (String.eqb release "custom").
  - rewrite bind_run. unfold prompt_input. cbn [add_events fs skippedPackages trace].
    exists [EPrompt (PSelect (select_choices env)); EPrompt (PInput (currentVersion env))].
    split; [|repeat constructor].
    destruct (answer_input env _ _); unfold add_events; simpl; by rewrite <- app_assoc.
  - exists [EPrompt (PSelect (select_choices env))]. split; [|repeat constructor].
    by destruct (match_parens release).
Qed.

(** X1.  Without a yes from the operator nothing happens: whatever the arguments
    and whatever is typed at the prompts, when the confirmation is never
    answered with yes the program ends normally, the files are as they were,
    and the only events are prompts and, at most, the printed error; no
    file is read or written and no subprocess starts. *)
Theorem nothing_without_yes (env : Env) (st : state) :
  (∀ h version, answer_confirm env h version ≠ Some true) →
  ∃ evs, program env st = (Ok tt, add_events st evs) ∧ Forall dialogue evs.
Proof.
  intros Hno. unfold program. rewrite try_catch_run. unfold main. rewrite bind_run.
  destruct (resolve_target_dialogue env st) as (evs & Hst & Hevs).
  destruct (resolve_target env st) as [[targetVersion|e] st1]; cbn [snd] in Hst; subst st1.
  2: { rewrite emit_run, add_events_app. eexists. split; [done|].
       apply Forall_app. split; [done | repeat constructor]. }
  assert (∀ e, ∃ evs',
            try_catch (throw e) (fun err => emit (EError err)) (add_events st evs)
            = (Ok tt, add_events st evs') ∧ Forall dialogue evs') as Hthrow.
  { intros e. rewrite try_catch_run, throw_run, emit_run, add_events_app.
    eexists. split; [done|]. apply Forall_app. split; [done | repeat constructor]. }
  destruct targetVersion as [| | | |version| |];
    try (destruct (Hthrow (ErrInvalidVersion VUndef)) as (evs' & Heq & ?);
         rewrite try_catch_run, throw_run in Heq; rewrite throw_run; eauto; fail).
  all: try (rewrite throw_run, emit_run, add_events_app; eexists; split; [done|];
            apply Forall_app; split; [done | repeat constructor]).
  destruct (semver_valid env version).
  2: { rewrite throw_run, emit_run, add_events_app. eexists. split; [done|].
       apply Forall_app. split; [done | repeat constructor]. }
  rewrite bind_run. unfold prompt_confirm.
  fold (add_events (add_events st evs) [EPrompt (PConfirm version)]).
  specialize (Hno (trace (add_events st evs)) version).
  destruct (answer_confirm env (trace (add_events st evs)) version) as [[]|].
  - done.
  - cbn [negb]. rewrite ret_run, add_events_app. eexists. split; [done|].
    apply Forall_app. split; [done | repeat constructor].
  - rewrite emit_run, !add_events_app. eexists. split; [done|].
    repeat (apply Forall_app; split); try done; repeat constructor.
Qed.

Lemma nothing_without_yes_witness :
  ∃ evs, program declining_env (initial_state demo_files)
         = (Ok tt, add_events (initial_state demo_files) evs) ∧ Forall dialogue evs.
Proof.
  apply (nothing_without_yes declining_env (initial_state demo_files)).
  intros h version. discriminate.
Defined.

(** X2.  An invalid target version stops the run before anything is touched:
    whether it came from the command line, from the selected choice or
    from the free input, a target that is not a string [semver] accepts is
    reported as an invalid-version error naming it; the confirmation is not
    asked, and the files are the ones the run started with. *)
Theorem invalid_version_aborts (env : Env) (st st1 : state) (target : value) :
  resolve_target env st = (Ok target, st1) →
  (∀ version, target = VStr version → semver_valid env version = false) →
  program env st = (Ok tt, add_events st1 [EError (ErrInvalidVersion target)]) ∧
  fs st1 = fs st.
Proof.
  intros Hresolve Hinvalid. split.
  - unfold program. rewrite try_catch_run. unfold main.
    rewrite (bind_ok _ _ _ _ _ Hresolve).
    destruct target as [| | | |version| |]; try (by rewrite throw_run, emit_run).
    rewrite (Hinvalid version eq_refl). by rewrite throw_run, emit_run.
  - destruct (resolve_target_dialogue env st) as (evs & Hst & _).
    rewrite Hresolve in Hst. cbn [snd] in Hst. by subst st1.
Qed.

Lemma invalid_version_aborts_witness :
  program (demo_env (demo_cli (VStr "1.2") VUndef VUndef)) (initial_state demo_files)
  = (Ok tt, add_events (initial_state demo_files)
                       [EError (ErrInvalidVersion (VStr "1.2"))]) ∧
  fs (initial_state demo_files) = fs (initial_state demo_files).
Proof.
  apply (invalid_version_aborts (demo_env (demo_cli (VStr "1.2") VUndef VUndef))
           (initial_state demo_files) (initial_state demo_files) (VStr "1.2")).
  - reflexivity.
  - intros version [= <-]. reflexivity.
Defined.

(** ** The choice the operator selects *)

Lemma before_last_close_closed (v : string) :
  before_last_close (v +:+ ")") = Some v.
Proof.
  induction v as [|c v IH]; simpl; [done|]. by rewrite IH.
Qed.

Lemma prefix_snoc_false (p s : string) (c : ascii) :
  String.prefix p s = false →
  (∀ q r, p ≠ q +:+ String c r) →
  String.prefix p (s +:+ String c EmptyString) = false.
Proof.
  revert s. induction p as [|a p IH]; intros s Hpre Hc; [by destruct s|].
  destruct s as [|b s]; simpl in *.
  - destruct (ascii_dec a c) as [->|Hne].
    + by destruct (Hc "" p).
    + by destruct (ascii_dec a c).
  - destruct (ascii_dec a b); [|done].
    apply IH; [done|]. intros q r ->. by apply (Hc (String a q) r).
Qed.

Lemma dot_prefix_closed (v : string) :
  dot_prefix v = v → dot_prefix (v +:+ ")") = v +:+ ")".
Proof.
  induction v as [|c v IH]; [done|]. intros Hv.
  assert ((Ascii.eqb c (ascii_of_nat 10) || Ascii.eqb c (ascii_of_nat 13)) = false ∧
          String.prefix line_separator (String c v) = false ∧
          String.prefix paragraph_separator (String c v) = false ∧
          dot_prefix v = v) as (Hnl & Hls & Hps & Hv').
  { revert Hv. cbn [dot_prefix]. unfold startsWith.
    destruct (Ascii.eqb c (ascii_of_nat 10) || Ascii.eqb c (ascii_of_nat 13));
      cbn [orb]; [done|].
    destruct (String.prefix line_separator (String c v)); cbn [orb]; [done|].
    destruct (String.prefix paragraph_separator (String c v)); cbn [orb]; [done|].
    by intros [= ?]. }
  assert (String.prefix line_separator (String c v +:+ ")") = false) as Hls'.
  { apply prefix_snoc_false; [done|].
    intros [|a [|b [|d [|e q]]]] r;
      unfold line_separator, paragraph_separator; simpl; discriminate. }
  assert (String.prefix paragraph_separator (String c v +:+ ")") = false) as Hps'.
  { apply prefix_snoc_false; [done|].
    intros [|a [|b [|d [|e q]]]] r;
      unfold line_separator, paragraph_separator; simpl; discriminate. }
  change (String c v +:+ ")") with (String c (v +:+ ")")) in *.
  cbn [dot_prefix]. unfold startsWith. rewrite Hnl, Hls', Hps'. cbn [orb].
  by rewrite IH.
Qed.

Lemma match_parens_choice (env : Env) (i v : string) :
  i ∈ versionIncrements env → dot_prefix v = v →
  match_parens (i +:+ " (" +:+ v +:+ ")") = Some v ∧
  String.eqb (i +:+ " (" +:+ v +:+ ")") "custom" = false.
Proof.
  intros Hi Hv.
  assert (i ∈ base_increments ++ pre_increments) as Hall.
  { revert Hi. unfold versionIncrements. rewrite !elem_of_app.
    destruct (truthy (preId env)); [done|]. intros [?|?%elem_of_nil]; [by left | done]. }
  assert (before_last_close (dot_prefix (v +:+ ")")) = Some v) as Hcap
    by (by rewrite dot_prefix_closed, before_last_close_closed).
  unfold base_increments, pre_increments in Hall. simpl in Hall.
  assert (∀ c s t, String c s +:+ t = String c (s +:+ t)) as Hcons by done.
  assert (∀ t, "" +:+ t = t) as Hnil by done.
  repeat (apply elem_of_cons in Hall as [->|Hall];
          [rewrite !Hcons, !Hnil; cbn; by rewrite Hcap|]).
  by apply elem_of_nil in Hall.
Qed.

(** X3.  Round trip of the version choice.  Each increment is offered as
    ["<kind> (<version>)"] (line 76), and selecting that line gives back
    exactly the version [semver.inc] computed for the kind (line 91): the
    text between the parentheses, for every version without a line break. *)
Theorem selected_choice_roundtrip (env : Env) (st : state) (i version : string) :
  truthy (positional (args env)) = false →
  i ∈ versionIncrements env →
  inc env i = Some version →
  dot_prefix version = version →
  answer_select env (trace st) (select_choices env)
  = Some (i +:+ " (" +:+ version +:+ ")") →
  (i +:+ " (" +:+ version +:+ ")") ∈ select_choices env ∧
  resolve_target env st
  = (Ok (VStr version), add_events st [EPrompt (PSelect (select_choices env))]).
Proof.
  intros Hpos Hi Hinc Hline Hanswer.
  destruct (match_parens_choice env i version Hi Hline) as [Hmatch Hcustom].
  split.
  - unfold select_choices. apply elem_of_app. left.
    apply list_elem_of_fmap. exists i. split; [|done]. by rewrite Hinc.
  - unfold resolve_target. rewrite Hpos, bind_run. unfold prompt_select.
    rewrite Hanswer, Hcustom, Hmatch. by rewrite ret_run.
Qed.

Lemma selected_choice_roundtrip_witness :
  ("patch" +:+ " (" +:+ "1.0.1" +:+ ")") ∈ select_choices declining_env ∧
  resolve_target declining_env (initial_state demo_files)
  = (Ok (VStr "1.0.1"),
     add_events (initial_state demo_files)
                [EPrompt (PSelect (select_choices declining_env))]).
Proof.
  apply (selected_choice_roundtrip declining_env (initial_state demo_files)
           "patch" "1.0.1").
  - reflexivity.
  - apply list_elem_of_In. vm_compute. auto.
  - reflexivity.
  - reflexivity.
  - reflexivity.
Defined.

(** ** What propagation writes into a manifest *)

Lemma obj_keys_set_new fields k v :
  k ∉ obj_keys fields → obj_keys (obj_set fields k v) = obj_keys fields ++ [k].
Proof.
  unfold obj_keys. induction fields as [|[k' v'] rest IH]; simpl; [done|].
  intros Hnin. destruct (String.eqb_spec k' k) as [->|Hne].
  - destruct Hnin. left.
  - simpl. f_equal. apply IH. intros ?. apply Hnin. by right.
Qed.

Lemma updateDeps_doc_object env fields depType version :
  ∃ fields',
    updateDeps_doc env (VObj fields) depType version = VObj fields' ∧
    obj_keys fields' = obj_keys fields ∧
    ∀ k, k ≠ depType → obj_get fields' k = obj_get fields k.
Proof.
  unfold updateDeps_doc.
  destruct (js_get (VObj fields) depType) as [| | | | | |g] eqn:Hget;
    try by (exists fields).
  apply js_get_obj in Hget. eexists. split; [done|]. split.
  - apply obj_keys_set. apply obj_get_Some_keys. by rewrite Hget.
  - intros k Hk. by apply obj_get_set_ne.
Qed.

Lemma propagate_doc_object env version fields :
  ∃ fields',
    propagate_doc env version (VObj fields) = Some (VObj fields') ∧
    obj_keys fields' = obj_keys (obj_set fields "version" (VStr version)) ∧
    obj_get fields' "version" = Some (VStr version) ∧
    ∀ k, k ≠ "version" → k ≠ "dependencies" → k ≠ "peerDependencies" →
         obj_get fields' k = obj_get fields k.
Proof.
  assert (propagate_doc env version (VObj fields)
          = Some (updateDeps_doc env
                    (updateDeps_doc env (VObj (obj_set fields "version" (VStr version)))
                                    "dependencies" version)
                    "peerDependencies" version)) as -> by done.
  destruct (updateDeps_doc_object env (obj_set fields "version" (VStr version))
              "dependencies" version) as (f1 & -> & Hkeys1 & Hget1).
  destruct (updateDeps_doc_object env f1 "peerDependencies" version)
    as (f2 & -> & Hkeys2 & Hget2).
  exists f2. split; [done|]. split; [by rewrite Hkeys2, Hkeys1|]. split.
  - rewrite Hget2, Hget1 by done. apply obj_get_set_eq.
  - intros k Hv Hd Hp. rewrite Hget2, Hget1 by done. by apply obj_get_set_ne.
Qed.

Lemma updateVersions_lookup env version st path :
  fst (updateVersions env version st) = Ok tt → path ∈ manifests env →
  ∃ pkg doc,
    fs st !! path = Some pkg ∧
    fs (snd (updateVersions env version st)) !! path = Some doc ∧
    propagate_doc env version pkg = Some doc.
Proof.
  intros Hok%updateVersions_ok Hin.
  destruct (propagates_ok_lookup _ _ _ _ _ Hok Hin) as [doc Hdoc].
  rewrite updateVersions_fs, propagate_files_lookup by done.
  rewrite decide_True by done. rewrite Hdoc.
  destruct (fs st !! path) as [pkg|]; simpl in Hdoc; [|done]. by exists pkg, doc.
Qed.

(** X4.  One version everywhere.  After a propagation that completes, the root
    manifest and the manifest of every package are objects whose [version]
    field is the target version, whenever they were objects before (a
    manifest that is an array or a primitive is written back as it was). *)
Theorem updateVersions_sets_version (env : Env) (version : string) (st : state)
    (path : string) (fields : list (string * value)) :
  fst (updateVersions env version st) = Ok tt →
  path ∈ manifests env →
  fs st !! path = Some (VObj fields) →
  ∃ fields',
    fs (snd (updateVersions env version st)) !! path = Some (VObj fields') ∧
    obj_get fields' "version" = Some (VStr version).
Proof.
  intros Hok Hin Hpkg.
  destruct (updateVersions_lookup env version st path Hok Hin)
    as (pkg & doc & Hpkg' & Hdoc & Hprop).
  rewrite Hpkg in Hpkg'. injection Hpkg' as <-.
  destruct (propagate_doc_object env version fields) as (fields' & Heq & _ & Hv & _).
  rewrite Heq in Hprop. injection Hprop as <-. by exists fields'.
Qed.

Lemma updateVersions_sets_version_witness :
  ∃ fields',
    fs (snd (updateVersions live_env "1.0.1" (initial_state demo_files)))
      !! "./package.json" = Some (VObj fields') ∧
    obj_get fields' "version" = Some (VStr "1.0.1").
Proof.
  apply (updateVersions_sets_version live_env "1.0.1" (initial_state demo_files)
           "./package.json" [("name", VStr "demo"); ("version", VStr "1.0.0");
                             ("dependencies", VObj [])]).
  - vm_compute. reflexivity.
  - apply list_elem_of_In. vm_compute. auto.
  - vm_compute. reflexivity.
Defined.

(** X5.  Propagation keeps the rest of a manifest.  After a propagation that
    completes, a manifest that was an object has the same keys in the same
    order ([version] is added last when it was missing), and every field
    other than [version], [dependencies] and [peerDependencies] holds the
    value it held before. *)
Theorem updateVersions_keeps_fields (env : Env) (version : string) (st : state)
    (path : string) (fields : list (string * value)) :
  fst (updateVersions env version st) = Ok tt →
  path ∈ manifests env →
  fs st !! path = Some (VObj fields) →
  ∃ fields',
    fs (snd (updateVersions env version st)) !! path = Some (VObj fields') ∧
    obj_keys fields'
    = obj_keys fields ++
      (if bool_decide ("version" ∈ obj_keys fields) then [] else ["version"]) ∧
    ∀ k, k ≠ "version" → k ≠ "dependencies" → k ≠ "peerDependencies" →
         obj_get fields' k = obj_get fields k.
Proof.
  intros Hok Hin Hpkg.
  destruct (updateVersions_lookup env version st path Hok Hin)
    as (pkg & doc & Hpkg' & Hdoc & Hprop).
  rewrite Hpkg in Hpkg'. injection Hpkg' as <-.
  destruct (propagate_doc_object env version fields) as (fields' & Heq & Hkeys & _ & Hget).
  rewrite Heq in Hprop. injection Hprop as <-. exists fields'.
  split; [done|]. split; [|done]. rewrite Hkeys.
  destruct (decide ("version" ∈ obj_keys fields)) as [Hhas|Hnot].
  - rewrite bool_decide_eq_true_2 by done. rewrite app_nil_r. by apply obj_keys_set.
  - rewrite bool_decide_eq_false_2 by done. by apply obj_keys_set_new.
Qed.

Lemma updateVersions_keeps_fields_witness :
  ∃ fields',
    fs (snd (updateVersions live_env "1.0.1" (initial_state demo_files)))
      !! "./packages/reactivity/package.json" = Some (VObj fields') ∧
    obj_keys fields'
    = ["name"; "version"; "dependencies"] ++
      (if bool_decide ("version" ∈ ["name"; "version"; "dependencies"])
       then [] else ["version"]) ∧
    ∀ k, k ≠ "version" → k ≠ "dependencies" → k ≠ "peerDependencies" →
         obj_get fields' k
         = obj_get [("name", VStr "reactivity"); ("version", VStr "1.0.0");
                    ("dependencies", VObj reactivity_deps)] k.
Proof.
  apply (updateVersions_keeps_fields live_env "1.0.1" (initial_state demo_files)
           "./packages/reactivity/package.json"
           [("name", VStr "reactivity"); ("version", VStr "1.0.0");
            ("dependencies", VObj reactivity_deps)]).
  - vm_compute. reflexivity.
  - apply list_elem_of_In. vm_compute. auto.
  - vm_compute. reflexivity.
Defined.

(** ** What propagation leaves alone, and where it stops *)

Lemma propagate_files_other env version paths files path :
  path ∉ paths → propagate_files env version paths files !! path = files !! path.
Proof.
  revert files. induction paths as [|q paths IH]; intros files Hnin; simpl; [done|].
  destruct (propagate_file env version q files) as [files'|] eqn:Hfile; [|done].
  rewrite IH by (intros ?; apply Hnin; by right).
  rewrite (propagate_file_lookup _ _ _ _ _ _ Hfile).
  rewrite decide_False; [done|]. intros ->. apply Hnin. left.
Qed.

(** X6.  Propagation touches the manifests and nothing else: a file that is not
    the root manifest or the manifest of a package is the same after
    [updateVersions], whether it completes or throws, and every write of
    the function goes to one of these manifests. *)
Theorem updateVersions_only_manifests (env : Env) (version : string) (st : state)
    (path : string) :
  path ∉ manifests env →
  fs (snd (updateVersions env version st)) !! path = fs st !! path ∧
  ∀ doc, EWrite path doc ∉ drop (length (trace st))
                                (trace (snd (updateVersions env version st))).
Proof.
  intros Hnin. split.
  - rewrite updateVersions_fs. by apply propagate_files_other.
  - intros doc Hin.
    destruct (footprint_updateVersions env (skippedPackages st) true version st eq_refl)
      as (evs & _ & Htr & Hfp).
    rewrite Htr, drop_app_length in Hin.
    rewrite Forall_forall in Hfp. by destruct (Hfp _ Hin) as [_ ?].
Qed.

Lemma updateVersions_only_manifests_witness :
  fs (snd (updateVersions live_env "1.0.1" (initial_state demo_files))) !! "./yarn.lock"
  = fs (initial_state demo_files) !! "./yarn.lock" ∧
  ∀ doc, EWrite "./yarn.lock" doc
         ∉ drop (length (trace (initial_state demo_files)))
                (trace (snd (updateVersions live_env "1.0.1" (initial_state demo_files)))).
Proof.
  apply (updateVersions_only_manifests live_env "1.0.1" (initial_state demo_files)
           "./yarn.lock").
  intros Hin%list_elem_of_In. vm_compute in Hin. intuition discriminate.
Defined.

Lemma propagate_files_stops env version paths path rest files :
  propagates_ok env version paths files →
  propagate_files env version paths files !! path = None →
  propagate_files env version (paths ++ path :: rest) files
  = propagate_files env version paths files.
Proof.
  revert files. induction paths as [|q paths IH]; intros files Hok Hnone; simpl in *.
  - unfold propagate_file. by rewrite Hnone.
  - destruct (propagate_file env version q files) as [files'|]; [|done]. by apply IH.
Qed.

Lemma forEach_updatePackage_unreadable env version done_pkgs q rest st :
  let paths := (fun p => manifest_of (getPkgRoot env p)) <$> done_pkgs in
  propagates_ok env version paths (fs st) →
  propagate_files env version paths (fs st) !! manifest_of (getPkgRoot env q) = None →
  fst (forEach (done_pkgs ++ q :: rest)
               (fun p _ => updatePackage env (getPkgRoot env p) version) tt st)
  = Throw (ErrFile (manifest_of (getPkgRoot env q))).
Proof.
  cbn zeta. intros Hok Hnone. rewrite forEach_app, bind_run.
  destruct (forEach_updatePackage env version done_pkgs st) as [Hfs Hiff].
  cbn zeta in Hfs, Hiff. apply Hiff in Hok.
  destruct (forEach done_pkgs _ tt st) as [[[]|e] st1]; [|done].
  cbn [snd] in Hfs. cbn [forEach]. rewrite bind_run, updatePackage_run.
  by rewrite Hfs, Hnone.
Qed.

(** X7.  Propagation is not atomic.  When the manifest of a package cannot be
    read, [updateVersions] throws the read error of that manifest; the root
    manifest and the manifests of the packages listed before it have
    already been rewritten and stay so, and every other file, the manifests
    of the later packages included, is as it was. *)
Theorem updateVersions_stops_at_unreadable (env : Env) (version : string) (st : state)
    (done_pkgs : list string) (q : string) (rest : list string) :
  let written := manifest_of (dirname env) ::
                 ((fun p => manifest_of (getPkgRoot env p)) <$> done_pkgs) in
  packages env = done_pkgs ++ q :: rest →
  q ∉ done_pkgs →
  propagates_ok env version written (fs st) →
  fs st !! manifest_of (getPkgRoot env q) = None →
  fst (updateVersions env version st)
  = Throw (ErrFile (manifest_of (getPkgRoot env q))) ∧
  ∀ path,
    fs (snd (updateVersions env version st)) !! path
    = if decide (path ∈ written)
      then fs st !! path ≫= propagate_doc env version
      else fs st !! path.
Proof.
  intros written Hpkgs Hq Hok Hnone.
  assert (manifest_of (getPkgRoot env q) ∉ written) as Hfresh.
  { intros [Heq|(p & Heq & Hp)%list_elem_of_fmap]%elem_of_cons.
    - by apply (root_is_no_package env q).
    - apply manifest_of_inj, getPkgRoot_inj in Heq. by subst p. }
  assert (propagate_files env version written (fs st) !! manifest_of (getPkgRoot env q)
          = None) as Hstill by (by rewrite propagate_files_other).
  split.
  - unfold updateVersions. rewrite bind_run, Hpkgs.
    pose proof (updatePackage_fs env version (dirname env) st) as Hfs.
    pose proof (updatePackage_ok env version (dirname env) st) as Hroot.
    unfold written in Hok, Hstill. cbn [propagates_ok propagate_files] in Hok, Hstill.
    destruct (propagate_file env version (manifest_of (dirname env)) (fs st))
      as [files1|] eqn:Hfile; [|done].
    destruct (updatePackage env (dirname env) version st) as [[[]|e] st1];
      cbn [fst snd] in *.
    + simpl in Hfs. subst files1. by apply forEach_updatePackage_unreadable.
    + destruct Hroot as [_ Hroot]. by discriminate Hroot.
  - intros path. rewrite updateVersions_fs. unfold manifests. rewrite Hpkgs, fmap_app.
    change (manifest_of (dirname env) :: ?l ++ ?r) with ((manifest_of (dirname env) :: l) ++ r).
    rewrite fmap_cons, propagate_files_stops by done.
    by apply propagate_files_lookup.
Qed.

Lemma updateVersions_stops_at_unreadable_witness :
  fst (updateVersions live_env "1.0.1" (initial_state broken_files))
  = Throw (ErrFile (manifest_of (getPkgRoot live_env "shared"))) ∧
  ∀ path,
    fs (snd (updateVersions live_env "1.0.1" (initial_state broken_files))) !! path
    = if decide (path ∈ manifest_of (dirname live_env) ::
                   ((fun p => manifest_of (getPkgRoot live_env p)) <$> ["reactivity"]))
      then fs (initial_state broken_files) !! path ≫= propagate_doc live_env "1.0.1"
      else fs (initial_state broken_files) !! path.
Proof.
  apply (updateVersions_stops_at_unreadable live_env "1.0.1" (initial_state broken_files)
           ["reactivity"] "shared" []).
  - reflexivity.
  - intros Hin%list_elem_of_In. vm_compute in Hin. intuition discriminate.
  - vm_compute. exact I.
  - vm_compute. reflexivity.
Defined.

(** ** Stages that only talk and hand out commands *)

Lemma issued_app evs evs' : issued (evs ++ evs') = issued evs ++ issued evs'.
Proof. apply omap_app. Qed.

Section Steady.

Context (env : Env) (Inv : state -> Prop).

Hypothesis Inv_add_events : ∀ st evs, Inv st → Inv (add_events st evs).

Lemma steady_bind (m k : M unit) cmds cmds' :
  steady Inv m cmds → steady Inv k cmds' → steady Inv (m ;; k) (cmds ++ cmds').
Proof.
  intros Hm Hk st Hst. destruct (Hm st Hst) as (evs & Hrun & Hcmds).
  destruct (Hk (add_events st evs) (Inv_add_events _ _ Hst)) as (evs' & Hrun' & Hcmds').
  exists (evs ++ evs'). rewrite (bind_ok _ _ _ _ _ Hrun), Hrun', add_events_app.
  by rewrite issued_app, Hcmds, Hcmds'.
Qed.

Lemma steady_bind_unit (m : M unit) (k : unit -> M unit) cmds cmds' :
  steady Inv m cmds → steady Inv (k tt) cmds' → steady Inv (bind m k) (cmds ++ cmds').
Proof.
  intros Hm Hk st Hst. destruct (Hm st Hst) as (evs & Hrun & Hcmds).
  destruct (Hk (add_events st evs) (Inv_add_events _ _ Hst)) as (evs' & Hrun' & Hcmds').
  exists (evs ++ evs'). rewrite (bind_ok _ _ _ _ _ Hrun), Hrun', add_events_app.
  by rewrite issued_app, Hcmds, Hcmds'.
Qed.

Lemma steady_ret : steady Inv (ret tt) [].
Proof. intros st _. exists []. by rewrite ret_run, add_events_nil. Qed.

Lemma steady_log msg : command_of (ELog msg) = None → steady Inv (log msg) [].
Proof.
  intros Hmsg st _. exists [ELog msg]. rewrite log_run. split; [done|].
  unfold issued. cbn [omap list_omap]. by rewrite Hmsg.
Qed.

Lemma steady_step msg : steady Inv (step msg) [].
Proof. by apply steady_log. Qed.

Lemma steady_dryRun bin cargs opts : steady Inv (dryRun bin cargs opts) [(bin, cargs)].
Proof. intros st _. exists [ELog (MDryRun bin cargs opts)]. unfold dryRun. by rewrite log_run. Qed.

Lemma steady_main_tests : steady Inv (main_tests env) [].
Proof.
  intros st _. eexists. rewrite main_tests_run. split; [done|].
  by destruct (_ && _).
Qed.

Lemma steady_main_summary :
  (∀ st, Inv st → skippedPackages st = []) → steady Inv (main_summary env) [].
Proof.
  intros Hempty. unfold main_summary.
  apply (steady_bind _ _ [] []).
  { destruct (truthy (isDryRun env)); [by apply steady_log | apply steady_ret]. }
  intros st Hst. unfold get_skipped. rewrite bind_run, (Hempty st Hst).
  rewrite bind_run, ret_run, log_run. by exists [ELog MBlank].
Qed.

Section Calm.

Context (out : string).

Hypothesis calm : ∀ h files bin cargs opts,
  execa env h files bin cargs opts = (Exited out, files).

Lemma run_calm bin cargs opts st :
  run env bin cargs opts st
  = (Ok out, add_events st
       [EExec bin cargs {| cwd := cwd opts;
                           stdio := Some (default "inherit" (stdio opts)) |}]).
Proof. unfold run. by rewrite calm. Qed.

Lemma steady_runIfNotDry bin cargs opts :
  steady Inv (runIfNotDry env bin cargs opts) [(bin, cargs)].
Proof.
  unfold runIfNotDry. destruct (truthy (isDryRun env)); [apply steady_dryRun|].
  intros st _. eexists. by rewrite bind_run, run_calm, ret_run.
Qed.

Lemma steady_main_build :
  steady Inv (main_build env)
    (if negb (truthy (skipBuild env)) && negb (truthy (isDryRun env))
     then [("yarn", strs ["build"; "--release"])] else []).
Proof.
  unfold main_build. apply (steady_bind _ _ []); [apply steady_step|].
  destruct (_ && _); [|by apply steady_log].
  intros st _. eexists.
  rewrite bind_run, run_calm, bind_run, step_run, log_run, !add_events_app. done.
Qed.

Lemma steady_main_commit version :
  steady Inv (main_commit env version)
    ([("git", strs ["diff"])] ++
     (if String.eqb out "" then []
      else [("git", strs ["add"; "-A"]);
            ("git", strs ["commit"; "-m"; "release: v" +:+ version])])).
Proof.
  unfold main_commit. intros st Hst. rewrite bind_run, run_calm.
  destruct (String.eqb out "") eqn:Hout; cbn [negb].
  - rewrite log_run, add_events_app. by eexists.
  - assert (steady Inv
              (step (nl +:+ "Committing changes...") ;;
               runIfNotDry env "git" (strs ["add"; "-A"]) no_opts ;;
               runIfNotDry env "git"
                 (strs ["commit"; "-m"; "release: v" +:+ version]) no_opts)
              ([] ++ [("git", strs ["add"; "-A"])] ++
               [("git", strs ["commit"; "-m"; "release: v" +:+ version])])) as Hrest.
    { apply steady_bind; [apply steady_step|].
      apply steady_bind; apply steady_runIfNotDry. }
    set (diff := [EExec "git" (strs ["diff"])
                    {| cwd := cwd git_diff_opts;
                       stdio := Some (default "inherit" (stdio git_diff_opts)) |}]).
    destruct (Hrest (add_events st diff) (Inv_add_events st diff Hst))
      as (evs & Hrun & Hcmds).
    rewrite Hrun, add_events_app. eexists. split; [done|].
    by rewrite issued_app, Hcmds.
Qed.

Lemma steady_main_push version :
  steady Inv (main_push env version) (push_commands version).
Proof.
  unfold main_push. apply (steady_bind _ _ []); [apply steady_step|].
  apply (steady_bind _ _ [_] [_; _]); [apply steady_runIfNotDry|].
  apply (steady_bind _ _ [_] [_]); apply steady_runIfNotDry.
Qed.

End Calm.

End Steady.

(** ** The publish loop *)

Section PublishLoop.

Context (env : Env) (version : string) (files : gmap string value).


Hypothesis tolerant : ∀ h f cargs opts,
  ∃ r, execa env h f "yarn" cargs opts = (r, f) ∧ tolerated r.

Lemma publishPackage_steady pkg doc :
  files !! manifest_of (getPkgRoot env pkg) = Some doc →
  doc ≠ VNull ∧ doc ≠ VUndef →
  steady (fun st => fs st = files ∧ skippedPackages st = [])
         (publishPackage env pkg version (runIfNotDry env))
         (if publishable env files pkg then [publish_command env version pkg] else []).
Proof.
  intros Hdoc Hnull st [Hfs Hsk]. unfold publishPackage, publishable.
  rewrite bind_run. unfold get_skipped at 1. rewrite Hsk. cbn [existsb].
  assert (fs st !! manifest_of (getPkgRoot env pkg) = Some doc) as Hlook
    by (by rewrite Hfs).
  rewrite bind_run. unfold readJSON at 1. rewrite Hlook. rewrite Hdoc.
  fold (add_events st [ERead (manifest_of (getPkgRoot env pkg))]).
  set (st1 := add_events st [ERead (manifest_of (getPkgRoot env pkg))]).
  assert (publish_manifest env pkg version (runIfNotDry env) doc
          = (if truthy (js_get doc "private") then ret tt
             else
               step ("Publishing " +:+ pkg +:+ "...") ;;
               try_catch
                 (runIfNotDry env "yarn"
                    (publish_args version (releaseTag_of env pkg version))
                    (publish_opts (getPkgRoot env pkg)) ;;
                  log (MPublished pkg version))
                 (fun e =>
                    match e with
                    | ErrExec _ _ _ stderr =>
                        if includes stderr "previously published"
                        then log (MAlreadyPublished pkg)
                        else throw e
                    | _ => throw e
                    end))) as ->.
  { unfold publish_manifest. destruct Hnull. by destruct doc. }
  destruct (truthy (js_get doc "private")); cbn [negb].
  { rewrite ret_run. by exists [ERead (manifest_of (getPkgRoot env pkg))]. }
  rewrite bind_run, step_run, try_catch_run, bind_run. unfold runIfNotDry.
  destruct (truthy (isDryRun env)).
  - unfold dryRun. rewrite !log_run, !add_events_app. unfold st1.
    rewrite add_events_app. by eexists.
  - rewrite bind_run. unfold run.
    destruct (tolerant
                (trace (add_events st1 [ELog (MStep ("Publishing " +:+ pkg +:+ "..."))]))
                (fs (add_events st1 [ELog (MStep ("Publishing " +:+ pkg +:+ "..."))]))
                (publish_args version (releaseTag_of env pkg version))
                {| cwd := cwd (publish_opts (getPkgRoot env pkg));
                   stdio := Some (default "inherit"
                                    (stdio (publish_opts (getPkgRoot env pkg)))) |})
      as (r & -> & Hr).
    destruct r as [stdout|stderr]; simpl in Hr.
    + rewrite ret_run, log_run. unfold st1, add_events. cbn [fs skippedPackages trace].
      eexists. split; [by rewrite <- !app_assoc|]. done.
    + rewrite Hr, log_run. unfold st1, add_events. cbn [fs skippedPackages trace].
      eexists. split; [by rewrite <- !app_assoc|]. done.
Qed.

Lemma main_publish_steady pkgs :
  (∀ pkg, pkg ∈ pkgs →
     ∃ doc, files !! manifest_of (getPkgRoot env pkg) = Some doc ∧
            doc ≠ VNull ∧ doc ≠ VUndef) →
  steady (fun st => fs st = files ∧ skippedPackages st = [])
         (main_publish env version pkgs)
         (publish_command env version <$> List.filter (publishable env files) pkgs).
Proof.
  unfold main_publish. induction pkgs as [|pkg pkgs IH]; intros Hdocs.
  - apply steady_ret.
  - destruct (Hdocs pkg) as (doc & Hdoc & Hnull); [left|].
    cbn [forEach List.filter].
    assert (publish_command env version
              <$> (if publishable env files pkg
                   then pkg :: List.filter (publishable env files) pkgs
                   else List.filter (publishable env files) pkgs)
            = (if publishable env files pkg then [publish_command env version pkg] else [])
              ++ (publish_command env version
                    <$> List.filter (publishable env files) pkgs)) as ->
      by (by destruct (publishable env files pkg)).
    apply steady_bind_unit; [by intros ? ? [? ?] | by eapply publishPackage_steady |].
    apply IH. intros p Hp. apply Hdocs. by right.
Qed.

End PublishLoop.

(** X8.  The publish loop lives with packages that are already published.  When
    every publish attempt either succeeds or fails with the registry's
    "previously published" text, and every manifest of the list can be read,
    the loop ends normally without changing a file: in the order of the
    list, the packages not marked private each get their publish command,
    and the private ones get none. *)
Theorem publish_loop_tolerant (env : Env) (version : string) (pkgs : list string)
    (st : state) :
  skippedPackages st = [] →
  (∀ h f cargs opts, ∃ r, execa env h f "yarn" cargs opts = (r, f) ∧ tolerated r) →
  (∀ pkg, pkg ∈ pkgs →
     ∃ doc, fs st !! manifest_of (getPkgRoot env pkg) = Some doc ∧
            doc ≠ VNull ∧ doc ≠ VUndef) →
  ∃ evs,
    main_publish env version pkgs st = (Ok tt, add_events st evs) ∧
    issued evs
    = publish_command env version <$> List.filter (publishable env (fs st)) pkgs.
Proof.
  intros Hsk Htol Hdocs.
  by apply (main_publish_steady env version (fs st) Htol pkgs Hdocs st).
Qed.

Lemma publish_loop_tolerant_witness :
  ∃ evs,
    main_publish republish_env "1.0.1" ["reactivity"; "shared"]
                 (initial_state private_files)
    = (Ok tt, add_events (initial_state private_files) evs) ∧
    issued evs
    = publish_command republish_env "1.0.1"
        <$> List.filter (publishable republish_env (fs (initial_state private_files)))
                        ["reactivity"; "shared"].
Proof.
  apply (publish_loop_tolerant republish_env "1.0.1" ["reactivity"; "shared"]
           (initial_state private_files)).
  - reflexivity.
  - intros h f cargs opts. eexists. split; reflexivity.
  - intros pkg [->|[->|Hin%elem_of_nil]%elem_of_cons]%elem_of_cons; [| |done];
      eexists; (split; [vm_compute; reflexivity | split; discriminate]).
Defined.

(** X9.  No publish without a public manifest.  [publishPackage] hands a command
    to the executor only for a package that is not in the skip list and
    whose manifest could be read and does not mark it private; in every
    other case it at most reads the manifest. *)
Theorem publish_needs_public_manifest (env : Env) (pkg version : string) (st : state) :
  issued (drop (length (trace st))
               (trace (snd (publishPackage env pkg version (runIfNotDry env) st)))) ≠ [] →
  existsb (String.eqb pkg) (skippedPackages st) = false ∧
  ∃ doc, fs st !! manifest_of (getPkgRoot env pkg) = Some doc ∧
         truthy (js_get doc "private") = false.
Proof.
  unfold publishPackage. rewrite bind_run. unfold get_skipped at 1.
  destruct (existsb (String.eqb pkg) (skippedPackages st)).
  { rewrite ret_run. cbn [snd]. by rewrite drop_all. }
  rewrite bind_run. unfold readJSON at 1.
  fold (add_events st [ERead (manifest_of (getPkgRoot env pkg))]).
  destruct (fs st !! manifest_of (getPkgRoot env pkg)) as [doc|].
  2: { cbn [snd add_events trace]. by rewrite drop_app_length. }
  intros Hissued. split; [done|]. exists doc. split; [done|].
  destruct (truthy (js_get doc "private")) eqn:Hprivate; [|done].
  destruct Hissued. unfold publish_manifest. rewrite Hprivate.
  destruct doc; rewrite ?ret_run, ?throw_run; cbn [snd add_events trace];
    by rewrite drop_app_length.
Qed.

Lemma publish_needs_public_manifest_witness :
  existsb (String.eqb "reactivity") (skippedPackages (initial_state demo_files)) = false ∧
  ∃ doc, fs (initial_state demo_files) !! manifest_of (getPkgRoot dry_env "reactivity")
         = Some doc ∧
         truthy (js_get doc "private") = false.
Proof.
  apply (publish_needs_public_manifest dry_env "reactivity" "1.0.1"
           (initial_state demo_files)).
  vm_compute. discriminate.
Defined.

(** ** A release in which every command succeeds *)

Lemma issued_none evs : Forall (fun e => command_of e = None) evs → issued evs = [].
Proof.
  induction 1 as [|e evs He _ IH]; [done|].
  unfold issued in *. cbn [omap list_omap]. by rewrite He.
Qed.

Lemma updateVersions_issues_nothing env sk version :
  emits sk (Forall (fun e => command_of e = None)) (updateVersions env version).
Proof.
  assert (∀ pkgRoot, emits sk (Forall (fun e => command_of e = None))
                           (updatePackage env pkgRoot version)) as Hpkg.
  { intros pkgRoot st Hsk. rewrite updatePackage_run.
    assert (Forall (fun e => command_of e = None) [ERead (manifest_of pkgRoot)]) as Hread
      by (by apply Forall_singleton).
    destruct (fs st !! manifest_of pkgRoot) as [pkg|]; [|by eexists].
    destruct (propagate_doc env version pkg) as [doc|]; [|by eexists].
    eexists. simpl. split; [done|]. split; [done|].
    apply Forall_cons. split; [done|]. apply Forall_app. split.
    - unfold propagate_logs. destruct (set_version_doc pkg version) as [pkg1|]; [|done].
      apply Forall_app. split; unfold updateDeps_logs;
        repeat match goal with |- context [match ?v with _ => _ end] => destruct v end;
        try done; by apply Forall_fmap, Forall_forall.
    - by apply Forall_singleton. }
  unfold updateVersions. apply all_bind; [apply Hpkg|].
  intros _. apply all_forEach. intros p [] _. apply Hpkg.
Qed.

Lemma propagate_doc_private env version pkg doc :
  propagate_doc env version pkg = Some doc →
  js_get doc "private" = js_get pkg "private".
Proof.
  destruct pkg as [| | | | | |fields]; try (intros [= <-]; done).
  destruct (propagate_doc_object env version fields) as (fields' & -> & _ & _ & Hget).
  intros [= <-]. simpl. by rewrite Hget.
Qed.

Section CalmRelease.

Context (env : Env) (version out : string) (st : state).

Hypothesis calm : ∀ h files bin cargs opts,
  execa env h files bin cargs opts = (Exited out, files).
Hypothesis no_skips : skippedPackages st = [].
Hypothesis readable : propagates_ok env version (manifests env) (fs st).

Lemma propagated_manifest pkg :
  pkg ∈ packages env →
  ∃ doc0 doc,
    fs st !! manifest_of (getPkgRoot env pkg) = Some doc0 ∧
    propagate_files env version (manifests env) (fs st)
      !! manifest_of (getPkgRoot env pkg) = Some doc ∧
    propagate_doc env version doc0 = Some doc.
Proof.
  intros Hpkg.
  assert (manifest_of (getPkgRoot env pkg) ∈ manifests env) as Hin.
  { unfold manifests. right.
    by apply (list_elem_of_fmap_2 (fun p => manifest_of (getPkgRoot env p))). }
  destruct (propagates_ok_lookup _ _ _ _ _ readable Hin) as [doc Hdoc].
  rewrite propagate_files_lookup by done. rewrite decide_True by done. rewrite Hdoc.
  destruct (fs st !! manifest_of (getPkgRoot env pkg)) as [doc0|]; [|done].
  by exists doc0, doc.
Qed.

Lemma after_propagation_steady :
  steady (fun st' => fs st' = propagate_files env version (manifests env) (fs st) ∧
                     skippedPackages st' = [])
         (main_build env ;;
          main_commit env version ;;
          step (nl +:+ "Publishing packages...") ;;
          main_publish env version (packages env) ;;
          main_push env version ;;
          main_summary env)
         (release_commands env version (fs st) out).
Proof.
  assert (∀ st' evs,
            fs st' = propagate_files env version (manifests env) (fs st) ∧
            skippedPackages st' = [] →
            fs (add_events st' evs) = propagate_files env version (manifests env) (fs st) ∧
            skippedPackages (add_events st' evs) = []) as Hinv by done.
  assert (∀ files, List.filter (publishable env (fs st)) (packages env) = files →
            release_commands env version (fs st) out
            = (if negb (truthy (skipBuild env)) && negb (truthy (isDryRun env))
               then [("yarn", strs ["build"; "--release"])] else []) ++
              ([("git", strs ["diff"])] ++
               (if String.eqb out "" then []
                else [("git", strs ["add"; "-A"]);
                      ("git", strs ["commit"; "-m"; "release: v" +:+ version])])) ++
              [] ++
              (publish_command env version <$> files) ++
              push_commands version ++ []) as Hshape.
  { intros files <-. unfold release_commands. by rewrite app_nil_r, <- !app_assoc. }
  rewrite (Hshape _ eq_refl). clear Hshape.
  assert (List.filter (publishable env (fs st)) (packages env)
          = List.filter
              (publishable env (propagate_files env version (manifests env) (fs st)))
              (packages env)) as ->.
  { apply List.filter_ext_in. intros pkg Hpkg%list_elem_of_In.
    destruct (propagated_manifest pkg Hpkg) as (doc0 & doc & H0 & H1 & Hprop).
    unfold publishable. rewrite H0, H1.
    by rewrite (propagate_doc_private _ _ _ _ Hprop). }
  apply steady_bind; [done | by apply (steady_main_build env _ Hinv out calm) |].
  apply steady_bind; [done | by apply (steady_main_commit env _ Hinv out calm) |].
  apply steady_bind; [done | apply steady_step |].
  apply steady_bind; [done | |].
  - apply main_publish_steady.
    + intros h f cargs opts. exists (Exited out). by rewrite calm.
    + intros pkg Hpkg.
      destruct (propagated_manifest pkg Hpkg) as (doc0 & doc & _ & H1 & Hprop).
      exists doc. split; [done|]. by eapply propagate_doc_not_null.
  - apply steady_bind; [done | by apply (steady_main_push env _ Hinv out calm) |].
    apply steady_main_summary; [done | by intros ? [_ ?]].
Qed.

Lemma release_commands_run :
  ∃ evs st',
    main_release env version st = (Ok tt, st') ∧
    trace st' = trace st ++ evs ∧
    fs st' = propagate_files env version (manifests env) (fs st) ∧
    issued evs = release_commands env version (fs st) out.
Proof.
  unfold main_release.
  rewrite (bind_ok _ _ _ _ _ (main_tests_run env st)).
  rewrite (bind_ok _ _ _ _ _ (step_run _ _)), add_events_app.
  set (st1 := add_events st _).
  assert (fst (updateVersions env version st1) = Ok tt) as Huv
    by (by apply updateVersions_ok).
  pose proof (updateVersions_fs env version st1) as Hfs.
  destruct (updateVersions_issues_nothing env (skippedPackages st1) version st1 eq_refl)
    as (evs_uv & Hsk2 & Htr2 & Hquiet).
  destruct (updateVersions env version st1) as [[[]|e] st2] eqn:Hrun; [|done].
  cbn [snd] in *. rewrite (bind_ok _ _ _ _ _ Hrun).
  destruct (after_propagation_steady st2) as (evs & Hrest & Hcmds).
  { split; [exact Hfs | by rewrite Hsk2]. }
  rewrite Hrest. eexists _, _. split; [done|].
  cbn [add_events trace fs]. rewrite Htr2. unfold st1. cbn [add_events trace].
  split; [by rewrite <- !app_assoc|]. split; [exact Hfs|].
  rewrite !issued_app, (issued_none _ Hquiet), Hcmds.
  by destruct (_ && _).
Qed.

End CalmRelease.

(** X10.  The commands of a release, in order.  When every subprocess succeeds,
    prints [out] and changes no file, and every manifest can be read, a
    confirmed release ends normally and hands to the executor, in this
    order: the build (unless skipped or dry-run), [git diff], then
    [git add -A] and [git commit] if [out] is not empty, one publish per
    package not marked private in the order of the directory listing, then
    the tag and the two pushes.  Dry-run hands over the same commands apart
    from the build, and the files at the end are the propagated ones. *)
Theorem release_issues_commands (env : Env) (version out : string) (st : state) :
  (∀ h files bin cargs opts, execa env h files bin cargs opts = (Exited out, files)) →
  skippedPackages st = [] →
  propagates_ok env version (manifests env) (fs st) →
  ∃ evs st',
    main_release env version st = (Ok tt, st') ∧
    trace st' = trace st ++ evs ∧
    fs st' = propagate_files env version (manifests env) (fs st) ∧
    issued evs = release_commands env version (fs st) out.
Proof. apply release_commands_run. Qed.

Lemma release_issues_commands_witness :
  let env := calm_env (demo_cli (VStr "1.0.1") (VBool true) VUndef) "M package.json" in
  ∃ evs st',
    main_release env "1.0.1" (initial_state private_files) = (Ok tt, st') ∧
    trace st' = trace (initial_state private_files) ++ evs ∧
    fs st' = propagate_files env "1.0.1" (manifests env)
                             (fs (initial_state private_files)) ∧
    issued evs
    = release_commands env "1.0.1" (fs (initial_state private_files)) "M package.json".
Proof.
  apply (release_issues_commands
           (calm_env (demo_cli (VStr "1.0.1") (VBool true) VUndef) "M package.json")
           "1.0.1" "M package.json" (initial_state private_files)).
  - reflexivity.
  - reflexivity.
  - vm_compute. exact I.
Defined.

(** On the demo repository with [shared] private, in dry-run. *)
Example release_commands_demo :
  release_commands (calm_env (demo_cli (VStr "1.0.1") (VBool true) VUndef) "M package.json")
                   "1.0.1" private_files "M package.json"
  = [("git", strs ["diff"]);
     ("git", strs ["add"; "-A"]);
     ("git", strs ["commit"; "-m"; "release: v1.0.1"]);
     ("yarn", strs ["publish"; "--new-version"; "1.0.1"; "--access"; "public"]);
     ("git", strs ["tag"; "v1.0.1"]);
     ("git", strs ["push"; "origin"; "refs/tags/v1.0.1"]);
     ("git", strs ["push"])].
Proof. vm_compute. reflexivity. Qed.

(** ** A failed build, and the order of tag and pushes *)

(** X11.  A failed build ends the release at once.  In a live run that does not
    skip the build, when [yarn build --release] fails after a completed
    propagation, the pipeline throws the error of the build and nothing
    follows it: no [git diff], no commit, no publish, no tag, no push.  The
    manifests are not restored: the files are those the propagation wrote
    and the build left. *)
Theorem failed_build_aborts (env : Env) (version : string) (st st2 : state)
    (stderr : string) (files' : gmap string value) :
  truthy (skipBuild env) = false →
  truthy (isDryRun env) = false →
  updateVersions env version (before_propagation env st) = (Ok tt, st2) →
  execa env (trace st2 ++ [ELog (MStep (nl +:+ "Building all packages..."))])
        (fs st2) "yarn" (strs ["build"; "--release"]) inherit_opts
  = (Failed stderr, files') →
  main_release env version st
  = (Throw (ErrExec "yarn" (strs ["build"; "--release"]) inherit_opts stderr),
     {| fs := files';
        skippedPackages := skippedPackages st2;
        trace := trace st2 ++
                 [ELog (MStep (nl +:+ "Building all packages..."));
                  EExec "yarn" (strs ["build"; "--release"]) inherit_opts] |}).
Proof.
  intros Hbuild Hlive Huv Hfail. unfold main_release.
  rewrite (bind_ok _ _ _ _ _ (main_tests_run env st)).
  rewrite (bind_ok _ _ _ _ _ (step_run _ _)), add_events_app.
  change (add_events st _) with (before_propagation env st).
  rewrite (bind_ok _ _ _ _ _ Huv).
  assert (main_build env st2
          = (Throw (ErrExec "yarn" (strs ["build"; "--release"]) inherit_opts stderr),
             {| fs := files';
                skippedPackages := skippedPackages st2;
                trace := trace st2 ++
                         [ELog (MStep (nl +:+ "Building all packages..."));
                          EExec "yarn" (strs ["build"; "--release"]) inherit_opts] |}))
    as Hrun.
  { unfold main_build. rewrite (bind_ok _ _ _ _ _ (step_run _ _)), Hbuild, Hlive.
    cbn [negb andb]. rewrite bind_run. unfold run.
    cbn [add_events fs trace skippedPackages cwd stdio no_opts default].
    change {| cwd := None; stdio := Some "inherit" |} with inherit_opts.
    rewrite Hfail. by rewrite <- app_assoc. }
  by rewrite (bind_throw _ _ _ _ _ Hrun).
Qed.

Lemma failed_build_aborts_witness :
  ∃ st2,
    main_release build_fail_env "1.0.1" (initial_state demo_files)
    = (Throw (ErrExec "yarn" (strs ["build"; "--release"]) inherit_opts
                      "error Command failed with exit code 1."),
       {| fs := fs st2;
          skippedPackages := skippedPackages st2;
          trace := trace st2 ++
                   [ELog (MStep (nl +:+ "Building all packages..."));
                    EExec "yarn" (strs ["build"; "--release"]) inherit_opts] |}).
Proof.
  eexists.
  apply (failed_build_aborts build_fail_env "1.0.1" (initial_state demo_files)).
  - reflexivity.
  - reflexivity.
  - vm_compute. reflexivity.
  - reflexivity.
Defined.

Lemma runIfNotDry_cases (env : Env) (bin : string) (cargs : list value) (opts : options)
    (st : state) :
  ∃ e, trace (snd (runIfNotDry env bin cargs opts st)) = trace st ++ [e] ∧
       command_of e = Some (bin, cargs) ∧
       match fst (runIfNotDry env bin cargs opts st) with
       | Ok _ => True
       | Throw err =>
           truthy (isDryRun env) = false ∧
           ∃ merged stderr, err = ErrExec bin cargs merged stderr
       end.
Proof.
  unfold runIfNotDry. destruct (truthy (isDryRun env)).
  - unfold dryRun. rewrite log_run. by exists (ELog (MDryRun bin cargs opts)).
  - rewrite bind_run. unfold run.
    destruct (execa env _ _ _ _ _) as [[stdout|stderr] files'];
      exists (EExec bin cargs {| cwd := cwd opts;
                                 stdio := Some (default "inherit" (stdio opts)) |});
      cbn [fst snd trace]; split; try done; split; try done.
    split; [done|]. by eexists _, _.
Qed.

(** X12.  Tag, then push the tag, then push the branch.  [main_push] hands the
    three commands to the executor in this order and stops at the first
    that fails: what it handed over is always a prefix of the three, all
    three when it ends normally, and when it throws (only possible in a live
    run) the error is that of the last command handed over. *)
Theorem main_push_in_order (env : Env) (version : string) (st : state) :
  ∃ evs,
    trace (snd (main_push env version st))
    = trace st ++ ELog (MStep (nl +:+ "Pushing to GitHub...")) :: evs ∧
    issued evs `prefix_of` push_commands version ∧
    match fst (main_push env version st) with
    | Ok _ => issued evs = push_commands version
    | Throw err =>
        truthy (isDryRun env) = false ∧
        ∃ bin cargs merged stderr,
          err = ErrExec bin cargs merged stderr ∧ last (issued evs) = Some (bin, cargs)
    end.
Proof.
  unfold main_push. rewrite (bind_ok _ _ _ _ _ (step_run _ _)).
  set (st0 := add_events st _).
  assert (trace st0 = trace st ++ [ELog (MStep (nl +:+ "Pushing to GitHub..."))])
    as Htr0 by done.
  rewrite bind_run.
  destruct (runIfNotDry_cases env "git" (strs ["tag"; "v" +:+ version]) no_opts st0)
    as (e1 & Htr1 & Hc1 & Hr1).
  destruct (runIfNotDry env "git" (strs ["tag"; "v" +:+ version]) no_opts st0)
    as [[[]|err] st1]; cbn [fst snd] in *.
  2: { exists [e1]. rewrite Htr1, Htr0, <- app_assoc. split; [done|].
       unfold issued. cbn [omap list_omap]. rewrite Hc1.
       split; [by eexists|]. destruct Hr1 as (? & merged & stderr & ->).
       split; [done|]. by eexists _, _, _, _. }
  rewrite bind_run.
  destruct (runIfNotDry_cases env "git"
              (strs ["push"; "origin"; "refs/tags/v" +:+ version]) no_opts st1)
    as (e2 & Htr2 & Hc2 & Hr2).
  destruct (runIfNotDry env "git"
              (strs ["push"; "origin"; "refs/tags/v" +:+ version]) no_opts st1)
    as [[[]|err] st2]; cbn [fst snd] in *.
  2: { exists [e1; e2]. rewrite Htr2, Htr1, Htr0, <- !app_assoc. split; [done|].
       unfold issued. cbn [omap list_omap]. rewrite Hc1, Hc2.
       split; [by eexists|]. destruct Hr2 as (? & merged & stderr & ->).
       split; [done|]. by eexists _, _, _, _. }
  destruct (runIfNotDry_cases env "git" (strs ["push"]) no_opts st2)
    as (e3 & Htr3 & Hc3 & Hr3).
  exists [e1; e2; e3]. rewrite Htr3, Htr2, Htr1, Htr0, <- !app_assoc. split; [done|].
  unfold issued. cbn [omap list_omap]. rewrite Hc1, Hc2, Hc3.
  split; [done|].
  destruct (runIfNotDry env "git" (strs ["push"]) no_opts st2) as [[[]|err] st3];
    cbn [fst] in *; [done|].
  destruct Hr3 as (? & merged & stderr & ->). split; [done|]. by eexists _, _, _, _.
Qed.

(** ** The package list *)

Lemma endsWith_spec (s suffix : string) :
  endsWith s suffix = true ↔ ∃ pre, s = pre +:+ suffix.
Proof.
  split.
  - induction s as [|c s IH]; cbn [endsWith].
    + rewrite orb_false_r. intros ->%String.eqb_eq. by exists "".
    + intros [->%String.eqb_eq | Hrest]%orb_true_iff; [by exists ""|].
      destruct (IH Hrest) as [pre ->]. by exists (String c pre).
  - intros [pre ->]. induction pre as [|c pre IH].
    + change ("" +:+ suffix) with suffix.
      destruct suffix; cbn [endsWith]; by rewrite String.eqb_refl.
    + change (String c pre +:+ suffix) with (String c (pre +:+ suffix)).
      cbn [endsWith]. by rewrite IH, orb_true_r.
Qed.

(** X13.  The packages are the entries of the [packages] directory in listing
    order, without the names that end in [.ts] and without the names that
    start with a dot. *)
Theorem packages_listing (env : Env) :
  packages env `sublist_of` dirEntries env ∧
  ∀ p, p ∈ packages env ↔
       p ∈ dirEntries env ∧
       (∀ pre, p ≠ pre +:+ ".ts") ∧
       (∀ rest, p ≠ "." +:+ rest).
Proof.
  split.
  - unfold packages. induction (dirEntries env) as [|p l IH]; simpl; [done|].
    destruct (_ && _); [by apply sublist_skip | by apply sublist_cons].
  - intros p. unfold packages.
    rewrite (list_elem_of_In (List.filter _ _) p), List.filter_In, <- list_elem_of_In.
    rewrite andb_true_iff, !negb_true_iff.
    assert (endsWith p ".ts" = false ↔ ∀ pre, p ≠ pre +:+ ".ts") as ->.
    { rewrite <- not_true_iff_false, endsWith_spec. split.
      - intros Hno pre ->. apply Hno. by exists pre.
      - intros Hno [pre ->]. by apply (Hno pre). }
    assert (startsWith p "." = false ↔ ∀ rest, p ≠ "." +:+ rest) as ->; [|done].
    unfold startsWith. destruct p as [|c p]; cbn [String.prefix].
    + split; [by intros _ rest | done].
    + destruct (ascii_dec "." c) as [<-|Hne].
      * assert (String.prefix "" p = true) as -> by (by destruct p).
        split; [done|]. intros Hno. by destruct (Hno p).
      * split; [|done]. intros _ rest [= Hc _]. by destruct Hne.
Qed.

(** ** The registry channel *)


(** ** The capture, in general *)

Lemma before_last_close_sound (s t : string) :
  before_last_close s = Some t → ∃ post, s = t +:+ ")" +:+ post.
Proof.
  revert t. induction s as [|c s IH]; intros t; cbn [before_last_close]; [done|].
  destruct (before_last_close s) as [t'|].
  - intros [= <-]. destruct (IH t' eq_refl) as [post ->]. by exists post.
  - destruct (Ascii.eqb_spec c ")") as [->|]; [|done].
    intros [= <-]. by exists s.
Qed.

Lemma dot_prefix_sound (s : string) : ∃ rest, s = dot_prefix s +:+ rest.
Proof.
  induction s as [|c s [rest IH]]; [by exists ""|]. cbn [dot_prefix].
  destruct (_ || _); [by exists (String c s)|].
  exists rest. change (String c (dot_prefix s) +:+ rest)
    with (String c (dot_prefix s +:+ rest)). by rewrite <- IH.
Qed.

Lemma append_assoc (a b c : string) : (a +:+ b) +:+ c = a +:+ (b +:+ c).
Proof.
  induction a as [|x a IH]; [done|].
  change (String x ((a +:+ b) +:+ c) = String x (a +:+ (b +:+ c))).
  by rewrite IH.
Qed.

(** X15.  What line 91 captures is text of the selected line that stands between
    an opening and a closing parenthesis; a line that holds no opening
    parenthesis has no capture, and the run then ends on a TypeError. *)
Theorem match_parens_sound (s : string) :
  (∀ captured, match_parens s = Some captured →
     ∃ pre post, s = pre +:+ "(" +:+ captured +:+ ")" +:+ post) ∧
  (includes s "(" = false → match_parens s = None).
Proof.
  split.
  - intros captured. induction s as [|c s IH]; cbn [match_parens]; [done|].
    assert (match_parens s = Some captured →
            ∃ pre post, String c s = pre +:+ "(" +:+ captured +:+ ")" +:+ post) as Hrest.
    { intros Hm. destruct (IH Hm) as (pre & post & ->). by exists (String c pre), post. }
    destruct (Ascii.eqb_spec c "(") as [->|]; [|done].
    destruct (before_last_close (dot_prefix s)) as [t|] eqn:Hclose; [|done].
    intros [= <-]. apply before_last_close_sound in Hclose as [post Hpost].
    destruct (dot_prefix_sound s) as [rest Hs]. rewrite Hpost in Hs.
    exists "", (post +:+ rest). rewrite Hs.
    change ("" +:+ "(" +:+ ?x) with (String "(" x). f_equal.
    by rewrite !append_assoc.
  - induction s as [|c s IH]; [done|]. cbn [includes match_parens String.prefix].
    destruct (ascii_dec "(" c) as [<-|Hne].
    + by destruct s.
    + intros [_ Hrest]%orb_false_iff.
      destruct (Ascii.eqb_spec c "(") as [->|]; [done | by apply IH].
Qed.

(** ** What the whole program writes *)

(** X16.  The script writes manifests and nothing else: in every run, dry or
    live, completed or failed, each file the program writes is the root
    manifest or the manifest of a package. *)
Theorem program_writes_only_manifests (env : Env) (st : state)
    (path : string) (doc : value) :
  EWrite path doc ∈ drop (length (trace st)) (trace (snd (program env st))) →
  path ∈ manifests env.
Proof.
  intros Hin.
  destruct (footprint_program env (skippedPackages st) st eq_refl)
    as (evs & _ & Htr & Hfp).
  rewrite Htr, drop_app_length in Hin.
  rewrite Forall_forall in Hfp. by destruct (Hfp _ Hin) as [_ ?].
Qed.

Lemma program_writes_only_manifests_witness :
  "./package.json" ∈ manifests live_env.
Proof.
  apply (program_writes_only_manifests live_env (initial_state demo_files)
           "./package.json"
           (VObj [("name", VStr "demo"); ("version", VStr "1.0.1");
                  ("dependencies", VObj [])])).
  apply list_elem_of_In. vm_compute. auto 10.
Defined.

(** * Dry-run, from the prompt to the last notice *)

(** ** Code that touches no file *)

Lemma keeps_files_ret {A} (a : A) : keeps_files (ret a).
Proof. done. Qed.

Lemma keeps_files_throw {A} e : keeps_files (@throw A e).
Proof. done. Qed.

Lemma keeps_files_log msg : keeps_files (log msg).
Proof. done. Qed.

Lemma keeps_files_bind {A B} (m : M A) (k : A -> M B) :
  keeps_files m → (∀ a, keeps_files (k a)) → keeps_files (bind m k).
Proof.
  intros Hm Hk st. rewrite bind_run. specialize (Hm st).
  destruct (m st) as [[a|e] st1]; cbn [snd] in *; [by rewrite Hk | done].
Qed.

Lemma keeps_files_try_catch {A} (m : M A) (h : error -> M A) :
  keeps_files m → (∀ e, keeps_files (h e)) → keeps_files (try_catch m h).
Proof.
  intros Hm Hh st. rewrite try_catch_run. specialize (Hm st).
  destruct (m st) as [[a|e] st1]; cbn [snd] in *; [done | by rewrite Hh].
Qed.

Lemma keeps_files_forEach {A S} (l : list A) (f : A -> S -> M S) (s : S) :
  (∀ x s, keeps_files (f x s)) → keeps_files (forEach l f s).
Proof.
  intros Hf. revert s. induction l as [|x l IH]; intros s; cbn [forEach].
  - apply keeps_files_ret.
  - apply keeps_files_bind; [apply Hf | apply IH].
Qed.

Lemma keeps_files_readJSON path : keeps_files (readJSON path).
Proof. intros st. unfold readJSON. by destruct (fs st !! path). Qed.

Lemma keeps_files_get_skipped : keeps_files get_skipped.
Proof. done. Qed.

Lemma run_run (env : Env) bin cargs opts st :
  run env bin cargs opts st
  = let merged := {| cwd := cwd opts; stdio := Some (default "inherit" (stdio opts)) |} in
    (match fst (execa env (trace st) (fs st) bin cargs merged) with
     | Exited stdout => Ok stdout
     | Failed stderr => Throw (ErrExec bin cargs merged stderr)
     end,
     {| fs := snd (execa env (trace st) (fs st) bin cargs merged);
        skippedPackages := skippedPackages st;
        trace := trace st ++ [EExec bin cargs merged] |}).
Proof.
  unfold run. by destruct (execa env (trace st) (fs st) bin cargs _) as [[out|err] files'].
Qed.

Lemma executed_dialogue evs : Forall dialogue evs → executed evs = [].
Proof.
  induction 1 as [|e evs He _ IH]; [done|].
  change (e :: evs) with ([e] ++ evs). rewrite executed_app, IH. by destruct e.
Qed.

(** ** What propagation writes *)

Section Written.

Context (env : Env) (version : string).

Lemma forEach_updatePackage_adds pkgs st :
  ∃ evs,
    trace (snd (forEach pkgs
                  (fun p _ => updatePackage env (getPkgRoot env p) version) tt st))
    = trace st ++ evs.
Proof.
  revert st. induction pkgs as [|q pkgs IH]; intros st.
  - exists []. by rewrite app_nil_r.
  - cbn [forEach]. rewrite bind_run.
    destruct (updatePackage_writes env version "" (getPkgRoot env q) st) as (evs & Htr & _).
    destruct (updatePackage env (getPkgRoot env q) version st) as [[[]|err] st1];
      cbn [snd] in *.
    + destruct (IH st1) as [evs' Htr']. exists (evs ++ evs').
      by rewrite Htr', Htr, app_assoc.
    + by exists evs.
Qed.

(** The first write to a manifest carries the propagation of what the
    manifest held when the loop started. *)
Lemma forEach_updatePackage_writes_doc pkgs st p pkg doc :
  let loop := forEach pkgs (fun p _ => updatePackage env (getPkgRoot env p) version) tt in
  fst (loop st) = Ok tt → p ∈ pkgs →
  fs st !! manifest_of (getPkgRoot env p) = Some pkg →
  propagate_doc env version pkg = Some doc →
  ∃ evs, trace (snd (loop st)) = trace st ++ evs ∧
         EWrite (manifest_of (getPkgRoot env p)) doc ∈ evs.
Proof.
  cbn zeta. revert st. induction pkgs as [|q pkgs IH]; intros st Hok Hin Hpkg Hdoc.
  - by apply elem_of_nil in Hin.
  - revert Hok. cbn [forEach]. rewrite bind_run, updatePackage_run.
    destruct (decide (p = q)) as [<-|Hne].
    + rewrite Hpkg, Hdoc. intros _.
      set (st1 := {| fs := _; skippedPackages := _; trace := _ |}).
      destruct (forEach_updatePackage_adds pkgs st1) as [evs' Htr'].
      exists ((ERead (manifest_of (getPkgRoot env p))
                 :: propagate_logs env version pkg
                 ++ [EWrite (manifest_of (getPkgRoot env p)) doc]) ++ evs').
      split; [by rewrite Htr', app_assoc|].
      apply elem_of_app. left. right. apply elem_of_app. right. left.
    + destruct (fs st !! manifest_of (getPkgRoot env q)) as [pkgq|] eqn:Hq; [|done].
      destruct (propagate_doc env version pkgq) as [docq|] eqn:Hdocq; [|done].
      set (st1 := {| fs := _; skippedPackages := _; trace := _ |}).
      intros Hok. apply elem_of_cons in Hin as [?|Hin]; [done|].
      assert (fs st1 !! manifest_of (getPkgRoot env p) = Some pkg) as Hpkg1.
      { unfold st1. cbn [fs]. rewrite lookup_insert_ne; [done|].
        intros Heq%manifest_of_inj%getPkgRoot_inj. by subst. }
      destruct (IH st1 Hok Hin Hpkg1 Hdoc) as (evs' & Htr' & Hin').
      exists ((ERead (manifest_of (getPkgRoot env q))
                 :: propagate_logs env version pkgq
                 ++ [EWrite (manifest_of (getPkgRoot env q)) docq]) ++ evs').
      split; [by rewrite Htr', app_assoc|].
      apply elem_of_app. by right.
Qed.

Lemma updateVersions_writes_doc st path pkg doc :
  fst (updateVersions env version st) = Ok tt → path ∈ manifests env →
  fs st !! path = Some pkg → propagate_doc env version pkg = Some doc →
  ∃ evs, trace (snd (updateVersions env version st)) = trace st ++ evs ∧
         EWrite path doc ∈ evs.
Proof.
  unfold updateVersions, manifests. rewrite bind_run, updatePackage_run.
  intros Hok Hin Hpkg Hdoc.
  destruct (fs st !! manifest_of (dirname env)) as [root|] eqn:Hroot; [|done].
  destruct (propagate_doc env version root) as [rdoc|] eqn:Hrdoc; [|done].
  set (st1 := {| fs := _; skippedPackages := _; trace := _ |}) in *.
  apply elem_of_cons in Hin as [->|(p & -> & Hp)%list_elem_of_fmap].
  - rewrite Hroot in Hpkg. injection Hpkg as ->.
    rewrite Hrdoc in Hdoc. injection Hdoc as ->.
    destruct (forEach_updatePackage_adds (packages env) st1) as [evs' Htr'].
    exists ((ERead (manifest_of (dirname env))
               :: propagate_logs env version pkg
               ++ [EWrite (manifest_of (dirname env)) doc]) ++ evs').
    split; [by rewrite Htr', app_assoc|].
    apply elem_of_app. left. right. apply elem_of_app. right. left.
  - assert (fs st1 !! manifest_of (getPkgRoot env p) = Some pkg) as Hpkg1.
    { unfold st1. cbn [fs]. rewrite lookup_insert_ne; [done|].
      apply root_is_no_package. }
    destruct (forEach_updatePackage_writes_doc (packages env) st1 p pkg doc
                Hok Hp Hpkg1 Hdoc) as (evs' & Htr' & Hin').
    exists ((ERead (manifest_of (dirname env))
               :: propagate_logs env version root
               ++ [EWrite (manifest_of (dirname env)) rdoc]) ++ evs').
    split; [by rewrite Htr', app_assoc|].
    apply elem_of_app. by right.
Qed.

End Written.

(** ** The stages in dry-run *)

Section DryRun.

Context (env : Env) (version : string).

Hypothesis dry_run : truthy (isDryRun env) = true.

Lemma keeps_files_runIfNotDry bin cargs opts :
  keeps_files (runIfNotDry env bin cargs opts).
Proof. intros st. by rewrite runIfNotDry_dry. Qed.

Lemma keeps_files_publishPackage pkg :
  keeps_files (publishPackage env pkg version (runIfNotDry env)).
Proof.
  unfold publishPackage.
  apply keeps_files_bind; [apply keeps_files_get_skipped|]. intros skipped.
  destruct (existsb _ _); [apply keeps_files_ret|].
  apply keeps_files_bind; [apply keeps_files_readJSON|]. intros doc.
  unfold publish_manifest.
  destruct doc; try apply keeps_files_throw;
    (destruct (truthy (js_get _ "private")); [apply keeps_files_ret|];
     apply keeps_files_bind; [apply keeps_files_log|]; intros _;
     apply keeps_files_try_catch;
     [apply keeps_files_bind; [apply keeps_files_runIfNotDry|];
      intros _; apply keeps_files_log
     |intros e; destruct e; try apply keeps_files_throw;
      destruct (includes _ _); [apply keeps_files_log | apply keeps_files_throw]]).
Qed.

Lemma keeps_files_after_commit :
  keeps_files (step (nl +:+ "Publishing packages...") ;;
               main_publish env version (packages env) ;;
               main_push env version ;;
               main_summary env).
Proof.
  apply keeps_files_bind; [apply keeps_files_log|]. intros _.
  apply keeps_files_bind.
  { unfold main_publish. apply keeps_files_forEach. intros pkg _.
    apply keeps_files_publishPackage. }
  intros _. apply keeps_files_bind.
  { unfold main_push.
    apply keeps_files_bind; [apply keeps_files_log|]. intros _.
    apply keeps_files_bind; [apply keeps_files_runIfNotDry|]. intros _.
    apply keeps_files_bind; [apply keeps_files_runIfNotDry|]. intros _.
    apply keeps_files_runIfNotDry. }
  intros _. unfold main_summary.
  apply keeps_files_bind.
  { rewrite dry_run. apply keeps_files_log. }
  intros _. apply keeps_files_bind; [apply keeps_files_get_skipped|]. intros skipped.
  apply keeps_files_bind; [|intros _; apply keeps_files_log].
  destruct skipped; [apply keeps_files_ret | apply keeps_files_log].
Qed.

Lemma main_build_dry st :
  main_build env st
  = (Ok tt, add_events st [ELog (MStep (nl +:+ "Building all packages..."));
                           ELog MSkipped]).
Proof.
  unfold main_build, step. rewrite bind_run, log_run, dry_run, andb_false_r.
  by rewrite log_run, add_events_app.
Qed.

(** The files [git diff] leaves are the files the commit stage ends with. *)
Lemma main_commit_dry st :
  ∃ evs,
    trace (snd (main_commit env version st))
    = trace st ++ EExec "git" (strs ["diff"]) git_diff_merged :: evs ∧
    executed evs = [] ∧
    fs (snd (main_commit env version st))
    = snd (execa env (trace st) (fs st) "git" (strs ["diff"]) git_diff_merged).
Proof.
  destruct (main_commit_diff_first env (skippedPackages st) false version st eq_refl)
    as (evs & _ & Htr & rest & -> & Hrest).
  exists rest. split; [done|]. split; [by eapply footprint_no_exec|].
  unfold main_commit. rewrite bind_run, run_run. cbn zeta.
  change {| cwd := cwd git_diff_opts;
            stdio := Some (default "inherit" (stdio git_diff_opts)) |}
    with git_diff_merged.
  destruct (fst (execa env (trace st) (fs st) "git" (strs ["diff"]) git_diff_merged))
    as [stdout|stderr]; [|done].
  set (st1 := {| fs := _; skippedPackages := _; trace := _ |}).
  assert (keeps_files
            (if negb (String.eqb stdout "")
             then step (nl +:+ "Committing changes...") ;;
                  runIfNotDry env "git" (strs ["add"; "-A"]) no_opts ;;
                  runIfNotDry env "git"
                    (strs ["commit"; "-m"; "release: v" +:+ version]) no_opts
             else log MNoChanges)) as Hkeeps.
  { destruct (negb _); [|apply keeps_files_log].
    apply keeps_files_bind; [apply keeps_files_log|]. intros _.
    apply keeps_files_bind; [apply keeps_files_runIfNotDry|]. intros _.
    apply keeps_files_runIfNotDry. }
  by rewrite (Hkeeps st1).
Qed.

Lemma after_commit_dry st :
  let rest := step (nl +:+ "Publishing packages...") ;;
              main_publish env version (packages env) ;;
              main_push env version ;;
              main_summary env in
  ∃ evs, trace (snd (rest st)) = trace st ++ evs ∧ executed evs = [] ∧
         fs (snd (rest st)) = fs st.
Proof.
  cbn zeta.
  destruct (footprint_after_commit env (skippedPackages st) false false version st eq_refl)
    as (evs & _ & Htr & Hevs).
  exists evs. split; [done|]. split; [by eapply footprint_no_exec|].
  apply keeps_files_after_commit.
Qed.

(** A dry release, once the operator has said yes: the manifests are
    rewritten, then [git diff] really runs on the rewritten files, and from
    then on the script only prints and reads. *)
Lemma main_release_dry st :
  propagates_ok env version (manifests env) (fs st) →
  ∃ pre evs,
    trace (snd (main_release env version st))
    = (trace st ++ pre) ++ EExec "git" (strs ["diff"]) git_diff_merged :: evs ∧
    executed pre = [] ∧ executed evs = [] ∧
    fs (snd (main_release env version st))
    = snd (execa env (trace st ++ pre)
             (propagate_files env version (manifests env) (fs st))
             "git" (strs ["diff"]) git_diff_merged) ∧
    ∀ path pkg doc,
      path ∈ manifests env → fs st !! path = Some pkg →
      propagate_doc env version pkg = Some doc → EWrite path doc ∈ pre.
Proof.
  intros Hok. unfold main_release.
  rewrite (bind_ok _ _ _ _ _ (main_tests_run env st)).
  rewrite (bind_ok _ _ _ _ _ (step_run _ _)), add_events_app.
  set (talk := [ELog (MStep (nl +:+ "Running tests...")); _] ++ [_]).
  set (st1 := add_events st talk).
  assert (executed talk = []) as Htalk by done.
  assert (fst (updateVersions env version st1) = Ok tt) as Huv
    by (by apply updateVersions_ok).
  pose proof (updateVersions_fs env version st1) as Hfs2.
  destruct (footprint_updateVersions env (skippedPackages st1) false version st1 eq_refl)
    as (written & _ & Htr2 & Hwritten).
  assert (∀ path pkg doc,
            path ∈ manifests env → fs st !! path = Some pkg →
            propagate_doc env version pkg = Some doc → EWrite path doc ∈ written)
    as Hdocs.
  { intros path pkg doc Hpath Hpkg Hdoc.
    destruct (updateVersions_writes_doc env version st1 path pkg doc Huv Hpath Hpkg Hdoc)
      as (evs' & Htr' & Hin').
    rewrite Htr2 in Htr'. apply app_inv_head in Htr'. by subst. }
  destruct (updateVersions env version st1) as [[[]|e] st2] eqn:Hrun; [|done].
  cbn [snd] in Hfs2, Htr2.
  rewrite (bind_ok _ _ _ _ _ Hrun).
  rewrite (bind_ok _ _ _ _ _ (main_build_dry st2)).
  set (build := [ELog (MStep (nl +:+ "Building all packages...")); ELog MSkipped]).
  set (st3 := add_events st2 build).
  set (pre := talk ++ written ++ build).
  assert (trace st3 = trace st ++ pre) as Htr3.
  { unfold st3, pre. cbn [add_events trace]. rewrite Htr2. unfold st1.
    cbn [add_events trace]. by rewrite <- !app_assoc. }
  assert (fs st3 = propagate_files env version (manifests env) (fs st)) as Hfs3
    by exact Hfs2.
  assert (executed pre = []) as Hpre.
  { unfold pre. rewrite !executed_app, Htalk.
    by rewrite (footprint_no_exec _ _ _ _ dry_run Hwritten). }
  assert (∀ path pkg doc,
            path ∈ manifests env → fs st !! path = Some pkg →
            propagate_doc env version pkg = Some doc → EWrite path doc ∈ pre)
    as Hdocs'.
  { intros path pkg doc Hpath Hpkg Hdoc. unfold pre.
    apply elem_of_app. right. apply elem_of_app. left. by eapply Hdocs. }
  destruct (main_commit_dry st3) as (evs & Htr4 & Hevs & Hfs4).
  rewrite Htr3, Hfs3 in Hfs4. rewrite Htr3 in Htr4.
  destruct (main_commit env version st3) as [[[]|e] st4] eqn:Hcommit; cbn [snd] in *.
  - rewrite (bind_ok _ _ _ _ _ Hcommit).
    destruct (after_commit_dry st4) as (evs' & Htr5 & Hevs' & Hfs5).
    cbn zeta in Htr5, Hfs5.
    exists pre, (evs ++ evs'). rewrite Htr5, Hfs5, Htr4.
    split; [by rewrite <- !app_assoc|]. split; [done|].
    split; [by rewrite executed_app, Hevs, Hevs'|]. done.
  - rewrite (bind_throw _ _ _ _ _ Hcommit). cbn [snd]. by exists pre, evs.
Qed.

End DryRun.

(** C2.  In dry-run no mutating command is ever executed: every [git add],
    [git commit], [yarn publish], [git tag] and [git push] (and the build) is
    only printed, and the one subprocess that really runs is [git diff], at
    most once.  And propagation still runs.  Whenever a version has been
    resolved (given on the command line, picked at the prompt or typed in),
    it is valid, the operator confirms and the manifests can be read:
    [git diff] is the one subprocess of the run; before it starts, every
    manifest has been written with the propagation of the document it held,
    whose [version] is the target version when that document is an object;
    [git diff] is handed the files with exactly these rewritten manifests;
    and the files the run ends with are the files [git diff] left, for
    nothing after it touches a file. *)
Theorem dry_run_executes_only_diff (env : Env) (files : gmap string value) :
  truthy (isDryRun env) = true →
  let final := snd (program env (initial_state files)) in
  let diff := EExec "git" (strs ["diff"]) git_diff_merged in
  (executed (trace final) = [] ∨ executed (trace final) = [diff]) ∧
  (∀ version st0,
     resolve_target env (initial_state files) = (Ok (VStr version), st0) →
     semver_valid env version = true →
     answer_confirm env (trace st0) version = Some true →
     propagates_ok env version (manifests env) files →
     ∃ before after,
       trace final = before ++ diff :: after ∧
       executed before = [] ∧ executed after = [] ∧
       executed (trace final) = [diff] ∧
       fs final
       = snd (execa env before (propagate_files env version (manifests env) files)
                "git" (strs ["diff"]) git_diff_merged) ∧
       ∀ path, path ∈ manifests env →
         ∃ pkg doc,
           files !! path = Some pkg ∧
           propagate_doc env version pkg = Some doc ∧
           EWrite path doc ∈ before ∧
           propagate_files env version (manifests env) files !! path = Some doc ∧
           ∀ fields, pkg = VObj fields →
             ∃ fields', doc = VObj fields' ∧
                        obj_get fields' "version" = Some (VStr version)).
Proof.
  intros Hdry final diff. split.
  { destruct (program_dry_executed env [] Hdry (initial_state files) eq_refl)
      as (evs & _ & Htr & HT). unfold final. by rewrite Htr. }
  intros version st0 Hresolve Hvalid Hyes Hok.
  destruct (resolve_target_dialogue env (initial_state files)) as (asked & Hst0 & Hasked).
  rewrite Hresolve in Hst0. cbn [snd] in Hst0. subst st0.
  set (st0 := add_events (initial_state files) asked) in *.
  set (st1 := add_events st0 [EPrompt (PConfirm version)]).
  assert (prompt_confirm env version st0 = (Ok true, st1)) as Hconfirm
    by (unfold prompt_confirm; by rewrite Hyes).
  assert (fs st1 = files) as Hfs1 by done.
  assert (executed (trace st1) = []) as Hquiet.
  { unfold st1, st0. cbn [add_events trace initial_state app].
    rewrite executed_app. by rewrite (executed_dialogue _ Hasked). }
  assert (propagates_ok env version (manifests env) (fs st1)) as Hok1
    by (by rewrite Hfs1).
  destruct (main_release_dry env version Hdry st1 Hok1)
    as (pre & evs & Htr & Hpre & Hevs & Hfs & Hdocs).
  rewrite Hfs1 in Hfs.
  assert (∃ after, trace final = (trace st1 ++ pre) ++ diff :: after ∧
                   executed after = [] ∧
                   fs final = fs (snd (main_release env version st1)))
    as (after & Hfinal & Hafter & Hfiles).
  { unfold final, program. rewrite try_catch_run. unfold main.
    rewrite (bind_ok _ _ _ _ _ Hresolve), Hvalid.
    rewrite (bind_ok _ _ _ _ _ Hconfirm). cbn [negb].
    destruct (main_release env version st1) as [[[]|e] st'] eqn:Hrun; cbn [snd] in *.
    - by exists evs.
    - rewrite emit_run. cbn [snd add_events trace fs]. exists (evs ++ [EError e]).
      rewrite Htr. split; [by rewrite <- !app_assoc|].
      split; [|done]. by rewrite executed_app, Hevs. }
  exists (trace st1 ++ pre), after.
  assert (executed (trace st1 ++ pre) = []) as Hbefore
    by (by rewrite executed_app, Hquiet, Hpre).
  split; [done|]. split; [done|]. split; [done|]. split.
  { rewrite Hfinal. change (diff :: after) with ([diff] ++ after).
    by rewrite (executed_app (trace st1 ++ pre)), Hbefore, executed_app, Hafter. }
  split; [by rewrite Hfiles|].
  intros path Hpath.
  destruct (propagates_ok_lookup _ _ _ _ _ Hok Hpath) as [doc Hdoc].
  destruct (files !! path) as [pkg|] eqn:Hpkg; [|done]. cbn in Hdoc.
  exists pkg, doc. split; [done|]. split; [done|]. split.
  { apply elem_of_app. right. apply (Hdocs path pkg doc Hpath); [|done].
    by rewrite Hfs1. }
  split.
  { rewrite propagate_files_lookup by done. rewrite decide_True by done.
    by rewrite Hpkg. }
  intros fields ->.
  destruct (propagate_doc_object env version fields) as (fields' & Heq & _ & Hv & _).
  rewrite Heq in Hdoc. injection Hdoc as <-. by exists fields'.
Qed.

Lemma dry_run_executes_only_diff_witness :
  let final := snd (program dry_prompt_env (initial_state demo_files)) in
  let diff := EExec "git" (strs ["diff"]) git_diff_merged in
  ∃ before after,
    trace final = before ++ diff :: after ∧
    executed before = [] ∧ executed after = [] ∧
    executed (trace final) = [diff] ∧
    fs final
    = snd (execa dry_prompt_env before
             (propagate_files dry_prompt_env "1.0.1" (manifests dry_prompt_env) demo_files)
             "git" (strs ["diff"]) git_diff_merged) ∧
    ∀ path, path ∈ manifests dry_prompt_env →
      ∃ pkg doc,
        demo_files !! path = Some pkg ∧
        propagate_doc dry_prompt_env "1.0.1" pkg = Some doc ∧
        EWrite path doc ∈ before ∧
        propagate_files dry_prompt_env "1.0.1" (manifests dry_prompt_env) demo_files
          !! path = Some doc ∧
        ∀ fields, pkg = VObj fields →
          ∃ fields', doc = VObj fields' ∧
                     obj_get fields' "version" = Some (VStr "1.0.1").
Proof.
  destruct (dry_run_executes_only_diff dry_prompt_env demo_files eq_refl) as [_ Hrun].
  apply (Hrun "1.0.1"
           (add_events (initial_state demo_files)
              [EPrompt (PSelect (select_choices dry_prompt_env))])).
  - reflexivity.
  - reflexivity.
  - reflexivity.
  - vm_compute. exact I.
Defined.
